(** * Zink descriptor-set cache: a shallow embedding of
      [src/gallium/drivers/zink/zink_descriptors.c]

    The development follows the C file top to bottom: the descriptor state
    key with its equality and hash, the pool and its two hash tables, the
    batched allocator, [zink_descriptor_set_get],
    [zink_descriptor_set_recycle] and the back-reference lists.

    Conventions.  A [uint32_t] or [unsigned] is a [Z] in [0, 2^32) and every
    arithmetic operation of the source is followed by [wrap32].  A pointer to
    a [zink_descriptor_set] is the index of the set in the list of all sets
    ever allocated; a pointer to a pool is the index of the pool.  A pointer
    to a resource is a [Z], with [0] for [NULL]. *)

From stdpp Require Import base numbers list option sets.


Local Open Scope Z_scope.

(** ** Machine integers *)

Definition wrap32 (z : Z) : Z := z mod 2 ^ 32.

Definition rotl32 (x : Z) (r : Z) : Z :=
  wrap32 (Z.lor (Z.shiftl x r) (Z.shiftr x (32 - r))).

(** ** XXH32 on one 32-bit word *)

Definition PRIME32_2 : Z := 2246822519.
Definition PRIME32_3 : Z := 3266489917.
Definition PRIME32_4 : Z := 668265263.
Definition PRIME32_5 : Z := 374761393.

Definition XXH32_avalanche (h : Z) : Z :=
  let h := Z.lxor h (Z.shiftr h 15) in
  let h := wrap32 (h * PRIME32_2) in
  let h := Z.lxor h (Z.shiftr h 13) in
  let h := wrap32 (h * PRIME32_3) in
  Z.lxor h (Z.shiftr h 16).

(** Modelled from the spec: [XXH32] comes from util/xxhash.h, which is not
    among the sources; the spec only says that the hash mixes the revision
    numbers of the present stages.  [desc_state_hash] always calls it as
    [XXH32(&state[i], sizeof(uint32_t), seed)], so only the four-byte case of
    the 32-bit xxHash is written out, for a little-endian host where the four
    bytes read back as the word itself. *)
Definition XXH32_word (input seed : Z) : Z :=
  let h := wrap32 (seed + PRIME32_5) in
  let h := wrap32 (h + 4) in
  let h := wrap32 (h + input * PRIME32_3) in
  let h := wrap32 (rotl32 h 17 * PRIME32_4) in
  XXH32_avalanche h.

(** ** Descriptor state keys *)

(** [struct zink_descriptor_state_key]: two arrays of [ZINK_SHADER_COUNT]
    cells. *)
Record zink_descriptor_state_key := Key {
  exists_ : list bool;
  state : list Z
}.

Definition key_exists (k : zink_descriptor_state_key) (i : nat) : bool :=
  default false (exists_ k !! i).

Definition key_state (k : zink_descriptor_state_key) (i : nat) : Z :=
  default 0 (state k !! i).

Section Fingerprint.

(** The two enumeration constants and the mixing function are declared in
    headers that are not part of the sources; they are parameters here. *)
Variable ZINK_SHADER_COUNT : nat.
Variable PIPE_SHADER_FRAGMENT : nat.
Variable XXH32 : Z -> Z -> Z.

(** The [for] loop of [desc_state_equal], [todo] iterations from index
    [i]. *)
Fixpoint desc_state_equal_loop (todo i : nat)
    (a_k b_k : zink_descriptor_state_key) : bool :=
  match todo with
  | O => true
  | S todo' =>
      if negb (eqb (key_exists a_k i) (key_exists b_k i)) then false
      else if key_exists a_k i && key_exists b_k i
              && negb (key_state a_k i =? key_state b_k i) then false
      else desc_state_equal_loop todo' (S i) a_k b_k
  end.

Definition desc_state_equal (a b : zink_descriptor_state_key) : bool :=
  desc_state_equal_loop ZINK_SHADER_COUNT 0 a b.

(** The [for] loop of [desc_state_hash]. *)
Fixpoint desc_state_hash_loop (todo i : nat)
    (d_key : zink_descriptor_state_key) (hash : Z) : Z :=
  match todo with
  | O => hash
  | S todo' =>
      desc_state_hash_loop todo' (S i) d_key
        (if key_exists d_key i then XXH32 (key_state d_key i) hash
         else hash)
  end.

Definition desc_state_hash (d_key : zink_descriptor_state_key) : Z :=
  if negb (key_exists d_key PIPE_SHADER_FRAGMENT) then key_state d_key 0
  else desc_state_hash_loop ZINK_SHADER_COUNT 0 d_key 0.

(** The revision numbers of the present stages, in stage order. *)
Fixpoint present_states (todo i : nat) (k : zink_descriptor_state_key)
    : list Z :=
  match todo with
  | O => []
  | S todo' =>
      (if key_exists k i then [key_state k i] else [])
        ++ present_states todo' (S i) k
  end.

End Fingerprint.

(** ** Pools, sets, programs and batches *)

(** [enum zink_descriptor_type]; the four enumerators are the ones named by
    [zink_descriptor_program_init]. *)
Inductive zink_descriptor_type :=
| ZINK_DESCRIPTOR_TYPE_UBO
| ZINK_DESCRIPTOR_TYPE_SAMPLER_VIEW
| ZINK_DESCRIPTOR_TYPE_SSBO
| ZINK_DESCRIPTOR_TYPE_IMAGE.

#[global] Instance zink_descriptor_type_eq_dec : EqDecision zink_descriptor_type.
Proof. solve_decision. Defined.

Definition ZINK_DESCRIPTOR_TYPES : list zink_descriptor_type :=
  [ZINK_DESCRIPTOR_TYPE_UBO; ZINK_DESCRIPTOR_TYPE_SAMPLER_VIEW;
   ZINK_DESCRIPTOR_TYPE_SSBO; ZINK_DESCRIPTOR_TYPE_IMAGE].

(** [struct zink_descriptor_set].  [zds_resources] is the address of the
    first slot of the set inside the slot memory of the state (the union
    member [resources], alias [image_views] and [sampler_views]);
    [zds_sampler_states] is the second array of a sampler-view set. *)
Record zink_descriptor_set := Zds {
  zds_pool : nat;
  zds_type : zink_descriptor_type;
  reference_count : Z;
  zds_hash : Z;
  invalid : bool;
  recycled : bool;
  zds_key : zink_descriptor_state_key;
  zds_num_resources : Z;
  zds_resources : nat;
  zds_sampler_states : nat
}.

(** An entry of a [struct hash_table] of a pool.  Both tables are filled by
    [_mesa_hash_table_insert_pre_hashed(ht, hash, &zds->key, zds)] only, so
    the key pointer of an entry always points into the set the entry holds:
    the key of an entry is read through [he_data] at the time of the
    comparison. *)
Record hash_entry := Entry {
  he_hash : Z;
  he_data : nat
}.

(** [struct zink_descriptor_pool]. *)
Record zink_descriptor_pool := Pool {
  num_descriptors : Z;
  desc_sets : list hash_entry;
  free_desc_sets : list hash_entry;
  alloc_desc_sets : list nat;
  num_sets_allocated : Z
}.

(** The part of [struct zink_program] the cache uses.  [num_bindings_typed]
    stands for [zink_program_num_bindings_typed(pg, type, is_compute)], a
    count read off the shaders of the program. *)
Record zink_program := Program {
  pg_pool : zink_descriptor_type -> option nat;
  last_set : zink_descriptor_type -> option nat;
  num_bindings_typed : zink_descriptor_type -> bool -> Z
}.

(** The part of [struct zink_batch] the cache uses. *)
Record zink_batch := Batch {
  batch_desc_sets : list nat;
  descs_used : Z
}.

(** The part of [struct zink_context] the cache reads:
    [descriptor_states[is_compute].state[type]],
    [gfx_descriptor_states[i].valid[type]] and
    [gfx_descriptor_states[i].state[type]]. *)
Record zink_context := Context {
  descriptor_states : bool -> zink_descriptor_type -> Z;
  gfx_descriptor_states_valid : nat -> zink_descriptor_type -> bool;
  gfx_descriptor_states_state : nat -> zink_descriptor_type -> Z
}.

(** The memory the functions of the file work on: every set ever allocated,
    every pool, the slot arrays of the sets and the current batch. *)
Record zink_state := State {
  sets : list zink_descriptor_set;
  pools : list zink_descriptor_pool;
  slots : list Z;
  batch : zink_batch
}.

(** *** Field updates *)

Definition set_reference_count (v : Z) (z : zink_descriptor_set) :=
  Zds (zds_pool z) (zds_type z) v (zds_hash z) (invalid z) (recycled z)
      (zds_key z) (zds_num_resources z) (zds_resources z)
      (zds_sampler_states z).

Definition set_invalid (v : bool) (z : zink_descriptor_set) :=
  Zds (zds_pool z) (zds_type z) (reference_count z) (zds_hash z) v
      (recycled z) (zds_key z) (zds_num_resources z) (zds_resources z)
      (zds_sampler_states z).

Definition set_recycled (v : bool) (z : zink_descriptor_set) :=
  Zds (zds_pool z) (zds_type z) (reference_count z) (zds_hash z) (invalid z)
      v (zds_key z) (zds_num_resources z) (zds_resources z)
      (zds_sampler_states z).

Definition set_hash_key (h : Z) (k : zink_descriptor_state_key)
    (z : zink_descriptor_set) :=
  Zds (zds_pool z) (zds_type z) (reference_count z) h (invalid z)
      (recycled z) k (zds_num_resources z) (zds_resources z)
      (zds_sampler_states z).

Definition set_desc_sets (v : list hash_entry) (p : zink_descriptor_pool) :=
  Pool (num_descriptors p) v (free_desc_sets p) (alloc_desc_sets p)
       (num_sets_allocated p).

Definition set_free_desc_sets (v : list hash_entry)
    (p : zink_descriptor_pool) :=
  Pool (num_descriptors p) (desc_sets p) v (alloc_desc_sets p)
       (num_sets_allocated p).

Definition set_alloc_desc_sets (v : list nat) (p : zink_descriptor_pool) :=
  Pool (num_descriptors p) (desc_sets p) (free_desc_sets p) v
       (num_sets_allocated p).

Definition set_num_sets_allocated (v : Z) (p : zink_descriptor_pool) :=
  Pool (num_descriptors p) (desc_sets p) (free_desc_sets p)
       (alloc_desc_sets p) v.

Definition with_sets (v : list zink_descriptor_set) (st : zink_state) :=
  State v (pools st) (slots st) (batch st).

Definition with_pools (v : list zink_descriptor_pool) (st : zink_state) :=
  State (sets st) v (slots st) (batch st).

Definition with_slots (v : list Z) (st : zink_state) :=
  State (sets st) (pools st) v (batch st).

Definition with_batch (v : zink_batch) (st : zink_state) :=
  State (sets st) (pools st) (slots st) v.

(** Write through a pointer to a set, a pool. *)
Definition update_set (zds : nat)
    (f : zink_descriptor_set -> zink_descriptor_set) (st : zink_state) :=
  with_sets (alter f zds (sets st)) st.

Definition update_pool (pool : nat)
    (f : zink_descriptor_pool -> zink_descriptor_pool) (st : zink_state) :=
  with_pools (alter f pool (pools st)) st.

Definition set_last_set (type : zink_descriptor_type) (zds : nat)
    (pg : zink_program) : zink_program :=
  Program (pg_pool pg)
          (fun t => if decide (t = type) then Some zds else last_set pg t)
          (num_bindings_typed pg).

(** ** Outcomes of a call

    A call returns, trips an [assert] (debug builds only), reads through
    a pointer that points nowhere, or is cut off by the fuel of the
    model. *)
Inductive result (A : Type) :=
| Ok (a : A)
| AssertFailed
| Crashed
| OutOfFuel.
#[global] Arguments Ok {A} a.
#[global] Arguments AssertFailed {A}.
#[global] Arguments Crashed {A}.
#[global] Arguments OutOfFuel {A}.

Definition result_bind {A B} (f : A -> result B) (m : result A)
    : result B :=
  match m with
  | Ok a => f a
  | AssertFailed => AssertFailed
  | Crashed => Crashed
  | OutOfFuel => OutOfFuel
  end.

Definition deref {A} (o : option A) : result A :=
  match o with
  | Some a => Ok a
  | None => Crashed
  end.

#[global] Instance result_mbind : MBind result := @result_bind.

(** ** The hash tables of a pool *)

Section Cache.

Variable ZINK_SHADER_COUNT : nat.
(** [ZINK_DEFAULT_MAX_DESCS] is defined in a header that is not part of the
    sources; [NDEBUG] tells whether the [assert]s are compiled out. *)
Variable ZINK_DEFAULT_MAX_DESCS : Z.
Variable NDEBUG : bool.
(** The device: [vkAllocateDescriptorSets st pool n] tells whether the
    device grants the [n] sets asked from the Vulkan pool of [pool] when the
    driver is in state [st] ([VK_SUCCESS]) or refuses them. *)
Variable vkAllocateDescriptorSets : zink_state -> nat -> Z -> bool.

Abbreviation desc_state_equal := (desc_state_equal ZINK_SHADER_COUNT).

(** Modelled from the spec: the table of util/hash_table.c is not among the
    sources.  The spec describes each table as a map from fingerprint to
    set; a table is a list of entries, a search returns the first entry
    with the hash searched for and a key that compares equal, an insert
    replaces such an entry or adds a new one at the end, and
    [hash_table_foreach] walks the list from its head. *)
Definition entry_matches (zs : list zink_descriptor_set) (hash : Z)
    (key : zink_descriptor_state_key) (he : hash_entry) : bool :=
  (he_hash he =? hash)
  && match zs !! he_data he with
     | Some zds => desc_state_equal key (zds_key zds)
     | None => false
     end.

Definition _mesa_hash_table_search_pre_hashed
    (zs : list zink_descriptor_set) (ht : list hash_entry) (hash : Z)
    (key : zink_descriptor_state_key) : option (nat * hash_entry) :=
  list_find (fun he => entry_matches zs hash key he = true) ht.

Definition _mesa_hash_table_remove (ht : list hash_entry) (he : nat)
    : list hash_entry :=
  delete he ht.

Definition _mesa_hash_table_insert_pre_hashed
    (zs : list zink_descriptor_set) (ht : list hash_entry) (hash : Z)
    (zds : nat) : list hash_entry :=
  match zs !! zds with
  | Some z =>
      match _mesa_hash_table_search_pre_hashed zs ht hash (zds_key z) with
      | Some (i, _) => <[i := Entry hash zds]> ht
      | None => ht ++ [Entry hash zds]
      end
  | None => ht ++ [Entry hash zds]
  end.

(** ** [get_invalidated_desc_set] *)

Definition get_invalidated_desc_set (zds : zink_descriptor_set) : bool :=
  if negb (invalid zds) then false else reference_count zds =? 1.

(** ** [zink_descriptor_set_invalidate] *)

Definition zink_descriptor_set_invalidate (zds : nat) (st : zink_state)
    : zink_state :=
  update_set zds (set_invalid true) st.

(** ** [allocate_desc_set] *)

Definition DESC_BUCKET_FACTOR : Z := 10.

(** The loop
    [for (desc_factor = DESC_BUCKET_FACTOR; desc_factor < descs_used;
          desc_factor *= DESC_BUCKET_FACTOR) bucket_size = desc_factor;]
    on [unsigned] values; [None] when the fuel runs out. *)
Fixpoint bucket_size_loop (fuel : nat)
    (desc_factor descs_used bucket_size : Z) : option Z :=
  match fuel with
  | O => None
  | S fuel' =>
      if desc_factor <? descs_used
      then bucket_size_loop fuel'
             (wrap32 (desc_factor * DESC_BUCKET_FACTOR)) descs_used
             desc_factor
      else Some bucket_size
  end.

(** Lines 126-131.  After 32 multiplications by ten the factor is [0] for
    good, so 64 rounds decide the loop: [None] is a loop that never
    ends. *)
Definition desc_bucket_size (pool_num_descriptors descs_used : Z)
    : option Z :=
  if pool_num_descriptors =? 0 then Some 1
  else bucket_size_loop 64 DESC_BUCKET_FACTOR descs_used
         DESC_BUCKET_FACTOR.

(** The set [&alloc[i]] of a bucket; the key of a new set is not
    initialised by the source and is the empty key here. *)
Definition fresh_desc_set (pool : nat) (type : zink_descriptor_type)
    (num_resources : Z) (pool_num_descriptors : Z)
    (resources samplers : nat) (i : nat) : zink_descriptor_set :=
  Zds pool type 1 0 true false (Key [] []) num_resources
      (resources + i * Z.to_nat pool_num_descriptors)
      (if decide (type = ZINK_DESCRIPTOR_TYPE_SAMPLER_VIEW)
       then samplers + i * Z.to_nat pool_num_descriptors else 0%nat).

(** The result is the pointer [alloc], the first set of the bucket, or
    [None] for the [VK_NULL_HANDLE] of line 145, returned before anything
    is created when the device refuses the sets.  The host allocations of
    lines 148-156 are taken to succeed. *)
Definition allocate_desc_set (st : zink_state) (pg : zink_program)
    (type : zink_descriptor_type) (descs_used : Z) (is_compute : bool)
    : result (zink_state * option nat) :=
  pool ← deref (pg_pool pg type);
  p ← deref (pools st !! pool);
  bucket_size ← match desc_bucket_size (num_descriptors p) descs_used with
                | Some b => Ok b
                | None => OutOfFuel
                end;
  if negb (vkAllocateDescriptorSets st pool bucket_size) then Ok (st, None)
  else
  let num_resources := num_bindings_typed pg type is_compute in
  let len := Z.to_nat (wrap32 (num_resources * bucket_size)) in
  let resources := length (slots st) in
  let samplers := (resources + len)%nat in
  let alloc := length (sets st) in
  let bucket := Z.to_nat bucket_size in
  let new_sets :=
    fresh_desc_set pool type num_resources (num_descriptors p) resources
      samplers <$> seq 0 bucket in
  let shells := seq (S alloc) (bucket - 1) in
  let st := with_slots
              (slots st ++ replicate len 0
               ++ (if decide (type = ZINK_DESCRIPTOR_TYPE_SAMPLER_VIEW)
                   then replicate len 0 else [])) st in
  let st := with_sets (sets st ++ new_sets) st in
  let st := update_pool pool
              (fun p => set_num_sets_allocated
                          (wrap32 (num_sets_allocated p + bucket_size))
                          (set_alloc_desc_sets
                             (alloc_desc_sets p ++ shells) p)) st in
  Ok (st, Some alloc).

(** ** [populate_zds_key] *)

(** The function fills the key it is given: the compute branch leaves the
    revision numbers of the stages after the first as they were. *)
Definition populate_zds_key (ctx : zink_context)
    (type : zink_descriptor_type) (is_compute : bool)
    (key : zink_descriptor_state_key) : zink_descriptor_state_key :=
  if is_compute then
    Key ((fun i => bool_decide (i = 0%nat)) <$> seq 0 ZINK_SHADER_COUNT)
        ((fun i => if decide (i = 0%nat)
                   then descriptor_states ctx is_compute type
                   else key_state key i)
           <$> seq 0 ZINK_SHADER_COUNT)
  else
    Key ((fun i => gfx_descriptor_states_valid ctx i type)
           <$> seq 0 ZINK_SHADER_COUNT)
        ((fun i => gfx_descriptor_states_state ctx i type)
           <$> seq 0 ZINK_SHADER_COUNT).

(** ** The batch *)

(** Modelled from the spec: zink_batch.c is not among the sources.  The
    batch "tracks which DescriptorSets a given in-flight submission depends
    on and drives reference-count release on completion"; adding a set the
    batch does not hold yet takes a reference and answers [true]. *)
Definition zink_batch_add_desc_set (st : zink_state) (zds : nat)
    : zink_state * bool :=
  if bool_decide (zds ∈ batch_desc_sets (batch st)) then (st, false)
  else
    let st := with_batch (Batch (batch_desc_sets (batch st) ++ [zds])
                                (descs_used (batch st))) st in
    (update_set zds
       (fun z => set_reference_count (wrap32 (reference_count z + 1)) z)
       st, true).

(** ** [zink_descriptor_set_recycle] *)

Definition zink_descriptor_set_recycle (st : zink_state) (zds : nat)
    : result zink_state :=
  z ← deref (sets st !! zds);
  let pool := zds_pool z in
  let refcount := reference_count z in
  if negb (refcount =? 1) then Ok st
  else
    p ← deref (pools st !! pool);
    if num_descriptors p =? 0 then Ok st
    else
      match _mesa_hash_table_search_pre_hashed (sets st) (desc_sets p)
              (zds_hash z) (zds_key z) with
      | None => Ok st
      | Some (he, _) =>
          let st := update_pool pool
                      (fun p => set_desc_sets
                                  (_mesa_hash_table_remove (desc_sets p) he)
                                  p) st in
          if invalid z then
            let st := zink_descriptor_set_invalidate zds st in
            Ok (update_pool pool
                  (fun p => set_alloc_desc_sets (alloc_desc_sets p ++ [zds])
                              p) st)
          else
            let st := update_set zds (set_recycled true) st in
            Ok (update_pool pool
                  (fun p => set_free_desc_sets
                              (_mesa_hash_table_insert_pre_hashed (sets st)
                                 (free_desc_sets p) (zds_hash z) zds) p)
                  st)
      end.

(** Modelled from the spec: the retirement of a batch "triggers [recycle]
    for every object it depended on", after dropping the reference the
    batch held. *)
Fixpoint zink_batch_release (zs : list nat) (st : zink_state)
    : result zink_state :=
  match zs with
  | [] => Ok st
  | zds :: zs' =>
      st ← zink_descriptor_set_recycle
             (update_set zds
                (fun z => set_reference_count
                            (wrap32 (reference_count z - 1)) z) st) zds;
      zink_batch_release zs' st
  end.

(** Modelled from the spec: [zink_flush_batch] submits the batch,
    "releasing its dependent sets' reference counts", and hands back an
    empty batch. *)
Definition zink_flush_batch (st : zink_state) : result zink_state :=
  st ← zink_batch_release (batch_desc_sets (batch st)) st;
  Ok (with_batch (Batch [] 0) st).

(** ** [zink_descriptor_set_get] *)

(** Where the lookup part of the function (lines 215-284) leaves to. *)
Inductive get_branch :=
| goto_out (st : zink_state) (zds : nat) (cache_hit : bool)
| goto_quick_out (st : zink_state) (zds : nat) (cache_hit : bool)
| flush_and_retry
| goto_allocate.

(** The loop of lines 261-270 over the entries of [free_desc_sets], from
    entry number [he] on; the answer is the entry and its set. *)
Fixpoint scan_free_desc_sets (zs : list zink_descriptor_set)
    (ht : list hash_entry) (he : nat) (count : Z) : option (nat * nat) :=
  match ht with
  | [] => None
  | e :: ht' =>
      match zs !! he_data e with
      | Some tmp =>
          if ((100 <=? count) && (reference_count tmp =? 1))
             || get_invalidated_desc_set tmp
          then Some (he, he_data e)
          else scan_free_desc_sets zs ht' (S he) (wrap32 (count + 1))
      | None => scan_free_desc_sets zs ht' (S he) (wrap32 (count + 1))
      end
  end.

(** Lines 227-277: the pool has descriptors. *)
Definition get_lookup_pool (st : zink_state) (pool : nat)
    (p : zink_descriptor_pool) (hash : Z) (key : zink_descriptor_state_key)
    : result get_branch :=
  match _mesa_hash_table_search_pre_hashed (sets st) (desc_sets p) hash
          key with
  | Some (_, e) =>
      zds ← deref (sets st !! he_data e);
      if invalid zds && negb NDEBUG then AssertFailed
      else Ok (goto_quick_out st (he_data e) (negb (invalid zds)))
  | None =>
      match _mesa_hash_table_search_pre_hashed (sets st) (free_desc_sets p)
              hash key with
      | Some (he, e) =>
          zds ← deref (sets st !! he_data e);
          Ok (goto_out
                (update_pool pool
                   (fun p => set_free_desc_sets
                               (_mesa_hash_table_remove (free_desc_sets p)
                                  he) p) st)
                (he_data e) (negb (invalid zds)))
      | None =>
          match list.last (alloc_desc_sets p) with
          | Some zds =>
              Ok (goto_out
                    (update_pool pool
                       (fun p => set_alloc_desc_sets
                                   (take (length (alloc_desc_sets p) - 1)
                                      (alloc_desc_sets p)) p) st)
                    zds false)
          | None =>
              match scan_free_desc_sets (sets st) (free_desc_sets p) 0 0
              with
              | Some (he, zds) =>
                  let st := zink_descriptor_set_invalidate zds st in
                  Ok (goto_out
                        (update_pool pool
                           (fun p => set_free_desc_sets
                                       (_mesa_hash_table_remove
                                          (free_desc_sets p) he) p) st)
                        zds false)
              | None =>
                  if ZINK_DEFAULT_MAX_DESCS
                     <? wrap32 (num_sets_allocated p + num_descriptors p)
                  then Ok flush_and_retry
                  else Ok goto_allocate
              end
          end
      end
  end.

(** Lines 215-284. *)
Definition get_lookup (st : zink_state) (pg : zink_program) (pool : nat)
    (p : zink_descriptor_pool) (type : zink_descriptor_type) (hash : Z)
    (key : zink_descriptor_state_key) : result get_branch :=
  shortcut ← match last_set pg type with
             | None => Ok None
             | Some l =>
                 z ← deref (sets st !! l);
                 Ok (if (zds_hash z =? hash)
                        && desc_state_equal (zds_key z) key
                     then Some (l, z) else None)
             end;
  match shortcut with
  | Some (zds, z) =>
      let cache_hit := negb (invalid z) in
      let st :=
        if negb (num_descriptors p =? 0) && recycled z then
          match _mesa_hash_table_search_pre_hashed (sets st)
                  (free_desc_sets p) hash key with
          | Some (he, _) =>
              update_pool pool
                (fun p => set_free_desc_sets
                            (_mesa_hash_table_remove (free_desc_sets p) he)
                            p) st
          | None => st
          end
        else st in
      Ok (goto_out st zds cache_hit)
  | None =>
      if negb (num_descriptors p =? 0) then
        get_lookup_pool st pool p hash key
      else
        match last_set pg type with
        | Some l =>
            z ← deref (sets st !! l);
            if zds_hash z =? 0 then Ok (goto_quick_out st l true)
            else Ok goto_allocate
        | None => Ok goto_allocate
        end
  end.

(** [pg->pool[i] && !pg->pool[i]->num_descriptors] *)
Definition is_null_pool (st : zink_state) (pg : zink_program)
    (i : zink_descriptor_type) : bool :=
  match pg_pool pg i with
  | Some q =>
      match pools st !! q with
      | Some pq => num_descriptors pq =? 0
      | None => false
      end
  | None => false
  end.

(** Lines 300-305, from the label [quick_out]. *)
Definition get_quick_out (st : zink_state) (pg : zink_program)
    (p : zink_descriptor_pool) (type : zink_descriptor_type) (zds : nat)
    (cache_hit : bool) : result (zink_state * zink_program * nat * bool) :=
  _ ← deref (sets st !! zds);
  let st := update_set zds (set_invalid false) st in
  let '(st, added) := zink_batch_add_desc_set st zds in
  let st :=
    if added
    then with_batch (Batch (batch_desc_sets (batch st))
                           (wrap32 (descs_used (batch st)
                                    + num_descriptors p))) st
    else st in
  Ok (st, set_last_set type zds pg, zds, cache_hit).

(** Lines 287-305, from the label [out]. *)
Definition get_out (st : zink_state) (pg : zink_program) (pool : nat)
    (p : zink_descriptor_pool) (ctx : zink_context)
    (type : zink_descriptor_type) (is_compute : bool) (hash : Z)
    (zds : nat) (cache_hit : bool)
    : result (zink_state * zink_program * nat * bool) :=
  _ ← deref (sets st !! zds);
  let st :=
    update_set zds
      (fun z => set_recycled false
                  (set_hash_key hash
                     (populate_zds_key ctx type is_compute (zds_key z)) z))
      st in
  if negb (num_descriptors p =? 0) then
    let st :=
      update_pool pool
        (fun p => set_desc_sets
                    (_mesa_hash_table_insert_pre_hashed (sets st)
                       (desc_sets p) hash zds) p) st in
    get_quick_out st pg p type zds cache_hit
  else
    let pg :=
      foldl (fun pg i => if is_null_pool st pg i then set_last_set i zds pg
                         else pg) pg ZINK_DESCRIPTOR_TYPES in
    get_quick_out st pg p type zds cache_hit.

(** The whole function.  [zink_batch_reference_program] only records the
    program in the batch and has no effect on the state modelled here.
    Line 288 writes through the pointer [allocate_desc_set] returned: after
    a refused allocation that is a write through a null pointer. *)
Fixpoint zink_descriptor_set_get (fuel : nat) (st : zink_state)
    (pg : zink_program) (ctx : zink_context) (type : zink_descriptor_type)
    (is_compute : bool)
    : result (zink_state * zink_program * nat * bool) :=
  match fuel with
  | O => OutOfFuel
  | S fuel' =>
      pool ← deref (pg_pool pg type);
      p ← deref (pools st !! pool);
      let descs_used := 1 in
      let hash := if negb (num_descriptors p =? 0)
                  then descriptor_states ctx is_compute type else 0 in
      let key := populate_zds_key ctx type is_compute (Key [] []) in
      branch ← get_lookup st pg pool p type hash key;
      match branch with
      | goto_out st zds cache_hit =>
          get_out st pg pool p ctx type is_compute hash zds cache_hit
      | goto_quick_out st zds cache_hit =>
          get_quick_out st pg p type zds cache_hit
      | flush_and_retry =>
          st ← zink_flush_batch st;
          zink_descriptor_set_get fuel' st pg ctx type is_compute
      | goto_allocate =>
          '(st, alloc) ← allocate_desc_set st pg type descs_used is_compute;
          zds ← deref alloc;
          get_out st pg pool p ctx type is_compute hash zds false
      end
  end.

(** ** Back-references *)

(** [struct zink_descriptor_reference]: the address of a slot and the
    address of the [invalid] flag of the set the slot belongs to, given
    here as the set itself. *)
Record zink_descriptor_reference := Reference {
  ref : nat;
  ref_invalid : nat
}.

(** [desc_set_ref_add]; [refs] is the array [refs->refs] of the resource
    bound. *)
Definition desc_set_ref_add (st : zink_state) (zds : nat)
    (refs : list zink_descriptor_reference) (ref_ptr : nat) (ptr : Z)
    : zink_state * list zink_descriptor_reference :=
  let st := with_slots (<[ref_ptr := ptr]> (slots st)) st in
  (st, if ptr =? 0 then refs else refs ++ [Reference ref_ptr zds]).

Definition zink_resource_desc_set_add (st : zink_state) (res : Z)
    (desc_set_refs : list zink_descriptor_reference) (zds : nat)
    (idx : nat) : result (zink_state * list zink_descriptor_reference) :=
  z ← deref (sets st !! zds);
  Ok (desc_set_ref_add st zds desc_set_refs (zds_resources z + idx) res).

Definition zink_image_view_desc_set_add (st : zink_state) (image_view : Z)
    (desc_set_refs : list zink_descriptor_reference) (zds : nat)
    (idx : nat) : result (zink_state * list zink_descriptor_reference) :=
  z ← deref (sets st !! zds);
  Ok (desc_set_ref_add st zds desc_set_refs (zds_resources z + idx)
        image_view).

Definition zink_sampler_view_desc_set_add (st : zink_state)
    (sampler_view : Z) (desc_set_refs : list zink_descriptor_reference)
    (zds : nat) (idx : nat)
    : result (zink_state * list zink_descriptor_reference) :=
  z ← deref (sets st !! zds);
  Ok (desc_set_ref_add st zds desc_set_refs (zds_resources z + idx)
        sampler_view).

Definition zink_sampler_state_desc_set_add (st : zink_state)
    (sampler_state : Z) (desc_set_refs : list zink_descriptor_reference)
    (zds : nat) (idx : nat)
    : result (zink_state * list zink_descriptor_reference) :=
  z ← deref (sets st !! zds);
  Ok (desc_set_ref_add st zds desc_set_refs (zds_sampler_states z + idx)
        sampler_state).

(** One round of the loop of [zink_descriptor_set_refs_clear]. *)
Definition refs_clear_step (ptr : Z) (st : zink_state)
    (r : zink_descriptor_reference) : zink_state :=
  if bool_decide (slots st !! ref r = Some ptr) then
    with_slots (<[ref r := 0]> (slots st))
      (update_set (ref_invalid r) (set_invalid true) st)
  else st.

(** [zink_descriptor_set_refs_clear]; the array of the resource is empty
    afterwards. *)
Definition zink_descriptor_set_refs_clear (st : zink_state)
    (refs : list zink_descriptor_reference) (ptr : Z)
    : zink_state * list zink_descriptor_reference :=
  (foldl (refs_clear_step ptr) st refs, []).

End Cache.

#[global] Arguments Reference _ _ : assert.

(** ** The constants of the headers

    [ZINK_SHADER_COUNT], [PIPE_SHADER_FRAGMENT] and [ZINK_DEFAULT_MAX_DESCS]
    are defined in headers of the repository that are not among the sources.
    The general statements below take them as parameters; the concrete
    examples use the values of the gallium headers: five graphics stages,
    the fragment stage second, and five thousand sets per pool. *)
Module Mesa.
Definition ZINK_SHADER_COUNT : nat := 5.
Definition PIPE_SHADER_FRAGMENT : nat := 1.
Definition ZINK_DEFAULT_MAX_DESCS : Z := 5000.

Definition desc_state_equal := desc_state_equal ZINK_SHADER_COUNT.
Definition desc_state_hash :=
  desc_state_hash ZINK_SHADER_COUNT PIPE_SHADER_FRAGMENT XXH32_word.
Definition populate_zds_key := populate_zds_key ZINK_SHADER_COUNT.

(** A context for compute work whose state for every type is at revision
    [s]. *)
Definition compute_context (s : Z) : zink_context :=
  Context (fun _ _ => s) (fun _ _ => false) (fun _ _ => 0).

(** A graphics context given by the validity flags and revision numbers of
    its stages (the same for every type) and the overall revision. *)
Definition gfx_context (s : Z) (valid : list bool) (states : list Z)
    : zink_context :=
  Context (fun _ _ => s)
          (fun i _ => default false (valid !! i))
          (fun i _ => default 0 (states !! i)).
End Mesa.

(** ** The bucket size as the specification words it *)

(** The smallest power of [factor] that is at least [N], searched upwards
    from [power]. *)
Fixpoint smallest_power_at_least (fuel : nat) (factor power N : Z) : Z :=
  match fuel with
  | O => power
  | S fuel' =>
      if N <=? power then power
      else smallest_power_at_least fuel' factor (power * factor) N
  end.

(** "1 if this pool has never allocated anything needing dedup bookkeeping,
    otherwise the smallest power of a fixed growth factor (e.g. 10) that is
    ≥ N, clamped to remain within the pool's allocated-count headroom under
    the capacity ceiling." *)
Definition spec_bucket_size (ceiling : Z) (p : zink_descriptor_pool) (N : Z)
    : Z :=
  if num_descriptors p =? 0 then 1
  else Z.min (smallest_power_at_least 64 10 1 N)
             (ceiling - num_sets_allocated p).

(** ** Relations between states used in the statements *)

(** [z'] is [z] with, at most, its [invalid] flag raised. *)
Definition invalidated (z z' : zink_descriptor_set) : Prop :=
  z' = z \/ z' = set_invalid true z.

(** The shortcut test of lines 215-216 of [zink_descriptor_set_get]: the
    last set of the type is [l], with contents [z], and carries the hash and
    a key equal to the ones looked up. *)
Definition shortcut_hit (ZINK_SHADER_COUNT : nat) (st : zink_state)
    (pg : zink_program) (type : zink_descriptor_type) (hash : Z)
    (key : zink_descriptor_state_key) (l : nat) (z : zink_descriptor_set)
    : Prop :=
  last_set pg type = Some l /\ sets st !! l = Some z
  /\ zds_hash z = hash
  /\ desc_state_equal ZINK_SHADER_COUNT (zds_key z) key = true.

(** [z'] is [z] up to the reference count and the [recycled] flag: what a
    batch and [zink_descriptor_set_recycle] may change in a set. *)
Definition same_contents (z z' : zink_descriptor_set) : Prop :=
  exists rc r, z' = set_recycled r (set_reference_count rc z).

(** [p'] is [p] up to its two tables and its list of shells; a pool without
    descriptors is not changed at all. *)
Definition same_counters (p p' : zink_descriptor_pool) : Prop :=
  num_descriptors p' = num_descriptors p
  /\ num_sets_allocated p' = num_sets_allocated p
  /\ (num_descriptors p = 0 -> p' = p).

(** The state a successful lookup leaves behind: [zds] is the last set of
    the type, its contents are valid, and either the set carries the hash and
    a key equal to the ones of the context, or the active map of the pool
    answers the lookup with [zds], or the pool has no descriptors and the set
    carries hash 0. *)
Definition cached_for (ZINK_SHADER_COUNT : nat) (st : zink_state)
    (pg : zink_program) (ctx : zink_context) (type : zink_descriptor_type)
    (is_compute : bool) (zds : nat) : Prop :=
  exists pool p z,
    pg_pool pg type = Some pool /\ pools st !! pool = Some p
    /\ last_set pg type = Some zds /\ sets st !! zds = Some z
    /\ invalid z = false
    /\ let hash := if negb (num_descriptors p =? 0)
                   then descriptor_states ctx is_compute type else 0 in
       let key := populate_zds_key ZINK_SHADER_COUNT ctx type is_compute
                    (Key [] []) in
       (zds_hash z = hash
        /\ desc_state_equal ZINK_SHADER_COUNT (zds_key z) key = true)
       \/ (num_descriptors p <> 0
           /\ exists i e,
                _mesa_hash_table_search_pre_hashed ZINK_SHADER_COUNT
                  (sets st) (desc_sets p) hash key = Some (i, e)
                /\ he_data e = zds)
       \/ (num_descriptors p = 0 /\ zds_hash z = 0).

(** ** Concrete programs and states for the examples *)

Module Example.

(** A program with one pool, for uniform buffers, and the state right after
    [descriptor_pool_create]: empty tables, no shell, nothing allocated. *)
Definition one_pool_program : zink_program :=
  Program (fun t => if decide (t = ZINK_DESCRIPTOR_TYPE_UBO)
                    then Some 0%nat else None)
          (fun _ => None) (fun _ _ => 1).

Definition one_pool_state (pool_num_descriptors : Z) : zink_state :=
  State [] [Pool pool_num_descriptors [] [] [] 0] [] (Batch [] 0).

(** A device that grants every allocation of descriptor sets. *)
Definition granting : zink_state -> nat -> Z -> bool := fun _ _ _ => true.

(** A device that refuses every allocation of descriptor sets. *)
Definition refusing : zink_state -> nat -> Z -> bool := fun _ _ _ => false.

(** The functions of the file with the constants of the headers, in a debug
    build, on the granting device. *)
Definition get :=
  zink_descriptor_set_get Mesa.ZINK_SHADER_COUNT Mesa.ZINK_DEFAULT_MAX_DESCS
    false granting.
Definition recycle := zink_descriptor_set_recycle Mesa.ZINK_SHADER_COUNT.
Definition flush := zink_flush_batch Mesa.ZINK_SHADER_COUNT.

End Example.

(** ** Disjointness of the two maps of a pool *)

(** The two maps of pool [pool] are disjoint on fingerprint: no hash and key
    is answered by both the active map and the recycle map. *)
Definition maps_disjoint (ZINK_SHADER_COUNT : nat) (st : zink_state)
    (pool : nat) : Prop :=
  forall p hash key,
    pools st !! pool = Some p ->
    ~ (is_Some (_mesa_hash_table_search_pre_hashed ZINK_SHADER_COUNT
                  (sets st) (desc_sets p) hash key)
       /\ is_Some (_mesa_hash_table_search_pre_hashed ZINK_SHADER_COUNT
                     (sets st) (free_desc_sets p) hash key)).

Module Scenario.

Import Example.

(** A set is looked up for revision 7, its resource is destroyed and the
    batch retires; the same revision is looked up again and the batch
    retires; revision 8 is looked up, invalidated and released the same way;
    revision 7 is looked up a last time. *)
Definition shell_reuse : result (zink_state * zink_program * nat * bool) :=
  '(st, pg, x, _) ← get 1 (one_pool_state 1) one_pool_program
                      (Mesa.compute_context 7) ZINK_DESCRIPTOR_TYPE_UBO true;
  st ← flush (zink_descriptor_set_invalidate x st);
  '(st, pg, _, _) ← get 1 st pg (Mesa.compute_context 7)
                      ZINK_DESCRIPTOR_TYPE_UBO true;
  st ← flush st;
  '(st, pg, y, _) ← get 1 st pg (Mesa.compute_context 8)
                      ZINK_DESCRIPTOR_TYPE_UBO true;
  st ← flush (zink_descriptor_set_invalidate y st);
  get 1 st pg (Mesa.compute_context 7) ZINK_DESCRIPTOR_TYPE_UBO true.

End Scenario.

(** ** What one lookup does to the state *)

(** The sets a pool refers to: through its two tables and its shell list. *)
Definition pool_members (p : zink_descriptor_pool) : list nat :=
  (he_data <$> desc_sets p) ++ (he_data <$> free_desc_sets p)
  ++ alloc_desc_sets p.

(** The set belongs to a pool without descriptors. *)
Definition null_set (st : zink_state) (z : zink_descriptor_set) : Prop :=
  exists p, pools st !! zds_pool z = Some p /\ num_descriptors p = 0.

(** The effect of a call of [zink_descriptor_set_get] for type [type] that
    does not go through the flush: [Q] is the pool of the type, [p] and [p']
    its contents before and after, [fresh] the sets of the bucket the call
    allocated (none if it did not allocate), [z] and [z'] the contents of the
    set returned, before and after. *)
Record get_effect (ZINK_DEFAULT_MAX_DESCS : Z) (st : zink_state)
    (pg : zink_program) (ctx : zink_context) (type : zink_descriptor_type)
    (is_compute : bool) (st' : zink_state) (pg' : zink_program) (zds : nat)
    (Q : nat) (p p' : zink_descriptor_pool) (z z' : zink_descriptor_set)
    (fresh : list zink_descriptor_set) : Prop := GetEffect {
  ge_pool : pg_pool pg type = Some Q;
  ge_before : pools st !! Q = Some p;
  ge_after : pools st' !! Q = Some p';
  ge_length : length (sets st') = length (sets st ++ fresh);
  ge_others : forall s, s <> zds -> sets st' !! s = (sets st ++ fresh) !! s;
  ge_set_before : (sets st ++ fresh) !! zds = Some z;
  ge_set_after : sets st' !! zds = Some z';
  ge_set_pool : zds_pool z' = zds_pool z;
  ge_set_hash :
    zds_hash z' = zds_hash z
    \/ zds_hash z' = (if negb (num_descriptors p =? 0)
                      then descriptor_states ctx is_compute type else 0);
  ge_fresh : Forall (fun f => zds_pool f = Q /\ zds_hash f = 0) fresh;
  ge_source :
    last_set pg type = Some zds
    \/ (num_descriptors p <> 0 /\ zds ∈ pool_members p)
    \/ (zds = length (sets st) /\ fresh <> []);
  ge_pools_length : length (pools st') = length (pools st);
  ge_other_pools : forall q, q <> Q -> pools st' !! q = pools st !! q;
  ge_num_descriptors : num_descriptors p' = num_descriptors p;
  ge_members :
    forall m, m ∈ pool_members p' ->
      m ∈ pool_members p \/ m = zds
      \/ (length (sets st) <= m < length (sets st) + length fresh)%nat;
  ge_null_maps :
    num_descriptors p = 0 ->
    desc_sets p' = desc_sets p /\ free_desc_sets p' = free_desc_sets p;
  ge_allocated :
    (fresh = [] /\ num_sets_allocated p' = num_sets_allocated p)
    \/ (num_sets_allocated p'
        = wrap32 (num_sets_allocated p + Z.of_nat (length fresh))
        /\ length fresh = (if num_descriptors p =? 0 then 1%nat else 10%nat)
        /\ (num_descriptors p <> 0 ->
            wrap32 (num_sets_allocated p + num_descriptors p)
            <= ZINK_DEFAULT_MAX_DESCS)
        /\ (num_descriptors p = 0 ->
            last_set pg type = None
            \/ exists l zl, last_set pg type = Some l
                            /\ sets st !! l = Some zl /\ zds_hash zl <> 0));
  ge_program : pg_pool pg' = pg_pool pg;
  ge_last_set : last_set pg' type = Some zds;
  ge_last_sets :
    ((forall t, t <> type -> last_set pg' t = last_set pg t)
     /\ (num_descriptors p = 0 ->
         fresh = [] /\ last_set pg type = Some zds))
    \/ (num_descriptors p = 0
        /\ forall t, last_set pg' t
                     = if decide (t = type) then Some zds
                       else if is_null_pool st pg t then Some zds
                       else last_set pg t)
}.

(** ** The invariant of the cache *)

(** What the calls other than a lookup may do to the state: the sets keep
    their pool and their hash, the pools keep their two counters, and a set
    only enters a table or the shell list of the pool it belongs to. *)
Definition frame_step (st st' : zink_state) : Prop :=
  Forall2 (fun z z' => zds_pool z' = zds_pool z /\ zds_hash z' = zds_hash z)
    (sets st) (sets st')
  /\ Forall2 (fun p p' => num_descriptors p' = num_descriptors p
                          /\ num_sets_allocated p' = num_sets_allocated p)
       (pools st) (pools st')
  /\ forall q p p' m,
       pools st !! q = Some p -> pools st' !! q = Some p' ->
       m ∈ pool_members p' ->
       m ∈ pool_members p
       \/ exists z, sets st !! m = Some z /\ zds_pool z = q.

(** The number of sets ever created for pool [q]: the sets that carry the
    pool in their [pool] field. *)
Definition sets_created (st : zink_state) (q : nat) : Z :=
  Z.of_nat (length (filter (fun z => zds_pool z = q) (sets st))).

(** The invariant: the counter of every pool is within the ceiling (a
    multiple of the bucket size for a pool with descriptors, at most one for
    a pool without); the tables, shell lists and shortcuts point at existing
    sets; the sets reachable from a pool with descriptors belong to pools
    with descriptors, the shortcut of a type points at a set of the same
    kind as the pool of the type, the sets of pools without descriptors
    carry hash 0, a pool without descriptors that has allocated its set has
    its shortcut filled, all types without descriptors share their
    shortcut, and the counter of a pool is the number of sets created for
    it. *)
Record cache_inv (ZINK_DEFAULT_MAX_DESCS : Z) (st : zink_state)
    (pg : zink_program) : Prop := CacheInv {
  inv_counters :
    forall q p, pools st !! q = Some p ->
      0 <= num_descriptors p
      /\ num_descriptors p + ZINK_DEFAULT_MAX_DESCS < 2 ^ 32
      /\ 0 <= num_sets_allocated p <= ZINK_DEFAULT_MAX_DESCS
      /\ (num_descriptors p <> 0 -> (10 | num_sets_allocated p))
      /\ (num_descriptors p = 0 -> num_sets_allocated p <= 1);
  inv_members_exist :
    forall q p m, pools st !! q = Some p -> m ∈ pool_members p ->
      (m < length (sets st))%nat;
  inv_last_set_exists :
    forall t l, last_set pg t = Some l -> (l < length (sets st))%nat;
  inv_members_kind :
    forall q p m z, pools st !! q = Some p -> num_descriptors p <> 0 ->
      m ∈ pool_members p -> sets st !! m = Some z -> ~ null_set st z;
  inv_last_set_kind :
    forall t q p l z, pg_pool pg t = Some q -> pools st !! q = Some p ->
      last_set pg t = Some l -> sets st !! l = Some z ->
      (num_descriptors p = 0 <-> null_set st z);
  inv_null_hash :
    forall m z, sets st !! m = Some z -> null_set st z -> zds_hash z = 0;
  inv_null_allocated :
    forall t q p, pg_pool pg t = Some q -> pools st !! q = Some p ->
      num_descriptors p = 0 -> num_sets_allocated p <> 0 ->
      is_Some (last_set pg t);
  inv_null_shared :
    forall t t', is_null_pool st pg t = true ->
                 is_null_pool st pg t' = true ->
                 last_set pg t = last_set pg t';
  inv_created :
    forall q p, pools st !! q = Some p ->
      sets_created st q = num_sets_allocated p
}.

(** ** Sequences of calls *)

(** The calls into the file: a lookup, the release of one set, an
    invalidation, the retirement of the batch, the binding of a resource
    into a slot and the destruction of a resource (given the back-references
    the resource holds). *)
Inductive call :=
| call_get (fuel : nat) (ctx : zink_context) (type : zink_descriptor_type)
    (is_compute : bool)
| call_recycle (zds : nat)
| call_invalidate (zds : nat)
| call_flush
| call_desc_set_add (res : Z) (refs : list zink_descriptor_reference)
    (zds idx : nat)
| call_refs_clear (refs : list zink_descriptor_reference) (ptr : Z).

Section Calls.

Variable ZINK_SHADER_COUNT : nat.
Variable ZINK_DEFAULT_MAX_DESCS : Z.
Variable NDEBUG : bool.
Variable vkAllocateDescriptorSets : zink_state -> nat -> Z -> bool.

Definition run_call (c : call) (s : zink_state * zink_program)
    : result (zink_state * zink_program) :=
  match c with
  | call_get fuel ctx type is_compute =>
      '(st, pg, _, _) ← zink_descriptor_set_get ZINK_SHADER_COUNT
                          ZINK_DEFAULT_MAX_DESCS NDEBUG
                          vkAllocateDescriptorSets fuel s.1 s.2 ctx type
                          is_compute;
      Ok (st, pg)
  | call_recycle zds =>
      st ← zink_descriptor_set_recycle ZINK_SHADER_COUNT s.1 zds;
      Ok (st, s.2)
  | call_invalidate zds => Ok (zink_descriptor_set_invalidate zds s.1, s.2)
  | call_flush =>
      st ← zink_flush_batch ZINK_SHADER_COUNT s.1;
      Ok (st, s.2)
  | call_desc_set_add res refs zds idx =>
      '(st, _) ← zink_resource_desc_set_add s.1 res refs zds idx;
      Ok (st, s.2)
  | call_refs_clear refs ptr =>
      Ok ((zink_descriptor_set_refs_clear s.1 refs ptr).1, s.2)
  end.

Fixpoint run_calls (cs : list call) (s : zink_state * zink_program)
    : result (zink_state * zink_program) :=
  match cs with
  | [] => Ok s
  | c :: cs' => s' ← run_call c s; run_calls cs' s'
  end.

(** A pool as [descriptor_pool_create] leaves it, with a number of
    descriptors that fits an [unsigned] with room for the ceiling. *)
Definition pool_created (p : zink_descriptor_pool) : Prop :=
  desc_sets p = [] /\ free_desc_sets p = [] /\ alloc_desc_sets p = []
  /\ num_sets_allocated p = 0
  /\ 0 <= num_descriptors p
  /\ num_descriptors p + ZINK_DEFAULT_MAX_DESCS < 2 ^ 32.

(** The state of a program whose pools have just been created. *)
Definition initial (st : zink_state) (pg : zink_program) : Prop :=
  sets st = [] /\ Forall pool_created (pools st)
  /\ forall t, last_set pg t = None.

End Calls.

(** ** Pools without descriptors *)

(** [p'] is [p] as far as the tables of a pool without descriptors go: the
    number of descriptors is the same and, when it is zero, so are the
    active and the recycle table. *)
Definition null_kept (p p' : zink_descriptor_pool) : Prop :=
  num_descriptors p' = num_descriptors p
  /\ (num_descriptors p = 0 ->
      desc_sets p' = desc_sets p /\ free_desc_sets p' = free_desc_sets p).


(** ** The reclamation scan *)

(** The test of line 263 for the entry met at position [pos] of the walk
    over the recycle table, [tmp] being the set of the entry: nobody else
    holds the set, and it was invalidated or a hundred entries went by. *)
Definition stealable (pos : nat) (tmp : zink_descriptor_set) : Prop :=
  reference_count tmp = 1 /\ (invalid tmp = true \/ (100 <= pos)%nat).

(** ** A pool at its ceiling *)

Module RetryExample.

(** Under a ceiling of ten sets, ten lookups for ten revisions use up the
    one bucket the pool may create. *)
Definition ten_lookups : result (zink_state * zink_program) :=
  run_calls Mesa.ZINK_SHADER_COUNT 10 false Example.granting
    ((fun s => call_get 1 (Mesa.compute_context s) ZINK_DESCRIPTOR_TYPE_UBO
                 true) <$> [1; 2; 3; 4; 5; 6; 7; 8; 9; 10])
    (Example.one_pool_state 1, Example.one_pool_program).

(** The state after the ten lookups when the batch that holds the ten sets
    is kept by the caller and the current batch is a new, empty one: every
    set is still referenced. *)
Definition pinned : zink_state :=
  match ten_lookups with
  | Ok (st, _) => with_batch (Batch [] 0) st
  | _ => Example.one_pool_state 1
  end.

Definition program : zink_program :=
  match ten_lookups with
  | Ok (_, pg) => pg
  | _ => Example.one_pool_program
  end.

End RetryExample.

(** ** Setting up the pools of a program

    [descriptor_pool_create] and [zink_descriptor_program_init]. *)

(** [VkDescriptorSetLayoutBinding] and [VkDescriptorPoolSize]; a
    [VkDescriptorType] is the number of the enumerator. *)
Record VkDescriptorSetLayoutBinding := LayoutBinding {
  binding : Z;
  descriptorType : nat;
  descriptorCount : Z;
  stageFlags : Z;
  pImmutableSamplers : Z
}.

Record VkDescriptorPoolSize := PoolSize {
  type_ : nat;
  ps_descriptorCount : Z
}.

(** The enumerators of the Vulkan headers that
    [zink_descriptor_program_init] names; the headers are not among the
    sources, so the values are parameters of the model. *)
Record vulkan_constants := VulkanConstants {
  VK_DESCRIPTOR_TYPE_UNIFORM_BUFFER : nat;
  VK_DESCRIPTOR_TYPE_UNIFORM_BUFFER_DYNAMIC : nat;
  VK_DESCRIPTOR_TYPE_UNIFORM_TEXEL_BUFFER : nat;
  VK_DESCRIPTOR_TYPE_COMBINED_IMAGE_SAMPLER : nat;
  VK_DESCRIPTOR_TYPE_STORAGE_BUFFER : nat;
  VK_DESCRIPTOR_TYPE_STORAGE_TEXEL_BUFFER : nat;
  VK_DESCRIPTOR_TYPE_STORAGE_IMAGE : nat;
  VK_SHADER_STAGE_VERTEX_BIT : Z;
  VK_SHADER_STAGE_FRAGMENT_BIT : Z;
  VK_SHADER_STAGE_GEOMETRY_BIT : Z;
  VK_SHADER_STAGE_TESSELLATION_CONTROL_BIT : Z;
  VK_SHADER_STAGE_TESSELLATION_EVALUATION_BIT : Z;
  VK_SHADER_STAGE_COMPUTE_BIT : Z
}.

(** What the function reads of a [struct zink_shader] (declared in
    zink_compiler.h, not among the sources): for each descriptor type [j]
    the entries [bindings[j][0 .. num_bindings[j])], each with its
    [binding], [type] and [size], and the stage of the shader, given here
    as the flags [zink_shader_stage(pipe_shader_type_from_mesa(stage))]
    computes from it. *)
Record zink_shader_binding := ShaderBinding {
  sb_binding : Z;
  sb_type : nat;
  sb_size : Z
}.

Record zink_shader := Shader {
  sh_stage_flags : Z;
  sh_bindings : zink_descriptor_type -> list zink_shader_binding
}.

(** The device behind [struct zink_screen]: whether the host allocations of
    [descriptor_pool_create] (the pool and its two tables) succeed, and
    which layouts and descriptor pools the Vulkan driver agrees to
    create. *)
Record zink_screen := Screen {
  host_alloc : bool;
  vkCreateDescriptorSetLayout : list VkDescriptorSetLayoutBinding -> bool;
  vkCreateDescriptorPool : list VkDescriptorPoolSize -> Z -> bool
}.

(** The local arrays of [zink_descriptor_program_init]:
    [bindings l j] is [bindings[j][0 .. num_bindings[j])], [sizes] has six
    cells and [type_map] twelve. *)
Record init_locals := Locals {
  bindings : zink_descriptor_type -> list VkDescriptorSetLayoutBinding;
  sizes : list VkDescriptorPoolSize;
  type_map : list Z;
  num_types : nat
}.

Definition with_bindings (j : zink_descriptor_type)
    (v : list VkDescriptorSetLayoutBinding) (l : init_locals) :=
  Locals (fun t => if decide (t = j) then v else bindings l t) (sizes l)
         (type_map l) (num_types l).

Definition with_sizes (v : list VkDescriptorPoolSize) (l : init_locals) :=
  Locals (bindings l) v (type_map l) (num_types l).

Definition with_type_map (v : list Z) (l : init_locals) :=
  Locals (bindings l) (sizes l) v (num_types l).

Definition with_num_types (v : nat) (l : init_locals) :=
  Locals (bindings l) (sizes l) (type_map l) v.

Definition set_pg_pool (i : zink_descriptor_type) (q : option nat)
    (pg : zink_program) : zink_program :=
  Program (fun t => if decide (t = i) then q else pg_pool pg t)
          (last_set pg) (num_bindings_typed pg).

(** A loop whose body may fail. *)
Fixpoint for_each {A S : Type} (body : S -> A -> result S) (s : S)
    (l : list A) : result S :=
  match l with
  | [] => Ok s
  | a :: l' => s' ← body s a; for_each body s' l'
  end.

Section ProgramInit.

Variable ZINK_SHADER_COUNT : nat.
Variable PIPE_SHADER_TYPES : nat.
Variable ZINK_DEFAULT_MAX_DESCS : Z.
Variable NDEBUG : bool.
Variable vk : vulkan_constants.

(** [descriptor_pool_create]: the new pool has [num_bindings] descriptors,
    two empty tables and an empty shell list; when an allocation or a Vulkan
    call fails the pool is freed again and the answer is [NULL]. *)
Definition descriptor_pool_create (screen : zink_screen) (st : zink_state)
    (pool_bindings : list VkDescriptorSetLayoutBinding)
    (pool_sizes : list VkDescriptorPoolSize) : zink_state * option nat :=
  if negb (host_alloc screen) then (st, None)
  else if negb (vkCreateDescriptorSetLayout screen pool_bindings)
  then (st, None)
  else if negb (vkCreateDescriptorPool screen pool_sizes
                  ZINK_DEFAULT_MAX_DESCS)
  then (st, None)
  else (with_pools
          (pools st
           ++ [Pool (Z.of_nat (length pool_bindings)) [] [] [] 0]) st,
        Some (length (pools st))).

Definition init_locals_start : init_locals :=
  Locals (fun _ => []) (replicate 6 (PoolSize 0 0)) (replicate 12 (-1)) 0.

(** The body of the loop over [k] (lines 402-413) for the binding [b] of
    type [j] of a shader with stage flags [stage_flags]. *)
Definition init_binding (stage_flags : Z) (j : zink_descriptor_type)
    (l : init_locals) (b : zink_shader_binding) : result init_locals :=
  let n := length (bindings l j) in
  if negb (n <? PIPE_SHADER_TYPES * 32)%nat
  then (if NDEBUG then Crashed else AssertFailed)
  else
    let l := with_bindings j
               (bindings l j
                ++ [LayoutBinding (sb_binding b) (sb_type b) (sb_size b)
                      stage_flags 0]) l in
    m ← deref (type_map l !! sb_type b);
    l ← (if m =? -1 then
           let idx := num_types l in
           let l := with_num_types (S idx)
                      (with_type_map
                         (<[sb_type b := Z.of_nat idx]> (type_map l)) l) in
           s ← deref (sizes l !! idx);
           Ok (with_sizes
                 (<[idx := PoolSize (sb_type b) (ps_descriptorCount s)]>
                    (sizes l)) l)
         else Ok l);
    m ← deref (type_map l !! sb_type b);
    s ← deref (sizes l !! Z.to_nat m);
    Ok (with_sizes
          (<[Z.to_nat m := PoolSize (type_ s)
                             (wrap32 (ps_descriptorCount s + sb_size b))]>
             (sizes l)) l).

(** The body of the loop over the stages (lines 394-416). *)
Definition init_stage (stages : list (option zink_shader))
    (l : init_locals) (i : nat) : result init_locals :=
  shader ← deref (stages !! i);
  match shader with
  | None => Ok l
  | Some sh =>
      for_each
        (fun l j => for_each (init_binding (sh_stage_flags sh) j) l
                      (sh_bindings sh j))
        l ZINK_DESCRIPTOR_TYPES
  end.

(** Lines 425-426. *)
Definition init_scale_sizes (l : init_locals) : init_locals :=
  with_sizes
    (imap (fun i s => if bool_decide (i < num_types l)%nat
                      then PoolSize (type_ s)
                             (wrap32 (ps_descriptorCount s
                                      * ZINK_DEFAULT_MAX_DESCS))
                      else s) (sizes l)) l.

(** [sizes[type_map[t]]] when [type_map[t] != -1]. *)
Definition init_pick_size (l : init_locals) (t : nat)
    : result (list VkDescriptorPoolSize) :=
  m ← deref (type_map l !! t);
  if m =? -1 then Ok []
  else s ← deref (sizes l !! Z.to_nat m); Ok [s].

(** The [switch] of lines 451-487: the array [type_sizes] up to
    [num_type_sizes]. *)
Definition init_type_sizes (l : init_locals) (i : zink_descriptor_type)
    : result (list VkDescriptorPoolSize) :=
  match i with
  | ZINK_DESCRIPTOR_TYPE_UBO =>
      a ← init_pick_size l (VK_DESCRIPTOR_TYPE_UNIFORM_BUFFER vk);
      b ← init_pick_size l (VK_DESCRIPTOR_TYPE_UNIFORM_BUFFER_DYNAMIC vk);
      Ok (a ++ b)
  | ZINK_DESCRIPTOR_TYPE_SAMPLER_VIEW =>
      a ← init_pick_size l (VK_DESCRIPTOR_TYPE_UNIFORM_TEXEL_BUFFER vk);
      b ← init_pick_size l (VK_DESCRIPTOR_TYPE_COMBINED_IMAGE_SAMPLER vk);
      Ok (a ++ b)
  | ZINK_DESCRIPTOR_TYPE_SSBO =>
      init_pick_size l (VK_DESCRIPTOR_TYPE_STORAGE_BUFFER vk)
  | ZINK_DESCRIPTOR_TYPE_IMAGE =>
      a ← init_pick_size l (VK_DESCRIPTOR_TYPE_STORAGE_TEXEL_BUFFER vk);
      b ← init_pick_size l (VK_DESCRIPTOR_TYPE_STORAGE_IMAGE vk);
      Ok (a ++ b)
  end.

(** The binding and the pool size of a type without bindings (lines
    433-441). *)
Definition null_binding : VkDescriptorSetLayoutBinding :=
  LayoutBinding 1 (VK_DESCRIPTOR_TYPE_UNIFORM_BUFFER vk) 1
    (Z.lor (VK_SHADER_STAGE_VERTEX_BIT vk)
       (Z.lor (VK_SHADER_STAGE_FRAGMENT_BIT vk)
          (Z.lor (VK_SHADER_STAGE_GEOMETRY_BIT vk)
             (Z.lor (VK_SHADER_STAGE_TESSELLATION_CONTROL_BIT vk)
                (Z.lor (VK_SHADER_STAGE_TESSELLATION_EVALUATION_BIT vk)
                   (VK_SHADER_STAGE_COMPUTE_BIT vk))))))
    0.

Definition null_size : VkDescriptorPoolSize :=
  PoolSize (VK_DESCRIPTOR_TYPE_UNIFORM_BUFFER vk) ZINK_DEFAULT_MAX_DESCS.

(** The loop of lines 429-491 over the types still to do, highest type
    first; the answer carries the value returned, [false] as soon as a pool
    cannot be created. *)
Fixpoint init_pools (screen : zink_screen) (l : init_locals)
    (types : list zink_descriptor_type) (found_descriptors : bool)
    (st : zink_state) (pg : zink_program)
    : result (zink_state * zink_program * bool) :=
  match types with
  | [] => Ok (st, pg, true)
  | i :: types' =>
      if (length (bindings l i) =? 0)%nat then
        if negb found_descriptors
        then init_pools screen l types' found_descriptors st pg
        else
          let '(st, q) :=
            descriptor_pool_create screen st [null_binding] [null_size] in
          let pg := set_pg_pool i q pg in
          match q with
          | None => Ok (st, pg, false)
          | Some _ => init_pools screen l types' found_descriptors st pg
          end
      else
        type_sizes ← init_type_sizes l i;
        let '(st, q) :=
          descriptor_pool_create screen st (bindings l i) type_sizes in
        let pg := set_pg_pool i q pg in
        match q with
        | None => Ok (st, pg, false)
        | Some _ => init_pools screen l types' true st pg
        end
  end.

(** [zink_descriptor_program_init]. *)
Definition zink_descriptor_program_init (screen : zink_screen)
    (st : zink_state) (stages : list (option zink_shader))
    (pg : zink_program) : result (zink_state * zink_program * bool) :=
  l ← for_each (init_stage stages) init_locals_start
        (seq 0 ZINK_SHADER_COUNT);
  let total_descs :=
    foldl (fun total i => wrap32 (total + Z.of_nat (length (bindings l i))))
      0 ZINK_DESCRIPTOR_TYPES in
  if total_descs =? 0 then Ok (st, pg, true)
  else init_pools screen (init_scale_sizes l)
         (reverse ZINK_DESCRIPTOR_TYPES) false st pg.

End ProgramInit.

(** *** What the statements about the set-up refer to *)

(** The layout bindings a shader contributes for type [j], and the ones of
    all the stages the function looks at, in stage order. *)
Definition shader_layout_bindings (sh : zink_shader)
    (j : zink_descriptor_type) : list VkDescriptorSetLayoutBinding :=
  (fun b => LayoutBinding (sb_binding b) (sb_type b) (sb_size b)
              (sh_stage_flags sh) 0) <$> sh_bindings sh j.

Definition stage_layout_bindings (shader : option zink_shader)
    (j : zink_descriptor_type) : list VkDescriptorSetLayoutBinding :=
  match shader with
  | Some sh => shader_layout_bindings sh j
  | None => []
  end.

Definition program_layout_bindings (ZINK_SHADER_COUNT : nat)
    (stages : list (option zink_shader)) (j : zink_descriptor_type)
    : list VkDescriptorSetLayoutBinding :=
  concat ((fun shader => stage_layout_bindings shader j)
            <$> take ZINK_SHADER_COUNT stages).

(** The value of the enumerator. *)
Definition type_index (t : zink_descriptor_type) : nat :=
  match t with
  | ZINK_DESCRIPTOR_TYPE_UBO => 0
  | ZINK_DESCRIPTOR_TYPE_SAMPLER_VIEW => 1
  | ZINK_DESCRIPTOR_TYPE_SSBO => 2
  | ZINK_DESCRIPTOR_TYPE_IMAGE => 3
  end.

(** Some type from [i] upwards has a binding. *)
Definition used_from (ZINK_SHADER_COUNT : nat)
    (stages : list (option zink_shader)) (i : zink_descriptor_type) : bool :=
  existsb (fun j => (type_index i <=? type_index j)%nat
                    && negb (length (program_layout_bindings
                                       ZINK_SHADER_COUNT stages j) =? 0)%nat)
    ZINK_DESCRIPTOR_TYPES.

(** The bindings the three nested loops of lines 394-416 go through, in
    the order they meet them: for each stage, for each type, the bindings of
    the shader, each with the stage flags of its shader and its type. *)
Definition stage_bindings_flat (shader : option zink_shader)
    : list (Z * zink_descriptor_type * zink_shader_binding) :=
  match shader with
  | Some sh =>
      concat ((fun j => (fun b => (sh_stage_flags sh, j, b))
                          <$> sh_bindings sh j)
                <$> ZINK_DESCRIPTOR_TYPES)
  | None => []
  end.

Definition program_bindings_flat (ZINK_SHADER_COUNT : nat)
    (stages : list (option zink_shader))
    : list (Z * zink_descriptor_type * zink_shader_binding) :=
  concat (stage_bindings_flat <$> take ZINK_SHADER_COUNT stages).

(** The Vulkan types of these bindings, and the types met for the first
    time, in the order they are met, after the types [seen]. *)
Definition binding_types
    (flat : list (Z * zink_descriptor_type * zink_shader_binding))
    : list nat :=
  (fun e => sb_type e.2) <$> flat.

Fixpoint first_occurrences (seen : list nat) (ts : list nat) : list nat :=
  match ts with
  | [] => seen
  | t :: ts' =>
      first_occurrences (if bool_decide (t ∈ seen) then seen
                         else seen ++ [t]) ts'
  end.

(** The sum, as an [uint32_t], of the sizes of the bindings of Vulkan type
    [t], from [c] on. *)
Definition descriptor_count (c : Z)
    (flat : list (Z * zink_descriptor_type * zink_shader_binding))
    (t : nat) : Z :=
  foldl (fun c e => if decide (sb_type e.2 = t)
                    then wrap32 (c + sb_size e.2) else c) c flat.

(** The bindings of descriptor type [j] among them. *)
Definition bindings_of_type (j : zink_descriptor_type)
    (flat : list (Z * zink_descriptor_type * zink_shader_binding))
    : list (Z * zink_descriptor_type * zink_shader_binding) :=
  filter (fun e => e.1.2 = j) flat.

(** What the local arrays hold once the loops have gone through the
    bindings [done]: the twelve cells of [type_map] give, for a Vulkan type
    met, its rank among the types met (and -1 for the others), the six cells
    of [sizes] give, at that rank, the type and the sum of the sizes of its
    bindings, and [bindings[j]] holds the bindings of descriptor type
    [j]. *)
Definition init_inv (l : init_locals)
    (done : list (Z * zink_descriptor_type * zink_shader_binding)) : Prop :=
  let seen := first_occurrences [] (binding_types done) in
  length (type_map l) = 12%nat /\ length (sizes l) = 6%nat
  /\ num_types l = length seen /\ (length seen <= 6)%nat
  /\ (forall j,
        bindings l j
        = (fun e => LayoutBinding (sb_binding e.2) (sb_type e.2)
                      (sb_size e.2) e.1.1 0) <$> bindings_of_type j done)
  /\ (forall k t, seen !! k = Some t ->
        (t < 12)%nat /\ type_map l !! t = Some (Z.of_nat k)
        /\ sizes l !! k = Some (PoolSize t (descriptor_count 0 done t)))
  /\ (forall t, (t < 12)%nat -> t ∉ seen -> type_map l !! t = Some (-1))
  /\ (forall k, (length seen <= k < 6)%nat ->
        sizes l !! k = Some (PoolSize 0 0)).

(** The pool sizes a descriptor pool is to be created with: for each
    Vulkan type the [switch] names for descriptor type [i] that some binding
    of the program has, the type with the ceiling times the sum of the sizes
    of all the bindings of that Vulkan type. *)
Definition expected_pool_size (ZINK_DEFAULT_MAX_DESCS : Z)
    (flat : list (Z * zink_descriptor_type * zink_shader_binding))
    (t : nat) : list VkDescriptorPoolSize :=
  if bool_decide (t ∈ binding_types flat)
  then [PoolSize t (wrap32 (descriptor_count 0 flat t
                            * ZINK_DEFAULT_MAX_DESCS))]
  else [].

Definition expected_type_sizes (vk : vulkan_constants)
    (ZINK_DEFAULT_MAX_DESCS : Z)
    (flat : list (Z * zink_descriptor_type * zink_shader_binding))
    (i : zink_descriptor_type) : list VkDescriptorPoolSize :=
  let size := expected_pool_size ZINK_DEFAULT_MAX_DESCS flat in
  match i with
  | ZINK_DESCRIPTOR_TYPE_UBO =>
      size (VK_DESCRIPTOR_TYPE_UNIFORM_BUFFER vk)
      ++ size (VK_DESCRIPTOR_TYPE_UNIFORM_BUFFER_DYNAMIC vk)
  | ZINK_DESCRIPTOR_TYPE_SAMPLER_VIEW =>
      size (VK_DESCRIPTOR_TYPE_UNIFORM_TEXEL_BUFFER vk)
      ++ size (VK_DESCRIPTOR_TYPE_COMBINED_IMAGE_SAMPLER vk)
  | ZINK_DESCRIPTOR_TYPE_SSBO =>
      size (VK_DESCRIPTOR_TYPE_STORAGE_BUFFER vk)
  | ZINK_DESCRIPTOR_TYPE_IMAGE =>
      size (VK_DESCRIPTOR_TYPE_STORAGE_TEXEL_BUFFER vk)
      ++ size (VK_DESCRIPTOR_TYPE_STORAGE_IMAGE vk)
  end.

(** The body of the three loops on one binding of the flat list. *)
Definition init_flat_binding (PIPE_SHADER_TYPES : nat) (NDEBUG : bool)
    (l : init_locals) (e : Z * zink_descriptor_type * zink_shader_binding)
    : result init_locals :=
  init_binding PIPE_SHADER_TYPES NDEBUG e.1.1 e.1.2 l e.2.

(** The seven Vulkan types the [switch] names are indices of
    [type_map]. *)
Definition type_map_covers (vk : vulkan_constants) : Prop :=
  (VK_DESCRIPTOR_TYPE_UNIFORM_BUFFER vk < 12)%nat
  /\ (VK_DESCRIPTOR_TYPE_UNIFORM_BUFFER_DYNAMIC vk < 12)%nat
  /\ (VK_DESCRIPTOR_TYPE_UNIFORM_TEXEL_BUFFER vk < 12)%nat
  /\ (VK_DESCRIPTOR_TYPE_COMBINED_IMAGE_SAMPLER vk < 12)%nat
  /\ (VK_DESCRIPTOR_TYPE_STORAGE_BUFFER vk < 12)%nat
  /\ (VK_DESCRIPTOR_TYPE_STORAGE_TEXEL_BUFFER vk < 12)%nat
  /\ (VK_DESCRIPTOR_TYPE_STORAGE_IMAGE vk < 12)%nat.

(** The pools the loop of lines 429-491 is to create when every creation
    succeeds: for each type of [types] in turn, none while no type with
    bindings has been met, then one of [n i] descriptors, or of one
    descriptor when the type has no binding. *)
Fixpoint pools_plan (n : zink_descriptor_type -> nat)
    (types : list zink_descriptor_type) (found_descriptors : bool)
    : list (zink_descriptor_type * nat) :=
  match types with
  | [] => []
  | i :: types' =>
      if (n i =? 0)%nat then
        if found_descriptors
        then (i, 1%nat) :: pools_plan n types' found_descriptors
        else pools_plan n types' found_descriptors
      else (i, n i) :: pools_plan n types' true
  end.

(** The pool of type [t] when the pools of [plan] are created from index
    [k] on; a later entry for the type wins. *)
Fixpoint plan_index (t : zink_descriptor_type)
    (plan : list (zink_descriptor_type * nat)) (k : nat) : option nat :=
  match plan with
  | [] => None
  | (i, _) :: plan' =>
      match plan_index t plan' (S k) with
      | Some q => Some q
      | None => if decide (i = t) then Some k else None
      end
  end.

(** The values of the Vulkan and gallium headers, for the examples. *)
Module Vulkan.
Definition constants : vulkan_constants :=
  VulkanConstants 6 8 4 1 7 5 3 1 16 8 2 4 32.
Definition PIPE_SHADER_TYPES : nat := 6.

(** A device on which everything succeeds. *)
Definition screen : zink_screen := Screen true (fun _ => true) (fun _ _ => true).

(** A device that only creates descriptor pools of five thousand sets
    whose sizes are for ten thousand descriptors each, or for five thousand
    uniform buffers. *)
Definition strict_screen : zink_screen :=
  Screen true (fun _ => true)
    (fun pool_sizes max_sets =>
       (max_sets =? 5000)
       && forallb (fun s => (ps_descriptorCount s =? 10000)
                            || ((type_ s =? 6)%nat
                                && (ps_descriptorCount s =? 5000)))
            pool_sizes).

Definition zink_descriptor_program_init :=
  zink_descriptor_program_init Mesa.ZINK_SHADER_COUNT PIPE_SHADER_TYPES
    Mesa.ZINK_DEFAULT_MAX_DESCS false constants.

(** A program yet without pools. *)
Definition new_program : zink_program :=
  Program (fun _ => None) (fun _ => None) (fun _ _ => 0).

Definition empty_state : zink_state := State [] [] [] (Batch [] 0).

(** A vertex shader with one uniform buffer and a fragment shader with one
    uniform buffer and two storage buffers; the other stages are absent. *)
Definition vertex_shader : zink_shader :=
  Shader 1 (fun j => match j with
                     | ZINK_DESCRIPTOR_TYPE_UBO => [ShaderBinding 0 6 1]
                     | _ => []
                     end).

Definition fragment_shader : zink_shader :=
  Shader 16 (fun j => match j with
                      | ZINK_DESCRIPTOR_TYPE_UBO => [ShaderBinding 1 6 1]
                      | ZINK_DESCRIPTOR_TYPE_SSBO =>
                          [ShaderBinding 2 7 1; ShaderBinding 3 7 1]
                      | _ => []
                      end).

Definition stages : list (option zink_shader) :=
  [Some vertex_shader; Some fragment_shader; None; None; None].

(** A shader with a binding of each of the seven Vulkan types the [switch]
    of [zink_descriptor_program_init] knows. *)
Definition seven_types : zink_shader :=
  Shader 1 (fun j => match j with
                     | ZINK_DESCRIPTOR_TYPE_UBO =>
                         [ShaderBinding 0 6 1; ShaderBinding 1 8 1]
                     | ZINK_DESCRIPTOR_TYPE_SAMPLER_VIEW =>
                         [ShaderBinding 2 4 1; ShaderBinding 3 1 1]
                     | ZINK_DESCRIPTOR_TYPE_SSBO => [ShaderBinding 4 7 1]
                     | ZINK_DESCRIPTOR_TYPE_IMAGE =>
                         [ShaderBinding 5 5 1; ShaderBinding 6 3 1]
                     end).
End Vulkan.

(** * Properties *)

(** ** The key: equality and hash *)

Section FingerprintFacts.

Variable ZINK_SHADER_COUNT : nat.
Variable PIPE_SHADER_FRAGMENT : nat.
Variable XXH32 : Z -> Z -> Z.

Abbreviation equal := (desc_state_equal ZINK_SHADER_COUNT).
Abbreviation hash_of := (desc_state_hash ZINK_SHADER_COUNT PIPE_SHADER_FRAGMENT XXH32).

(** What [desc_state_equal] decides. *)
Lemma desc_state_equal_loop_spec todo i a b :
  desc_state_equal_loop todo i a b = true <->
  forall j, (i <= j < i + todo)%nat ->
    key_exists a j = key_exists b j /\
    (key_exists a j = true -> key_state a j = key_state b j).
Proof.
  revert i. induction todo as [|todo IH]; intros i; simpl.
  - split; [intros _ j Hj; lia | done].
  - destruct (eqb (key_exists a i) (key_exists b i)) eqn:He; simpl.
    + apply eqb_prop in He.
      destruct (key_exists a i && key_exists b i
                && negb (key_state a i =? key_state b i)) eqn:Hs.
      * split; [done|]. intros H. destruct (H i ltac:(lia)) as [_ Hst].
        rewrite <- He in Hs. destruct (key_exists a i); [|done].
        rewrite (Hst eq_refl), Z.eqb_refl in Hs. done.
      * rewrite IH. split.
        -- intros H j Hj. destruct (decide (j = i)) as [->|Hne].
           ++ split; [done|]. intros Ha. rewrite <- He, Ha in Hs.
              simpl in Hs. apply negb_false_iff in Hs. lia.
           ++ apply H. lia.
        -- intros H j Hj. apply H. lia.
    + split; [done|]. intros H. destruct (H i ltac:(lia)) as [Hex _].
      rewrite Hex, eqb_reflx in He. done.
Qed.

Lemma desc_state_equal_spec a b :
  equal a b = true <->
  forall j, (j < ZINK_SHADER_COUNT)%nat ->
    key_exists a j = key_exists b j /\
    (key_exists a j = true -> key_state a j = key_state b j).
Proof.
  unfold desc_state_equal. rewrite desc_state_equal_loop_spec.
  split; intros H j Hj; apply H; lia.
Qed.

Lemma desc_state_equal_refl a : equal a a = true.
Proof. apply desc_state_equal_spec. done. Qed.

Lemma desc_state_equal_sym a b : equal a b = true -> equal b a = true.
Proof.
  rewrite !desc_state_equal_spec. intros H j Hj.
  destruct (H j Hj) as [He Hs]. split; [done|].
  intros Hb. symmetry. apply Hs. congruence.
Qed.

Lemma desc_state_equal_trans a b c :
  equal a b = true -> equal b c = true -> equal a c = true.
Proof.
  rewrite !desc_state_equal_spec. intros H1 H2 j Hj.
  destruct (H1 j Hj) as [He1 Hs1], (H2 j Hj) as [He2 Hs2].
  split; [congruence|]. intros Ha.
  rewrite (Hs1 Ha). apply Hs2. congruence.
Qed.

(** The loop of [desc_state_hash] folds [XXH32] over the revision numbers
    of the present stages, in stage order, each result seeding the next
    call. *)
Lemma desc_state_hash_loop_fold todo i k h :
  desc_state_hash_loop XXH32 todo i k h
  = foldl (fun h s => XXH32 s h) h (present_states todo i k).
Proof.
  revert i h. induction todo as [|todo IH]; intros i h; simpl; [done|].
  rewrite IH, foldl_app. by destruct (key_exists k i).
Qed.

Lemma present_states_equal todo i a b :
  (forall j, (i <= j < i + todo)%nat ->
     key_exists a j = key_exists b j /\
     (key_exists a j = true -> key_state a j = key_state b j)) ->
  present_states todo i a = present_states todo i b.
Proof.
  revert i. induction todo as [|todo IH]; intros i H; simpl; [done|].
  destruct (H i ltac:(lia)) as [He Hs]. rewrite <- He.
  rewrite (IH (S i)) by (intros j Hj; apply H; lia).
  destruct (key_exists a i); [|done]. by rewrite Hs.
Qed.

(** Where the hash does agree with the equality: keys that compare equal
    and have the fragment stage or stage 0 present. *)
Lemma desc_state_hash_equal_keys a b :
  (PIPE_SHADER_FRAGMENT < ZINK_SHADER_COUNT)%nat ->
  equal a b = true ->
  key_exists a PIPE_SHADER_FRAGMENT = true \/ key_exists a 0 = true ->
  hash_of a = hash_of b.
Proof.
  intros Hf Heq Hp. rewrite desc_state_equal_spec in Heq.
  unfold desc_state_hash.
  destruct (Heq _ Hf) as [<- _].
  destruct (key_exists a PIPE_SHADER_FRAGMENT) eqn:Hfrag; simpl.
  - rewrite !desc_state_hash_loop_fold. f_equal.
    apply present_states_equal. intros j Hj. apply Heq. lia.
  - destruct Hp as [|H0]; [done|].
    apply (Heq 0%nat); [lia|done].
Qed.

End FingerprintFacts.

(** C10 (the code departs from the claim).  Two keys built by
    [populate_zds_key] from graphics contexts in which only the geometry
    stage is present: the contexts differ in the stale revision number of the
    absent stage 0 only, so [desc_state_equal] holds, and [desc_state_hash]
    returns the two different stale numbers. *)
Theorem desc_state_hash_not_consistent_with_equal :
  let a := Mesa.populate_zds_key
             (Mesa.gfx_context 0 [false; false; true] [1; 0; 7])
             ZINK_DESCRIPTOR_TYPE_UBO false (Key [] []) in
  let b := Mesa.populate_zds_key
             (Mesa.gfx_context 0 [false; false; true] [2; 0; 7])
             ZINK_DESCRIPTOR_TYPE_UBO false (Key [] []) in
  Mesa.desc_state_equal a b = true
  /\ Mesa.desc_state_hash a = 1 /\ Mesa.desc_state_hash b = 2.
Proof. vm_compute. done. Qed.

(** C6, the claim as stated fails: two keys with the same present stages
    (vertex and fragment) and the revision numbers 1 and 2 exchanged between
    them hash differently. *)
Lemma desc_state_hash_order_dependent :
  let a := Key [true; true; false; false; false] [1; 2; 0; 0; 0] in
  let b := Key [true; true; false; false; false] [2; 1; 0; 0; 0] in
  exists_ a = exists_ b
  /\ present_states Mesa.ZINK_SHADER_COUNT 0 a
     ≡ₚ present_states Mesa.ZINK_SHADER_COUNT 0 b
  /\ Mesa.desc_state_hash a <> Mesa.desc_state_hash b.
Proof.
  split; [done|]. split; [apply Permutation_swap|].
  vm_compute. discriminate.
Qed.

(** C6, amended: the key of a compute fingerprint hashes to the bare
    revision number, and the hash of a key with the fragment stage present
    is the fold of [XXH32] over the revision numbers of the present stages
    taken in stage order, so that it agrees on keys with the same sequence
    of present revision numbers. *)
Theorem desc_state_hash_sequence
    (ZINK_SHADER_COUNT PIPE_SHADER_FRAGMENT : nat) (XXH32 : Z -> Z -> Z) :
  (0 < ZINK_SHADER_COUNT)%nat ->
  PIPE_SHADER_FRAGMENT <> 0%nat ->
  (forall ctx type k,
     desc_state_hash ZINK_SHADER_COUNT PIPE_SHADER_FRAGMENT XXH32
       (populate_zds_key ZINK_SHADER_COUNT ctx type true k)
     = descriptor_states ctx true type)
  /\ (forall k,
        key_exists k PIPE_SHADER_FRAGMENT = true ->
        desc_state_hash ZINK_SHADER_COUNT PIPE_SHADER_FRAGMENT XXH32 k
        = foldl (fun h s => XXH32 s h) 0
            (present_states ZINK_SHADER_COUNT 0 k))
  /\ (forall a b,
        key_exists a PIPE_SHADER_FRAGMENT = true ->
        key_exists b PIPE_SHADER_FRAGMENT = true ->
        present_states ZINK_SHADER_COUNT 0 a
        = present_states ZINK_SHADER_COUNT 0 b ->
        desc_state_hash ZINK_SHADER_COUNT PIPE_SHADER_FRAGMENT XXH32 a
        = desc_state_hash ZINK_SHADER_COUNT PIPE_SHADER_FRAGMENT XXH32 b).
Proof.
  intros Hcount Hfrag.
  assert (Hfold : forall k,
    key_exists k PIPE_SHADER_FRAGMENT = true ->
    desc_state_hash ZINK_SHADER_COUNT PIPE_SHADER_FRAGMENT XXH32 k
    = foldl (fun h s => XXH32 s h) 0 (present_states ZINK_SHADER_COUNT 0 k)).
  { intros k Hk. unfold desc_state_hash. rewrite Hk. simpl.
    apply desc_state_hash_loop_fold. }
  split; [|split; [exact Hfold|]].
  - intros ctx type k. unfold desc_state_hash, populate_zds_key.
    destruct ZINK_SHADER_COUNT as [|n]; [lia|].
    assert (Hex : key_exists
              (Key ((fun i => bool_decide (i = 0%nat)) <$> seq 0 (S n))
                   ((fun i => if decide (i = 0%nat)
                              then descriptor_states ctx true type
                              else key_state k i) <$> seq 0 (S n)))
              PIPE_SHADER_FRAGMENT = false).
    { unfold key_exists. cbn [exists_]. rewrite list_lookup_fmap.
      destruct (seq 0 (S n) !! PIPE_SHADER_FRAGMENT) as [j|] eqn:Hj;
        [|done].
      apply lookup_seq in Hj as [-> _]. simpl.
      by rewrite bool_decide_eq_false_2. }
    rewrite Hex. done.
  - intros a b Ha Hb Hp. by rewrite !Hfold, Hp.
Qed.

Lemma desc_state_hash_sequence_witness :
  Mesa.desc_state_hash
    (Mesa.populate_zds_key (Mesa.compute_context 42)
       ZINK_DESCRIPTOR_TYPE_SSBO true (Key [] []))
  = 42.
Proof.
  apply (desc_state_hash_sequence 5 1 XXH32_word); [lia | lia].
Defined.

(** ** The bucket size of [allocate_desc_set] *)

Lemma desc_bucket_size_null descs_used :
  desc_bucket_size 0 descs_used = Some 1.
Proof. done. Qed.

Local Ltac bucket_exit k :=
  exists k;
  let p := eval vm_compute in (10 ^ k) in
  let q := eval vm_compute in (10 ^ (k + 1)) in
  change (10 ^ k) with p; change (10 ^ (k + 1)) with q;
  split; [lia|]; split; [reflexivity|]; split; lia.

(** For a pool with descriptors the loop leaves ten for a target of at most
    ten and otherwise the largest power of ten strictly below the target. *)
Lemma desc_bucket_size_value nd N :
  nd <> 0 -> 0 <= N <= 10 ^ 9 ->
  exists k : Z,
    1 <= k <= 9
    /\ desc_bucket_size nd N = Some (10 ^ k)
    /\ (N <= 10 -> k = 1)
    /\ (10 < N -> 10 ^ k < N <= 10 ^ (k + 1)).
Proof.
  intros Hnd HN. unfold desc_bucket_size.
  rewrite (proj2 (Z.eqb_neq nd 0) Hnd).
  unfold DESC_BUCKET_FACTOR.
  repeat match goal with
  | |- context [bucket_size_loop (S ?f) ?d N ?b] =>
      let d' := eval vm_compute in (wrap32 (d * 10)) in
      change (bucket_size_loop (S f) d N b)
        with (if d <? N then bucket_size_loop f d' N d else Some b);
      destruct (Z.ltb_spec d N)
  end.
  all: try (exfalso; lia).
  all: first [ bucket_exit 1 | bucket_exit 2 | bucket_exit 3 | bucket_exit 4
             | bucket_exit 5 | bucket_exit 6 | bucket_exit 7 | bucket_exit 8
             | bucket_exit 9 ].
Qed.

(** The only call of [allocate_desc_set] passes [descs_used = 1]. *)
Lemma desc_bucket_size_one nd :
  desc_bucket_size nd 1 = Some (if nd =? 0 then 1 else 10).
Proof. unfold desc_bucket_size. by destruct (nd =? 0). Qed.

(** What [allocate_desc_set] does to the state, given the bucket size,
    when the device grants the sets. *)
Lemma allocate_desc_set_bucket vkAllocateDescriptorSets st pg type N
    is_compute pool p b :
  pg_pool pg type = Some pool ->
  pools st !! pool = Some p ->
  desc_bucket_size (num_descriptors p) N = Some b ->
  vkAllocateDescriptorSets st pool b = true ->
  exists st',
    allocate_desc_set vkAllocateDescriptorSets st pg type N is_compute
    = Ok (st', Some (length (sets st)))
    /\ sets st'
       = sets st
         ++ (fresh_desc_set pool type (num_bindings_typed pg type is_compute)
               (num_descriptors p) (length (slots st))
               (length (slots st)
                + Z.to_nat (wrap32 (num_bindings_typed pg type is_compute
                                    * b)))
             <$> seq 0 (Z.to_nat b))
    /\ batch st' = batch st
    /\ pools st'
       = <[pool := Pool (num_descriptors p) (desc_sets p) (free_desc_sets p)
                     (alloc_desc_sets p
                      ++ seq (S (length (sets st))) (Z.to_nat b - 1))
                     (wrap32 (num_sets_allocated p + b))]> (pools st).
Proof.
  intros Hpg Hp Hb Hvk. unfold allocate_desc_set.
  rewrite Hpg. cbn [deref mbind result_mbind result_bind].
  rewrite Hp. cbn [deref mbind result_mbind result_bind].
  rewrite Hb. cbn [mbind result_mbind result_bind].
  rewrite Hvk. cbn [negb].
  eexists. split; [reflexivity|].
  cbn [sets pools batch update_pool with_pools with_sets with_slots].
  split_and!; try done.
  apply list_eq. intros q. destruct (decide (q = pool)) as [->|Hq].
  - rewrite list_lookup_alter_eq, Hp, list_lookup_insert_eq; [done|].
    by eapply lookup_lt_Some.
  - by rewrite list_lookup_alter_ne, list_lookup_insert_ne.
Qed.

(** When the device refuses the sets, [allocate_desc_set] returns the null
    handle of line 145 and has changed nothing. *)
Lemma allocate_desc_set_refused vkAllocateDescriptorSets st pg type N
    is_compute pool p b :
  pg_pool pg type = Some pool ->
  pools st !! pool = Some p ->
  desc_bucket_size (num_descriptors p) N = Some b ->
  vkAllocateDescriptorSets st pool b = false ->
  allocate_desc_set vkAllocateDescriptorSets st pg type N is_compute
  = Ok (st, None).
Proof.
  intros Hpg Hp Hb Hvk. unfold allocate_desc_set.
  rewrite Hpg. cbn [deref mbind result_mbind result_bind].
  rewrite Hp. cbn [deref mbind result_mbind result_bind].
  rewrite Hb. cbn [mbind result_mbind result_bind].
  by rewrite Hvk.
Qed.

(** What a call for one set that returned a set has done. *)
Lemma allocate_desc_set_Some vkAllocateDescriptorSets st pg type is_compute
    pool p st1 zds :
  pg_pool pg type = Some pool ->
  pools st !! pool = Some p ->
  allocate_desc_set vkAllocateDescriptorSets st pg type 1 is_compute
  = Ok (st1, Some zds) ->
  let b := if num_descriptors p =? 0 then 1 else 10 in
  vkAllocateDescriptorSets st pool b = true
  /\ zds = length (sets st)
  /\ sets st1
     = sets st
       ++ (fresh_desc_set pool type (num_bindings_typed pg type is_compute)
             (num_descriptors p) (length (slots st))
             (length (slots st)
              + Z.to_nat (wrap32 (num_bindings_typed pg type is_compute
                                  * b)))
           <$> seq 0 (Z.to_nat b))
  /\ batch st1 = batch st
  /\ pools st1
     = <[pool := Pool (num_descriptors p) (desc_sets p) (free_desc_sets p)
                   (alloc_desc_sets p
                    ++ seq (S (length (sets st))) (Z.to_nat b - 1))
                   (wrap32 (num_sets_allocated p + b))]> (pools st).
Proof.
  intros Hpg Hp Ha b.
  pose proof (desc_bucket_size_one (num_descriptors p)) as Hb.
  fold b in Hb.
  destruct (vkAllocateDescriptorSets st pool b) eqn:Hvk.
  - destruct (allocate_desc_set_bucket vkAllocateDescriptorSets st pg type
                1 is_compute pool p b Hpg Hp Hb Hvk)
      as (st' & Ha' & Hs & Hbt & Hps).
    rewrite Ha' in Ha. injection Ha as <- <-. done.
  - by rewrite (allocate_desc_set_refused _ st pg type 1 is_compute pool p b
                  Hpg Hp Hb Hvk) in Ha.
Qed.

(** C5, the claim as stated fails at the target the file passes: the only
    call of [allocate_desc_set] has a target of one set, for which the
    smallest power of ten that is large enough is 10^0 = 1, and for a pool
    with one descriptor the loop leaves a bucket of ten.  The first lookup
    of a program asks the device for ten sets: on a device that grants one
    set per call and no more the lookup ends in the write through the null
    handle, and on a device that grants ten sets per call it creates ten
    sets. *)
Lemma first_lookup_asks_for_ten_sets :
  let p := Pool 1 [] [] [] 0 in
  let get vkAllocateDescriptorSets :=
    zink_descriptor_set_get Mesa.ZINK_SHADER_COUNT
      Mesa.ZINK_DEFAULT_MAX_DESCS false vkAllocateDescriptorSets 1
      (Example.one_pool_state 1) Example.one_pool_program
      (Mesa.compute_context 7) ZINK_DESCRIPTOR_TYPE_UBO true in
  spec_bucket_size Mesa.ZINK_DEFAULT_MAX_DESCS p 1 = 1
  /\ desc_bucket_size (num_descriptors p) 1 = Some 10
  /\ get (fun _ _ n => n =? 1) = Crashed
  /\ exists st' pg',
       get (fun _ _ n => n =? 10) = Ok (st', pg', 0%nat, false)
       /\ length (sets st') = 10%nat
       /\ num_sets_allocated <$> pools st' !! 0%nat = Some 10.
Proof.
  split; [reflexivity|]. split; [reflexivity|].
  split; [vm_compute; reflexivity|].
  eexists _, _. split; [vm_compute; reflexivity|]. split; reflexivity.
Qed.

(** C5, amended: the bucket size is 1 for a pool without descriptors;
    for a pool with descriptors it is ten when the target is at most ten and
    otherwise the largest power of ten strictly below the target (targets up
    to 10^9).  The size is not clamped to the headroom the ceiling leaves:
    when the device grants the sets the whole bucket is created and added to
    the counter of the pool, and when it refuses them nothing is created
    and the null handle is returned. *)
Theorem allocate_desc_set_bucket_size vkAllocateDescriptorSets st pg type N
    is_compute pool p :
  pg_pool pg type = Some pool ->
  pools st !! pool = Some p ->
  0 <= N <= 10 ^ 9 ->
  exists b : Z,
    desc_bucket_size (num_descriptors p) N = Some b
    /\ (num_descriptors p = 0 -> b = 1)
    /\ (num_descriptors p <> 0 ->
        exists k, 1 <= k <= 9 /\ b = 10 ^ k
                  /\ (N <= 10 -> k = 1)
                  /\ (10 < N -> 10 ^ k < N <= 10 ^ (k + 1)))
    /\ (vkAllocateDescriptorSets st pool b = true ->
        exists st',
          allocate_desc_set vkAllocateDescriptorSets st pg type N is_compute
          = Ok (st', Some (length (sets st)))
          /\ length (sets st') = (length (sets st) + Z.to_nat b)%nat
          /\ num_sets_allocated <$> pools st' !! pool
             = Some (wrap32 (num_sets_allocated p + b)))
    /\ (vkAllocateDescriptorSets st pool b = false ->
        allocate_desc_set vkAllocateDescriptorSets st pg type N is_compute
        = Ok (st, None)).
Proof.
  intros Hpg Hp HN.
  assert (Hlt : (pool < length (pools st))%nat) by by eapply lookup_lt_Some.
  assert (Hb : exists b,
             desc_bucket_size (num_descriptors p) N = Some b
             /\ (num_descriptors p = 0 -> b = 1)
             /\ (num_descriptors p <> 0 ->
                 exists k, 1 <= k <= 9 /\ b = 10 ^ k
                           /\ (N <= 10 -> k = 1)
                           /\ (10 < N -> 10 ^ k < N <= 10 ^ (k + 1)))).
  { destruct (decide (num_descriptors p = 0)) as [Hz|Hnz].
    - exists 1. rewrite Hz. split; [apply desc_bucket_size_null|].
      split; [done|]. intros Hne. by destruct Hne.
    - destruct (desc_bucket_size_value _ N Hnz HN)
        as (k & Hk & Hb & Hsmall & Hlarge).
      exists (10 ^ k). split; [done|]. split; [done|].
      intros _. by exists k. }
  destruct Hb as (b & Hb & Hzero & Hpow). exists b.
  split; [done|]. split; [done|]. split; [done|]. split.
  - intros Hvk.
    destruct (allocate_desc_set_bucket vkAllocateDescriptorSets st pg type
                N is_compute pool p b Hpg Hp Hb Hvk)
      as (st' & Ha & Hs & _ & Hq).
    exists st'. rewrite Hq, Hs.
    rewrite list_lookup_insert_eq, length_app, length_fmap, length_seq
      by done.
    done.
  - intros Hvk. by eapply allocate_desc_set_refused.
Qed.

Lemma allocate_desc_set_bucket_size_witness :
  exists b : Z,
    desc_bucket_size 1 1 = Some b
    /\ (1 = 0 -> b = 1)
    /\ (1 <> 0 ->
        exists k, 1 <= k <= 9 /\ b = 10 ^ k
                  /\ (1 <= 10 -> k = 1)
                  /\ (10 < 1 -> 10 ^ k < 1 <= 10 ^ (k + 1)))
    /\ (Example.granting (Example.one_pool_state 1) 0%nat b = true ->
        exists st',
          allocate_desc_set Example.granting (Example.one_pool_state 1)
            Example.one_pool_program ZINK_DESCRIPTOR_TYPE_UBO 1 true
          = Ok (st', Some 0%nat)
          /\ length (sets st') = (0 + Z.to_nat b)%nat
          /\ num_sets_allocated <$> pools st' !! 0%nat
             = Some (wrap32 (0 + b)))
    /\ (Example.granting (Example.one_pool_state 1) 0%nat b = false ->
        allocate_desc_set Example.granting (Example.one_pool_state 1)
          Example.one_pool_program ZINK_DESCRIPTOR_TYPE_UBO 1 true
        = Ok (Example.one_pool_state 1, None)).
Proof.
  apply (allocate_desc_set_bucket_size Example.granting
           (Example.one_pool_state 1) Example.one_pool_program
           ZINK_DESCRIPTOR_TYPE_UBO 1 true 0%nat (Pool 1 [] [] [] 0));
    [reflexivity | reflexivity | lia].
Defined.

(** ** Reference counts: the reclamation scan and [recycle] *)

Lemma scan_free_desc_sets_selects zs ht he count i zds :
  scan_free_desc_sets zs ht he count = Some (i, zds) ->
  exists tmp e,
    zs !! zds = Some tmp /\ reference_count tmp = 1
    /\ (he <= i)%nat /\ ht !! (i - he)%nat = Some e /\ he_data e = zds.
Proof.
  revert he count. induction ht as [|e ht IH]; intros he count; simpl;
    [done|].
  destruct (zs !! he_data e) as [tmp|] eqn:Htmp.
  - destruct (((100 <=? count) && (reference_count tmp =? 1))
              || get_invalidated_desc_set tmp) eqn:Hc.
    + intros [= <- <-]. exists tmp, e. rewrite Nat.sub_diag.
      split_and!; try done.
      unfold get_invalidated_desc_set in Hc.
      destruct (invalid tmp); simpl in Hc;
        rewrite ?orb_false_r in Hc; destruct (100 <=? count);
        simpl in Hc; lia.
    + intros H. destruct (IH _ _ H) as (tmp' & e' & ? & ? & ? & Hl & ?).
      exists tmp', e'. split_and!; try done; try lia.
      replace (i - he)%nat with (S (i - S he)) by lia. done.
  - intros H. destruct (IH _ _ H) as (tmp' & e' & ? & ? & ? & Hl & ?).
    exists tmp', e'. split_and!; try done; try lia.
    replace (i - he)%nat with (S (i - S he)) by lia. done.
Qed.

(** C4: a set whose reference count is not exactly 1 is never the set the
    scan over the recycle map selects, and [zink_descriptor_set_recycle]
    leaves the whole state as it is for such a set. *)
Theorem reference_safety (ZINK_SHADER_COUNT : nat) st zds z :
  sets st !! zds = Some z ->
  reference_count z <> 1 ->
  (forall ht count he,
     scan_free_desc_sets (sets st) ht 0 count <> Some (he, zds))
  /\ zink_descriptor_set_recycle ZINK_SHADER_COUNT st zds = Ok st.
Proof.
  intros Hz Hrc. split.
  - intros ht count he H.
    destruct (scan_free_desc_sets_selects _ _ _ _ _ _ H)
      as (tmp & e & Htmp & Hone & _).
    congruence.
  - unfold zink_descriptor_set_recycle. rewrite Hz.
    cbn [deref mbind result_mbind result_bind].
    by rewrite (proj2 (Z.eqb_neq _ _) Hrc).
Qed.

Lemma reference_safety_witness :
  let z := Zds 0 ZINK_DESCRIPTOR_TYPE_UBO 2 7 false true (Key [] []) 1 0 0 in
  let st := State [z] [Pool 1 [] [Entry 7 0] [] 10] [0] (Batch [0%nat] 1) in
  (forall ht count he,
     scan_free_desc_sets (sets st) ht 0 count <> Some (he, 0%nat))
  /\ zink_descriptor_set_recycle Mesa.ZINK_SHADER_COUNT st 0 = Ok st.
Proof.
  intros z st.
  apply (reference_safety Mesa.ZINK_SHADER_COUNT st 0%nat z);
    [reflexivity | vm_compute; discriminate].
Defined.

(** ** Back-references and invalidation *)

Lemma invalidated_refl z : invalidated z z.
Proof. by left. Qed.

Lemma invalidated_trans z1 z2 z3 :
  invalidated z1 z2 -> invalidated z2 z3 -> invalidated z1 z3.
Proof.
  intros [->| ->] [->| ->]; unfold invalidated; auto.
Qed.


Lemma invalidated_alter zs s :
  Forall2 invalidated zs (alter (set_invalid true) s zs).
Proof.
  apply Forall2_same_length_lookup_2; [by rewrite length_alter|].
  intros i z z' Hz Hz'. destruct (decide (s = i)) as [->|Hne].
  - rewrite list_lookup_alter_eq, Hz in Hz'. injection Hz' as <-.
    by right.
  - rewrite list_lookup_alter_ne, Hz in Hz' by done. injection Hz' as <-.
    by left.
Qed.

Lemma Forall2_invalidated_refl zs : Forall2 invalidated zs zs.
Proof. apply Forall_Forall2_diag, Forall_forall. intros; by left. Qed.

Lemma Forall2_invalidated_trans zs1 zs2 zs3 :
  Forall2 invalidated zs1 zs2 -> Forall2 invalidated zs2 zs3 ->
  Forall2 invalidated zs1 zs3.
Proof.
  intros H12 H23. eapply Forall2_trans; [| exact H12 | exact H23].
  intros ???; apply invalidated_trans.
Qed.

Section RefsClear.

Variable ptr : Z.
Hypothesis ptr_not_null : ptr <> 0.

Lemma refs_clear_step_frame st r :
  pools (refs_clear_step ptr st r) = pools st
  /\ batch (refs_clear_step ptr st r) = batch st
  /\ Forall2 invalidated (sets st) (sets (refs_clear_step ptr st r)).
Proof.
  unfold refs_clear_step. case_bool_decide; simpl.
  - split_and!; try done. apply invalidated_alter.
  - split_and!; try done. apply Forall2_invalidated_refl.
Qed.

Lemma refs_clear_step_slots st r a :
  slots (refs_clear_step ptr st r) !! a
  = if bool_decide (a = ref r /\ slots st !! a = Some ptr)
    then Some 0 else slots st !! a.
Proof.
  unfold refs_clear_step. case_bool_decide as Hr; simpl.
  - destruct (decide (a = ref r)) as [->|Hne].
    + rewrite bool_decide_eq_true_2 by done.
      apply list_lookup_insert_eq. by eapply lookup_lt_Some.
    + rewrite bool_decide_eq_false_2 by (intros [? _]; done).
      by apply list_lookup_insert_ne.
  - case_bool_decide as Ha; [|done]. destruct Ha as [-> Ha]. done.
Qed.

Lemma refs_clear_fold_frame refs st :
  pools (foldl (refs_clear_step ptr) st refs) = pools st
  /\ batch (foldl (refs_clear_step ptr) st refs) = batch st
  /\ Forall2 invalidated (sets st)
       (sets (foldl (refs_clear_step ptr) st refs)).
Proof.
  revert st. induction refs as [|r refs IH]; intros st; simpl.
  - split_and!; try done. apply Forall2_invalidated_refl.
  - destruct (IH (refs_clear_step ptr st r)) as (Hp & Hb & Hs).
    destruct (refs_clear_step_frame st r) as (Hp' & Hb' & Hs').
    split_and!; try congruence.
    by eapply Forall2_invalidated_trans.
Qed.

(** The slots the loop clears: those listed in [refs] that hold [ptr]. *)
Lemma refs_clear_fold_slots refs st a :
  slots (foldl (refs_clear_step ptr) st refs) !! a
  = if bool_decide (a ∈ ref <$> refs /\ slots st !! a = Some ptr)
    then Some 0 else slots st !! a.
Proof.
  revert st. induction refs as [|r refs IH]; intros st; cbn [foldl].
  - case_bool_decide as H; [|done]. destruct H as [H _].
    by apply elem_of_nil in H.
  - rewrite IH, refs_clear_step_slots, fmap_cons.
    destruct (decide (a = ref r /\ slots st !! a = Some ptr))
      as [[Ha Hs]|Hn].
    + rewrite (bool_decide_eq_true_2 (a = ref r /\ _)) by done.
      rewrite (bool_decide_eq_false_2 (_ /\ Some 0 = Some ptr))
        by (intros [_ [= ?]]; done).
      rewrite bool_decide_eq_true_2; [done|].
      split; [rewrite Ha; left | done].
    + rewrite (bool_decide_eq_false_2 (a = ref r /\ _)) by done.
      destruct (decide (a ∈ ref <$> refs /\ slots st !! a = Some ptr))
        as [[Hin Hs]|Hn2].
      * rewrite !bool_decide_eq_true_2; [done| split; [by right|done]
                                        | done].
      * rewrite (bool_decide_eq_false_2 _ Hn2).
        rewrite bool_decide_eq_false_2; [done|]. intros [Hin Hs].
        apply elem_of_cons in Hin as [->|Hin]; tauto.
Qed.


End RefsClear.

(** ** The paths through [zink_descriptor_set_get] *)

Lemma result_bind_Ok {A B} (m : result A) (f : A -> result B) b :
  (m ≫= f) = Ok b -> exists a, m = Ok a /\ f a = Ok b.
Proof. destruct m; try done. intros H. by eexists. Qed.

Lemma deref_Ok {A} (o : option A) a : deref o = Ok a -> o = Some a.
Proof. destruct o; [|done]. by intros [= ->]. Qed.

(** A run that goes on after [allocate_desc_set] and line 288 had the
    sets granted by the device. *)
Lemma allocate_desc_set_granted {A} vkAllocateDescriptorSets st pg type N
    is_compute pool p b (k : zink_state -> nat -> result A) r :
  pg_pool pg type = Some pool ->
  pools st !! pool = Some p ->
  desc_bucket_size (num_descriptors p) N = Some b ->
  (allocate_desc_set vkAllocateDescriptorSets st pg type N is_compute
   ≫= fun '(st, alloc) => deref alloc ≫= fun zds => k st zds) = Ok r ->
  vkAllocateDescriptorSets st pool b = true.
Proof.
  intros Hpg Hp Hb H.
  destruct (vkAllocateDescriptorSets st pool b) eqn:Hvk; [done|].
  by rewrite (allocate_desc_set_refused _ st pg type N is_compute pool p b
                Hpg Hp Hb Hvk) in H.
Qed.

Section GetPaths.

Variable ZINK_SHADER_COUNT : nat.
Variable ZINK_DEFAULT_MAX_DESCS : Z.
Variable NDEBUG : bool.
Variable vkAllocateDescriptorSets : zink_state -> nat -> Z -> bool.

Abbreviation equal := (desc_state_equal ZINK_SHADER_COUNT).
Abbreviation search := (_mesa_hash_table_search_pre_hashed ZINK_SHADER_COUNT).
Abbreviation get_lookup_pool' :=
  (get_lookup_pool ZINK_SHADER_COUNT ZINK_DEFAULT_MAX_DESCS NDEBUG).
Abbreviation get_lookup' :=
  (get_lookup ZINK_SHADER_COUNT ZINK_DEFAULT_MAX_DESCS NDEBUG).
Abbreviation get' :=
  (zink_descriptor_set_get ZINK_SHADER_COUNT ZINK_DEFAULT_MAX_DESCS NDEBUG
     vkAllocateDescriptorSets).

(** A search that succeeds names an entry of the table whose set exists
    and carries a key equal to the one searched for. *)
Lemma search_Some zs ht hash key i e :
  search zs ht hash key = Some (i, e) ->
  ht !! i = Some e /\ he_hash e = hash
  /\ exists z, zs !! he_data e = Some z /\ equal key (zds_key z) = true.
Proof.
  unfold _mesa_hash_table_search_pre_hashed. intros H.
  apply list_find_Some in H as (Hi & Hm & _). split; [done|].
  unfold entry_matches in Hm. apply andb_true_iff in Hm as [Hh Hk].
  split; [lia|]. destruct (zs !! he_data e) as [z|]; [|done]. by exists z.
Qed.

(** The six ways out of the lookup in a pool with descriptors. *)
Lemma get_lookup_pool_inv st pool p hash key br :
  get_lookup_pool' st pool p hash key = Ok br ->
  (exists i e z,
     search (sets st) (desc_sets p) hash key = Some (i, e)
     /\ sets st !! he_data e = Some z
     /\ (invalid z = false \/ NDEBUG = true)
     /\ br = goto_quick_out st (he_data e) (negb (invalid z)))
  \/ (search (sets st) (desc_sets p) hash key = None
      /\ exists i e z,
           search (sets st) (free_desc_sets p) hash key = Some (i, e)
           /\ sets st !! he_data e = Some z
           /\ br = goto_out
                     (update_pool pool
                        (fun p => set_free_desc_sets
                                    (_mesa_hash_table_remove
                                       (free_desc_sets p) i) p) st)
                     (he_data e) (negb (invalid z)))
  \/ (search (sets st) (desc_sets p) hash key = None
      /\ search (sets st) (free_desc_sets p) hash key = None
      /\ exists zds,
           list.last (alloc_desc_sets p) = Some zds
           /\ br = goto_out
                     (update_pool pool
                        (fun p => set_alloc_desc_sets
                                    (take (length (alloc_desc_sets p) - 1)
                                       (alloc_desc_sets p)) p) st)
                     zds false)
  \/ (search (sets st) (desc_sets p) hash key = None
      /\ search (sets st) (free_desc_sets p) hash key = None
      /\ list.last (alloc_desc_sets p) = None
      /\ exists he zds,
           scan_free_desc_sets (sets st) (free_desc_sets p) 0 0
           = Some (he, zds)
           /\ br = goto_out
                     (update_pool pool
                        (fun p => set_free_desc_sets
                                    (_mesa_hash_table_remove
                                       (free_desc_sets p) he) p)
                        (zink_descriptor_set_invalidate zds st))
                     zds false)
  \/ (search (sets st) (desc_sets p) hash key = None
      /\ search (sets st) (free_desc_sets p) hash key = None
      /\ list.last (alloc_desc_sets p) = None
      /\ scan_free_desc_sets (sets st) (free_desc_sets p) 0 0 = None
      /\ ((ZINK_DEFAULT_MAX_DESCS
           < wrap32 (num_sets_allocated p + num_descriptors p)
           /\ br = flush_and_retry)
          \/ (wrap32 (num_sets_allocated p + num_descriptors p)
              <= ZINK_DEFAULT_MAX_DESCS
              /\ br = goto_allocate))).
Proof.
  unfold get_lookup_pool. intros H.
  destruct (search (sets st) (desc_sets p) hash key) as [[i e]|] eqn:Hd.
  - apply result_bind_Ok in H as (z & Hz & H').
    apply deref_Ok in Hz. left. exists i, e, z.
    destruct (invalid z) eqn:Hi, NDEBUG eqn:Hn; simpl in H'; try done;
      injection H' as <-; split_and!; auto.
  - right.
    destruct (search (sets st) (free_desc_sets p) hash key)
      as [[i e]|] eqn:Hf.
    + apply result_bind_Ok in H as (z & Hz & H').
      apply deref_Ok in Hz. injection H' as <-. left.
      split; [done|]. by exists i, e, z.
    + right.
      destruct (list.last (alloc_desc_sets p)) as [zds|] eqn:Hl.
      * injection H as <-. left. split_and!; try done. by exists zds.
      * right.
        destruct (scan_free_desc_sets (sets st) (free_desc_sets p) 0 0)
          as [[he zds]|] eqn:Hs.
        -- injection H as <-. left. split_and!; try done.
           by exists he, zds.
        -- right. split_and!; try done.
           destruct (Z.ltb_spec ZINK_DEFAULT_MAX_DESCS
                       (wrap32 (num_sets_allocated p + num_descriptors p)))
             as [Hlt|Hle]; injection H as <-; [left|right]; done.
Qed.

(** The four ways out of the whole lookup. *)
Lemma get_lookup_inv st pg pool p type hash key br :
  get_lookup' st pg pool p type hash key = Ok br ->
  (exists l z st_a,
     shortcut_hit ZINK_SHADER_COUNT st pg type hash key l z
     /\ br = goto_out st_a l (negb (invalid z))
     /\ (st_a = st
         \/ (num_descriptors p <> 0 /\ recycled z = true
             /\ exists i e,
                  search (sets st) (free_desc_sets p) hash key
                  = Some (i, e)
                  /\ st_a = update_pool pool
                              (fun p => set_free_desc_sets
                                          (_mesa_hash_table_remove
                                             (free_desc_sets p) i) p) st)))
  \/ ((forall l z, ~ shortcut_hit ZINK_SHADER_COUNT st pg type hash key l z)
      /\ ((num_descriptors p <> 0
           /\ get_lookup_pool' st pool p hash key = Ok br)
          \/ (num_descriptors p = 0
              /\ exists l z,
                   last_set pg type = Some l /\ sets st !! l = Some z
                   /\ zds_hash z = 0 /\ br = goto_quick_out st l true)
          \/ (num_descriptors p = 0 /\ br = goto_allocate
              /\ (last_set pg type = None
                  \/ exists l z,
                       last_set pg type = Some l /\ sets st !! l = Some z
                       /\ zds_hash z <> 0)))).
Proof.
  unfold get_lookup, shortcut_hit. intros H.
  apply result_bind_Ok in H as (sc & Hsc & H).
  destruct (last_set pg type) as [l|] eqn:Hl.
  - apply result_bind_Ok in Hsc as (z & Hz & Hsc). apply deref_Ok in Hz.
    injection Hsc as <-.
    destruct ((zds_hash z =? hash) && equal (zds_key z) key) eqn:Hm.
    + apply andb_true_iff in Hm as [Hh Hk]. left.
      injection H as <-. exists l, z.
      destruct (negb (num_descriptors p =? 0) && recycled z) eqn:Hr.
      * apply andb_true_iff in Hr as [Hnd Hr].
        destruct (search (sets st) (free_desc_sets p) hash key)
          as [[i e]|] eqn:Hf.
        -- eexists. split_and!; try done; try lia. right.
           split_and!; try done; try lia. by exists i, e.
        -- exists st. split_and!; try done; try lia. by left.
      * exists st. split_and!; try done; try lia. by left.
    + right. split.
      { intros l' z' (Hl' & Hz' & Hh & Hk). simplify_eq.
        rewrite Hk, Z.eqb_refl in Hm. done. }
      destruct (Z.eqb_spec (num_descriptors p) 0) as [Hnd|Hnd];
        simpl in H.
      * right. rewrite Hz in H. simpl in H.
        destruct (Z.eqb_spec (zds_hash z) 0) as [Hh|Hh];
          injection H as <-.
        -- left. split; [done|]. by exists l, z.
        -- right. split_and!; try done. right. by exists l, z.
      * left. done.
  - injection Hsc as <-. right. split.
    { intros l' z' (Hl' & _). done. }
    destruct (Z.eqb_spec (num_descriptors p) 0) as [Hnd|Hnd]; simpl in H.
    + right. right. injection H as <-. split_and!; auto.
    + left. done.
Qed.

(** One unfolding of [zink_descriptor_set_get]. *)
Lemma get_unfold fuel st pg ctx type is_compute r :
  get' (S fuel) st pg ctx type is_compute = Ok r ->
  exists pool p br,
    pg_pool pg type = Some pool /\ pools st !! pool = Some p
    /\ let hash := if negb (num_descriptors p =? 0)
                   then descriptor_states ctx is_compute type else 0 in
       let key := populate_zds_key ZINK_SHADER_COUNT ctx type is_compute
                    (Key [] []) in
       get_lookup' st pg pool p type hash key = Ok br
       /\ match br with
          | goto_out st zds cache_hit =>
              get_out ZINK_SHADER_COUNT st pg pool p ctx type is_compute
                hash zds cache_hit
          | goto_quick_out st zds cache_hit =>
              get_quick_out st pg p type zds cache_hit
          | flush_and_retry =>
              zink_flush_batch ZINK_SHADER_COUNT st
              ≫= fun st => get' fuel st pg ctx type is_compute
          | goto_allocate =>
              allocate_desc_set vkAllocateDescriptorSets st pg type 1
                is_compute
              ≫= fun '(st, alloc) =>
                   deref alloc
                   ≫= fun zds =>
                        get_out ZINK_SHADER_COUNT st pg pool p ctx type
                          is_compute hash zds false
          end = Ok r.
Proof.
  cbn [zink_descriptor_set_get]. intros H.
  apply result_bind_Ok in H as (pool & Hpool & H). apply deref_Ok in Hpool.
  apply result_bind_Ok in H as (p & Hp & H). apply deref_Ok in Hp.
  apply result_bind_Ok in H as (br & Hbr & H).
  exists pool, p, br. split_and!; try done.
Qed.

End GetPaths.

(** *** The two exits *)

Lemma zink_batch_add_desc_set_inv st zds st' added :
  zink_batch_add_desc_set st zds = (st', added) ->
  pools st' = pools st /\ slots st' = slots st
  /\ length (sets st') = length (sets st)
  /\ (forall s, s <> zds -> sets st' !! s = sets st !! s)
  /\ (forall z, sets st !! zds = Some z ->
        exists rc, sets st' !! zds = Some (set_reference_count rc z)
                   /\ (added = false -> rc = reference_count z)).
Proof.
  unfold zink_batch_add_desc_set. case_bool_decide; intros [= <- <-].
  - split_and!; try done. intros z Hz. exists (reference_count z).
    by destruct z.
  - cbn [pools slots sets update_set with_sets with_batch].
    split_and!; try done.
    + by rewrite length_alter.
    + intros s Hs. by rewrite list_lookup_alter_ne.
    + intros z Hz. eexists. rewrite list_lookup_alter_eq, Hz. done.
Qed.

Lemma get_quick_out_inv st pg p type zds hit st' pg' zds' hit' :
  get_quick_out st pg p type zds hit = Ok (st', pg', zds', hit') ->
  zds' = zds /\ hit' = hit /\ pg' = set_last_set type zds pg
  /\ pools st' = pools st /\ slots st' = slots st
  /\ length (sets st') = length (sets st)
  /\ (forall s, s <> zds -> sets st' !! s = sets st !! s)
  /\ exists z rc,
       sets st !! zds = Some z
       /\ sets st' !! zds
          = Some (set_reference_count rc (set_invalid false z)).
Proof.
  unfold get_quick_out. intros H.
  apply result_bind_Ok in H as (z & Hz & H). apply deref_Ok in Hz.
  destruct (zink_batch_add_desc_set (update_set zds (set_invalid false) st)
              zds) as [st1 added] eqn:Hadd.
  apply zink_batch_add_desc_set_inv in Hadd
    as (Hp & Hsl & Hlen & Hother & Hzds).
  cbn [pools slots sets update_set with_sets] in *.
  rewrite length_alter in Hlen.
  destruct (Hzds (set_invalid false z)) as (rc & Hz1 & _).
  { by rewrite list_lookup_alter_eq, Hz. }
  assert (Hfin : forall b, sets (if added then with_batch b st1 else st1)
                           = sets st1
                           /\ pools (if added then with_batch b st1 else st1)
                              = pools st1
                           /\ slots (if added then with_batch b st1 else st1)
                              = slots st1) by by destruct added.
  injection H as <- <- <- <-.
  match goal with |- context [with_batch ?b st1] =>
    destruct (Hfin b) as (-> & -> & ->) end.
  split_and!; try done.
  - intros s Hs. by rewrite Hother, list_lookup_alter_ne.
  - by exists z, rc.
Qed.

Section GetExits.

Variable ZINK_SHADER_COUNT : nat.

Lemma foldl_null_last_set st zds pg types :
  let pg' := foldl (fun pg i => if is_null_pool st pg i
                                then set_last_set i zds pg else pg)
                   pg types in
  pg_pool pg' = pg_pool pg
  /\ num_bindings_typed pg' = num_bindings_typed pg
  /\ forall t, last_set pg' t
               = if bool_decide (t ∈ types) && is_null_pool st pg t
                 then Some zds else last_set pg t.
Proof.
  revert pg. induction types as [|i types IH]; intros pg; cbn [foldl].
  - split_and!; try done.
  - destruct (IH (if is_null_pool st pg i then set_last_set i zds pg
                  else pg)) as (Hp & Hn & Hl).
    assert (Hpool : pg_pool (if is_null_pool st pg i
                             then set_last_set i zds pg else pg)
                    = pg_pool pg) by by destruct (is_null_pool st pg i).
    assert (Hnull : forall t,
              is_null_pool st (if is_null_pool st pg i
                               then set_last_set i zds pg else pg) t
              = is_null_pool st pg t).
    { intros t. by destruct (is_null_pool st pg i). }
    split_and!.
    + by rewrite Hp.
    + rewrite Hn. by destruct (is_null_pool st pg i).
    + intros t. rewrite Hl, Hnull.
      destruct (decide (t = i)) as [->|Hne].
      * rewrite (bool_decide_eq_true_2 (i ∈ i :: types)) by left.
        destruct (is_null_pool st pg i) eqn:Hi;
          rewrite ?andb_true_r, ?andb_false_r; cbn [andb].
        -- case_bool_decide; cbn [last_set set_last_set];
             by rewrite ?decide_True.
        -- done.
      * assert (Hiff : bool_decide (t ∈ i :: types)
                       = bool_decide (t ∈ types)).
        { apply bool_decide_ext. rewrite elem_of_cons. tauto. }
        rewrite Hiff.
        destruct (bool_decide (t ∈ types) && is_null_pool st pg t);
          [done|].
        destruct (is_null_pool st pg i); [|done].
        cbn [last_set set_last_set]. by rewrite decide_False.
Qed.

Lemma elem_of_ZINK_DESCRIPTOR_TYPES t : t ∈ ZINK_DESCRIPTOR_TYPES.
Proof. destruct t; unfold ZINK_DESCRIPTOR_TYPES; set_solver. Qed.

Lemma is_null_pool_pools st st' pg t :
  pools st' = pools st -> is_null_pool st' pg t = is_null_pool st pg t.
Proof. unfold is_null_pool. by intros ->. Qed.

Lemma get_out_inv st pg pool p ctx type is_compute hash zds hit
    st' pg' zds' hit' :
  get_out ZINK_SHADER_COUNT st pg pool p ctx type is_compute hash zds hit
  = Ok (st', pg', zds', hit') ->
  zds' = zds /\ hit' = hit /\ slots st' = slots st
  /\ length (sets st') = length (sets st)
  /\ (forall s, s <> zds -> sets st' !! s = sets st !! s)
  /\ pg_pool pg' = pg_pool pg
  /\ num_bindings_typed pg' = num_bindings_typed pg
  /\ last_set pg' type = Some zds
  /\ exists z rc,
       sets st !! zds = Some z
       /\ let stamped :=
            set_recycled false
              (set_hash_key hash
                 (populate_zds_key ZINK_SHADER_COUNT ctx type is_compute
                    (zds_key z)) z) in
          sets st' !! zds
          = Some (set_reference_count rc (set_invalid false stamped))
          /\ (num_descriptors p <> 0 ->
              pg' = set_last_set type zds pg
              /\ pools st'
                 = alter (fun p0 =>
                            set_desc_sets
                              (_mesa_hash_table_insert_pre_hashed
                                 ZINK_SHADER_COUNT
                                 (<[zds := stamped]> (sets st))
                                 (desc_sets p0) hash zds) p0)
                     pool (pools st))
          /\ (num_descriptors p = 0 ->
              pools st' = pools st
              /\ forall t, last_set pg' t
                           = if decide (t = type) then Some zds
                             else if is_null_pool st pg t then Some zds
                             else last_set pg t).
Proof.
  unfold get_out. intros H.
  apply result_bind_Ok in H as (z & Hz & H). apply deref_Ok in Hz.
  assert (Hins : forall f, alter f zds (sets st) = <[zds := f z]> (sets st)).
  { intros f. apply list_eq. intros s.
    destruct (decide (s = zds)) as [->|Hs].
    - rewrite list_lookup_alter_eq, Hz, list_lookup_insert_eq; [done|].
      by eapply lookup_lt_Some.
    - by rewrite list_lookup_alter_ne, list_lookup_insert_ne. }
  destruct (Z.eqb_spec (num_descriptors p) 0) as [Hnd|Hnd];
    cbn [negb] in H;
    apply get_quick_out_inv in H
      as (-> & -> & -> & Hp & Hsl & Hlen & Hother & z1 & rc & Hz1 & Hz');
    cbn [pools slots sets update_set update_pool with_sets with_pools] in *;
    rewrite ?length_alter in Hlen;
    rewrite list_lookup_alter_eq, Hz in Hz1; injection Hz1 as <-.
  - match goal with |- context [foldl ?f pg ?l] =>
      destruct (foldl_null_last_set
                  (with_sets (alter (fun z => set_recycled false
                     (set_hash_key hash
                        (populate_zds_key ZINK_SHADER_COUNT ctx type
                           is_compute (zds_key z)) z)) zds (sets st)) st)
                  zds pg l) as (Hpool & Hnb & Hlast)
    end.
    cbn [pg_pool num_bindings_typed last_set set_last_set].
    rewrite decide_True by done.
    split_and!; try done.
    { intros s Hs. by rewrite Hother, list_lookup_alter_ne. }
    exists z, rc. split_and!; try done.
    intros _. split; [done|]. intros t.
    case_decide; [done|]. rewrite Hlast.
    rewrite bool_decide_eq_true_2 by apply elem_of_ZINK_DESCRIPTOR_TYPES.
    cbn [andb]. done.
  - cbn [pg_pool num_bindings_typed last_set set_last_set].
    rewrite decide_True by done.
    split_and!; try done.
    { intros s Hs. by rewrite Hother, list_lookup_alter_ne. }
    exists z, rc. split_and!; try done.
    intros _. split; [done|]. rewrite Hp. by rewrite Hins.
Qed.

End GetExits.

(** ** What [recycle] and a flush leave alone *)

Lemma same_contents_refl z : same_contents z z.
Proof. exists (reference_count z), (recycled z). by destruct z. Qed.

Lemma same_contents_trans z1 z2 z3 :
  same_contents z1 z2 -> same_contents z2 z3 -> same_contents z1 z3.
Proof.
  intros (rc & r & ->) (rc' & r' & ->). by exists rc', r'.
Qed.

Lemma same_contents_invalid z z' :
  same_contents z z' -> invalid z' = invalid z.
Proof. by intros (rc & r & ->). Qed.

Lemma same_counters_refl p : same_counters p p.
Proof. done. Qed.

Lemma same_counters_trans p1 p2 p3 :
  same_counters p1 p2 -> same_counters p2 p3 -> same_counters p1 p3.
Proof.
  intros (Hd & Hn & Hz) (Hd' & Hn' & Hz'). split_and!; try congruence.
  intros H0. rewrite Hz' by congruence. by apply Hz.
Qed.

Lemma Forall2_same_contents_refl zs : Forall2 same_contents zs zs.
Proof.
  apply Forall_Forall2_diag, Forall_forall. intros; apply same_contents_refl.
Qed.

Lemma Forall2_same_contents_trans zs1 zs2 zs3 :
  Forall2 same_contents zs1 zs2 -> Forall2 same_contents zs2 zs3 ->
  Forall2 same_contents zs1 zs3.
Proof.
  intros H12 H23. eapply Forall2_trans; [| exact H12 | exact H23].
  intros ???; apply same_contents_trans.
Qed.

Lemma Forall2_same_counters_refl ps : Forall2 same_counters ps ps.
Proof. apply Forall_Forall2_diag, Forall_forall. done. Qed.

Lemma Forall2_same_counters_trans ps1 ps2 ps3 :
  Forall2 same_counters ps1 ps2 -> Forall2 same_counters ps2 ps3 ->
  Forall2 same_counters ps1 ps3.
Proof.
  intros H12 H23. eapply Forall2_trans; [| exact H12 | exact H23].
  intros ???; apply same_counters_trans.
Qed.

Lemma Forall2_same_contents_alter zs s f :
  (forall z, same_contents z (f z)) ->
  Forall2 same_contents zs (alter f s zs).
Proof.
  intros Hf. apply Forall2_alter_r; [apply Forall2_same_contents_refl|].
  intros x y _ _ Hxy. eapply same_contents_trans; [exact Hxy|apply Hf].
Qed.

(** Writing the tables or the shell list of a pool that has descriptors. *)
Lemma Forall2_same_counters_alter ps pool p f :
  ps !! pool = Some p ->
  num_descriptors p <> 0 ->
  (forall q, num_descriptors (f q) = num_descriptors q
             /\ num_sets_allocated (f q) = num_sets_allocated q) ->
  Forall2 same_counters ps (alter f pool ps).
Proof.
  intros Hp Hnd Hf.
  apply Forall2_alter_r; [apply Forall2_same_counters_refl|].
  intros x y Hx _ (Hd & Hn & _). destruct (Hf y) as [Hd' Hn'].
  assert (x = p) as -> by congruence.
  split_and!; congruence.
Qed.

Section RecycleFrame.

Variable ZINK_SHADER_COUNT : nat.

Abbreviation recycle := (zink_descriptor_set_recycle ZINK_SHADER_COUNT).

Lemma zink_descriptor_set_recycle_frame st zds st' :
  recycle st zds = Ok st' ->
  slots st' = slots st /\ batch st' = batch st
  /\ Forall2 same_contents (sets st) (sets st')
  /\ Forall2 same_counters (pools st) (pools st').
Proof.
  unfold zink_descriptor_set_recycle. intros H.
  apply result_bind_Ok in H as (z & Hz & H). apply deref_Ok in Hz.
  pose proof (Forall2_same_contents_refl (sets st)) as Hs0.
  pose proof (Forall2_same_counters_refl (pools st)) as Hp0.
  destruct (reference_count z =? 1); cbn [negb] in H;
    [|by injection H as <-].
  apply result_bind_Ok in H as (p & Hp & H). apply deref_Ok in Hp.
  destruct (Z.eqb_spec (num_descriptors p) 0) as [Hnd|Hnd];
    [by injection H as <-|].
  destruct (_mesa_hash_table_search_pre_hashed ZINK_SHADER_COUNT (sets st)
              (desc_sets p) (zds_hash z) (zds_key z)) as [[he e]|];
    [|by injection H as <-].
  assert (Hcount : forall g : list hash_entry -> list hash_entry,
            Forall2 same_counters (pools st)
              (alter (fun p => set_desc_sets (g (desc_sets p)) p)
                 (zds_pool z) (pools st))).
  { intros g. by eapply Forall2_same_counters_alter. }
  destruct (invalid z) eqn:Hinv; injection H as <-;
    cbn [slots batch sets pools update_pool update_set with_pools
         with_sets zink_descriptor_set_invalidate].
  - split_and!; try done.
    + apply Forall2_alter_r; [done|]. intros x y Hx _ Hxy.
      assert (x = z) as -> by congruence.
      destruct Hxy as (rc & r & ->). exists rc, r.
      destruct z. cbn in Hinv. by subst.
    + apply Forall2_alter_r; [apply Hcount|].
      intros x y Hx _ (Hd & Hn & _). assert (x = p) as -> by congruence.
      split_and!; done.
  - split_and!; try done.
    + apply Forall2_same_contents_alter. intros z0.
      by exists (reference_count z0), true; destruct z0.
    + apply Forall2_alter_r; [apply Hcount|].
      intros x y Hx _ (Hd & Hn & _). assert (x = p) as -> by congruence.
      split_and!; done.
Qed.

Lemma zink_batch_release_frame zs st st' :
  zink_batch_release ZINK_SHADER_COUNT zs st = Ok st' ->
  slots st' = slots st /\ batch st' = batch st
  /\ Forall2 same_contents (sets st) (sets st')
  /\ Forall2 same_counters (pools st) (pools st').
Proof.
  revert st. induction zs as [|zds zs IH]; intros st;
    cbn [zink_batch_release].
  - intros [= <-]. split_and!; try done.
    + apply Forall2_same_contents_refl.
    + apply Forall2_same_counters_refl.
  - intros H. apply result_bind_Ok in H as (st1 & H1 & H).
    apply zink_descriptor_set_recycle_frame in H1 as (Hsl & Hb & Hs & Hp).
    apply IH in H as (Hsl' & Hb' & Hs' & Hp').
    cbn [slots batch sets pools update_set with_sets] in *.
    split_and!; try congruence.
    + eapply Forall2_same_contents_trans; [|exact Hs'].
      eapply Forall2_same_contents_trans; [|exact Hs].
      apply Forall2_same_contents_alter. intros z.
      exists (wrap32 (reference_count z - 1)), (recycled z).
      by destruct z.
    + by eapply Forall2_same_counters_trans.
Qed.

Lemma zink_flush_batch_frame st st' :
  zink_flush_batch ZINK_SHADER_COUNT st = Ok st' ->
  slots st' = slots st
  /\ Forall2 same_contents (sets st) (sets st')
  /\ Forall2 same_counters (pools st) (pools st').
Proof.
  unfold zink_flush_batch. intros H.
  apply result_bind_Ok in H as (st1 & H1 & H). injection H as <-.
  apply zink_batch_release_frame in H1 as (Hsl & Hb & Hs & Hp).
  done.
Qed.

End RecycleFrame.

(** ** A cache hit is a hit on valid contents *)

Section CacheHit.

Variable ZINK_SHADER_COUNT : nat.
Variable ZINK_DEFAULT_MAX_DESCS : Z.
Variable NDEBUG : bool.
Variable vkAllocateDescriptorSets : zink_state -> nat -> Z -> bool.

Abbreviation get' :=
  (zink_descriptor_set_get ZINK_SHADER_COUNT ZINK_DEFAULT_MAX_DESCS NDEBUG
     vkAllocateDescriptorSets).


End CacheHit.

(** ** Invalidation through the back-references *)




(** ** Looking the same fingerprint up again *)

Section Again.

Variable ZINK_SHADER_COUNT : nat.
Variable ZINK_DEFAULT_MAX_DESCS : Z.
Variable NDEBUG : bool.
Variable vkAllocateDescriptorSets : zink_state -> nat -> Z -> bool.

Abbreviation equal := (desc_state_equal ZINK_SHADER_COUNT).
Abbreviation search := (_mesa_hash_table_search_pre_hashed ZINK_SHADER_COUNT).
Abbreviation populate := (populate_zds_key ZINK_SHADER_COUNT).
Abbreviation get' :=
  (zink_descriptor_set_get ZINK_SHADER_COUNT ZINK_DEFAULT_MAX_DESCS NDEBUG
     vkAllocateDescriptorSets).

(** Two keys filled from the same context compare equal, whatever the keys
    held before. *)
Lemma populate_zds_key_equal ctx type is_compute k1 k2 :
  equal (populate ctx type is_compute k1) (populate ctx type is_compute k2)
  = true.
Proof.
  apply desc_state_equal_spec. intros j Hj.
  unfold populate_zds_key, key_exists, key_state.
  destruct is_compute; cbn [exists_ state];
    rewrite !list_lookup_fmap, !lookup_seq_lt by done; cbn.
  - split; [done|]. case_bool_decide; [|done]. by rewrite !decide_True.
  - done.
Qed.

(** A search only reads the keys of the sets. *)
Lemma search_ext zs zs' ht hash key :
  (forall s, zds_key <$> zs' !! s = zds_key <$> zs !! s) ->
  search zs' ht hash key = search zs ht hash key.
Proof.
  intros Hk. unfold _mesa_hash_table_search_pre_hashed.
  apply list_find_ext. intros he. unfold entry_matches.
  specialize (Hk (he_data he)).
  destruct (zs' !! he_data he), (zs !! he_data he); simplify_eq/=;
    [by rewrite Hk|done].
Qed.

(** Removing an entry that does not answer a search does not change the
    entry the search finds. *)
Lemma list_find_delete_other {A} (P : A -> Prop) `{!forall x, Decision (P x)}
    (l : list A) i x :
  l !! i = Some x -> ~ P x ->
  snd <$> list_find P (delete i l) = snd <$> list_find P l.
Proof.
  revert i. induction l as [|y l IH]; intros i Hi Hx; [done|].
  destruct i as [|i]; cbn in Hi |- *.
  - injection Hi as ->. rewrite decide_False by done.
    rewrite <- option_fmap_compose. by destruct (list_find P l) as [[]|].
  - destruct (decide (P y)); [done|].
    rewrite <- !option_fmap_compose.
    specialize (IH i Hi Hx).
    destruct (list_find P (delete i l)) as [[]|],
             (list_find P l) as [[]|]; simplify_eq/=; done.
Qed.

Lemma update_pool_lookup st pool f :
  pools (update_pool pool f st) !! pool = f <$> pools st !! pool.
Proof. apply list_lookup_alter_eq. Qed.

(** Leaving through [out] leaves the set cached for the context. *)
Lemma get_out_cached st pg pool p ctx type is_compute zds hit
    st' pg' zds' hit' :
  get_out ZINK_SHADER_COUNT st pg pool p ctx type is_compute
    (if negb (num_descriptors p =? 0)
     then descriptor_states ctx is_compute type else 0) zds hit
  = Ok (st', pg', zds', hit') ->
  pg_pool pg type = Some pool ->
  (exists p_a, pools st !! pool = Some p_a
               /\ num_descriptors p_a = num_descriptors p) ->
  zds' = zds /\ hit' = hit
  /\ cached_for ZINK_SHADER_COUNT st' pg' ctx type is_compute zds.
Proof.
  intros H Hpool (p_a & Hpa & Hnd).
  apply get_out_inv in H
    as (-> & -> & _ & _ & _ & Hpool' & _ & Hlast & z & rc & Hz & Hzds
        & Hnz & Hzero).
  split; [done|]. split; [done|].
  assert (exists p', pools st' !! pool = Some p'
                     /\ num_descriptors p' = num_descriptors p)
    as (p' & Hp' & Hnd').
  { destruct (decide (num_descriptors p = 0)) as [H0|H0].
    - destruct (Hzero H0) as [-> _]. by exists p_a.
    - destruct (Hnz H0) as [_ ->]. rewrite list_lookup_alter_eq, Hpa.
      eexists. split; [done|]. done. }
  eexists pool, p', _. split_and!; try done; try congruence.
  cbn zeta. left. rewrite Hnd'. split; [done|].
  apply populate_zds_key_equal.
Qed.

(** Whatever way [zink_descriptor_set_get] takes, it leaves the set it
    returns cached for the context it was called with. *)
Lemma get_cached_for fuel st pg ctx type is_compute st' pg' zds hit :
  get' fuel st pg ctx type is_compute = Ok (st', pg', zds, hit) ->
  cached_for ZINK_SHADER_COUNT st' pg' ctx type is_compute zds.
Proof.
  revert st. induction fuel as [|fuel IH]; intros st H; [done|].
  apply get_unfold in H as (pool & p & br & Hpool & Hp & Hlook & H).
  cbn zeta in *.
  apply get_lookup_inv in Hlook
    as [(l & z & st_a & (Hl & Hz & Hh & Hk) & -> & Hsta)
       |(Hno & [(Hnd & Hlook)|[(Hnd & l & z & Hl & Hz & Hh & ->)
                              |(Hnd & -> & _)]])].
  - apply get_out_cached in H as (-> & _ & H); [done|done|].
    destruct Hsta as [->|(_ & _ & i & e & _ & ->)].
    + by exists p.
    + rewrite update_pool_lookup, Hp. by eexists.
  - apply get_lookup_pool_inv in Hlook
      as [(i & e & z & Hs & Hz & Hv & ->)
         |[(_ & i & e & z & Hs & Hz & ->)
          |[(_ & _ & zds' & _ & ->)
           |[(_ & _ & _ & he & zds' & _ & ->)
            |(_ & _ & _ & _ & [(_ & ->)|(_ & ->)])]]]].
    + apply get_quick_out_inv in H
        as (-> & -> & -> & Hps & _ & _ & Hother & z1 & rc & Hz1 & Hz').
      rewrite Hz in Hz1. injection Hz1 as <-.
      destruct (invalid z) eqn:Hinv.
      * exists pool, p, (set_reference_count rc (set_invalid false z)).
        cbn [pg_pool last_set set_last_set]. rewrite decide_True by done.
        split_and!; try done; try congruence. cbn zeta. right. left.
        split; [done|]. exists i, e. split; [|done].
        rewrite <- Hs. apply search_ext. intros s.
        destruct (decide (s = he_data e)) as [->|Hne].
        -- by rewrite Hz', Hz.
        -- by rewrite Hother.
      * exists pool, p, (set_reference_count rc (set_invalid false z)).
        cbn [pg_pool last_set set_last_set]. rewrite decide_True by done.
        split_and!; try done; try congruence. cbn zeta. right. left.
        split; [done|]. exists i, e. split; [|done].
        rewrite <- Hs. apply search_ext. intros s.
        destruct (decide (s = he_data e)) as [->|Hne].
        -- by rewrite Hz', Hz.
        -- by rewrite Hother.
    + apply get_out_cached in H as (-> & _ & H); [done|done|].
      rewrite update_pool_lookup, Hp. by eexists.
    + apply get_out_cached in H as (-> & _ & H); [done|done|].
      rewrite update_pool_lookup, Hp. by eexists.
    + apply get_out_cached in H as (-> & _ & H); [done|done|].
      rewrite update_pool_lookup. cbn. rewrite Hp. by eexists.
    + apply result_bind_Ok in H as (st1 & _ & H). by eapply IH.
    + apply result_bind_Ok in H as ([st1 alloc] & Halloc & H).
      apply result_bind_Ok in H as (zds1 & Hzds1 & H).
      apply deref_Ok in Hzds1 as ->.
      destruct (allocate_desc_set_Some _ _ _ _ _ _ _ _ _ Hpool Hp Halloc)
        as (_ & -> & _ & _ & Hps).
      apply get_out_cached in H as (-> & _ & H); [done|done|].
      rewrite Hps, list_lookup_insert_eq by by eapply lookup_lt_Some.
      by eexists.
  - apply get_quick_out_inv in H
      as (-> & -> & -> & Hps & _ & _ & Hother & z1 & rc & Hz1 & Hz').
    rewrite Hz in Hz1. injection Hz1 as <-.
    exists pool, p, (set_reference_count rc (set_invalid false z)).
    cbn [pg_pool last_set set_last_set]. rewrite decide_True by done.
    split_and!; try done; try congruence. cbn zeta. right. right. done.
  - apply result_bind_Ok in H as ([st1 alloc] & Halloc & H).
    apply result_bind_Ok in H as (zds1 & Hzds1 & H).
    apply deref_Ok in Hzds1 as ->.
    destruct (allocate_desc_set_Some _ _ _ _ _ _ _ _ _ Hpool Hp Halloc)
      as (_ & -> & _ & _ & Hps).
    apply get_out_cached in H as (-> & _ & H); [done|done|].
    rewrite Hps, list_lookup_insert_eq by by eapply lookup_lt_Some.
    by eexists.
Qed.


(** The two exits return as soon as the set they are given exists. *)
Lemma get_quick_out_Ok st pg p type zds hit :
  is_Some (sets st !! zds) ->
  exists st',
    get_quick_out st pg p type zds hit
    = Ok (st', set_last_set type zds pg, zds, hit).
Proof.
  intros [z Hz]. unfold get_quick_out. rewrite Hz.
  cbn [deref mbind result_mbind result_bind].
  destruct (zink_batch_add_desc_set _ _) as [st1 added]. by eexists.
Qed.

Lemma get_out_Ok st pg pool p ctx type is_compute hash zds hit :
  is_Some (sets st !! zds) ->
  exists st' pg',
    get_out ZINK_SHADER_COUNT st pg pool p ctx type is_compute hash zds hit
    = Ok (st', pg', zds, hit).
Proof.
  intros [z Hz]. unfold get_out. rewrite Hz.
  cbn [deref mbind result_mbind result_bind].
  destruct (negb (num_descriptors p =? 0)).
  - edestruct get_quick_out_Ok as [st' ->]; [|by eexists _, _].
    cbn [sets update_pool update_set with_sets with_pools].
    rewrite list_lookup_alter_eq, Hz. by eexists.
  - edestruct get_quick_out_Ok as [st' ->]; [|by eexists _, _].
    cbn [sets update_pool update_set with_sets with_pools].
    rewrite list_lookup_alter_eq, Hz. by eexists.
Qed.

(** A set cached for a context is what the next lookup with that context
    returns, as a cache hit. *)
Lemma get_of_cached fuel st pg ctx type is_compute zds :
  cached_for ZINK_SHADER_COUNT st pg ctx type is_compute zds ->
  exists st' pg',
    get' (S fuel) st pg ctx type is_compute = Ok (st', pg', zds, true).
Proof.
  intros (pool & p & z & Hpool & Hp & Hlast & Hz & Hinv & Hcase).
  cbn zeta in Hcase. cbn [zink_descriptor_set_get].
  rewrite Hpool. cbn [deref mbind result_mbind result_bind].
  rewrite Hp. cbn [deref mbind result_mbind result_bind].
  unfold get_lookup. rewrite Hlast, Hz.
  cbn [deref mbind result_mbind result_bind].
  set (hash := if negb (num_descriptors p =? 0)
               then descriptor_states ctx is_compute type else 0) in *.
  set (key := populate ctx type is_compute (Key [] [])) in *.
  destruct ((zds_hash z =? hash) && equal (zds_key z) key) eqn:Htest.
  - rewrite Hinv. cbn [negb].
    match goal with |- context [goto_out ?st_a zds true] =>
      assert (Hsets : sets st_a = sets st);
        [destruct (negb (num_descriptors p =? 0) && recycled z);
           [fold hash key;
            destruct (search (sets st) (free_desc_sets p) hash key)
              as [[]|]|]; reflexivity|];
      destruct (get_out_Ok st_a pg pool p ctx type is_compute hash zds true)
        as (st' & pg' & Hout)
    end.
    { rewrite Hsets, Hz. by eexists. }
    exists st', pg'. exact Hout.
  - destruct Hcase as [[Hh Hk]|[(Hnd & i & e & Hs & He)|(Hnd & Hh)]].
    + rewrite Hh, Hk, Z.eqb_refl in Htest. done.
    + rewrite (proj2 (Z.eqb_neq _ _) Hnd). cbn [negb].
      unfold get_lookup_pool. fold hash in Hs. rewrite Hs.
      cbv iota beta. rewrite He.
      destruct (get_quick_out_Ok st pg p type zds true) as [st' Hq];
        [by eexists|].
      exists st', (set_last_set type zds pg).
      rewrite Hz. cbn [deref mbind result_mbind result_bind]. rewrite Hinv.
      cbn [andb negb]. exact Hq.
    + rewrite (proj2 (Z.eqb_eq _ _) Hnd). cbn [negb].
      destruct (get_quick_out_Ok st pg p type zds true) as [st' Hq];
        [by eexists|].
      exists st', (set_last_set type zds pg).
      cbn [deref mbind result_mbind result_bind].
      rewrite Hh. cbn [Z.eqb mbind result_mbind result_bind]. exact Hq.
Qed.

(** Being cached only depends on the pools, on the last set of the type and
    on the contents of the sets up to reference counts and [recycled]
    flags. *)
Lemma cached_for_same_contents st st' pg ctx type is_compute zds :
  cached_for ZINK_SHADER_COUNT st pg ctx type is_compute zds ->
  pools st' = pools st ->
  Forall2 same_contents (sets st) (sets st') ->
  cached_for ZINK_SHADER_COUNT st' pg ctx type is_compute zds.
Proof.
  intros (pool & p & z & Hpool & Hp & Hlast & Hz & Hinv & Hcase) Hps Hs.
  destruct (Forall2_lookup_l _ _ _ _ _ Hs Hz) as (z' & Hz' & rc & r & ->).
  exists pool, p, (set_recycled r (set_reference_count rc z)).
  split_and!; try done; try congruence.
  cbn zeta in *. destruct Hcase as [HA|[(Hnd & i & e & Hsearch & He)|HC]];
    [by left| |by right; right].
  right; left. split; [done|]. exists i, e. split; [|done].
  rewrite <- Hsearch. apply search_ext. intros s.
  destruct (sets st !! s) as [zs|] eqn:Hzs.
  - destruct (Forall2_lookup_l _ _ _ _ _ Hs Hzs)
      as (zs' & -> & rc' & r' & ->). done.
  - apply Forall2_length in Hs. apply lookup_ge_None in Hzs.
    rewrite (proj2 (lookup_ge_None _ _)); [done|lia].
Qed.

(** [zink_descriptor_set_recycle] on the set a lookup has just returned
    keeps it cached. *)
Lemma recycle_cached_for st pg ctx type is_compute zds st' :
  cached_for ZINK_SHADER_COUNT st pg ctx type is_compute zds ->
  zink_descriptor_set_recycle ZINK_SHADER_COUNT st zds = Ok st' ->
  cached_for ZINK_SHADER_COUNT st' pg ctx type is_compute zds.
Proof.
  intros Hc Hr. pose proof Hc as Hc0.
  destruct Hc as (pool & p & z & Hpool & Hp & Hlast & Hz & Hinv & Hcase).
  cbn zeta in Hcase.
  unfold zink_descriptor_set_recycle in Hr. rewrite Hz in Hr.
  cbn [deref mbind result_mbind result_bind] in Hr.
  destruct (reference_count z =? 1); cbn [negb] in Hr;
    [|by injection Hr as <-].
  apply result_bind_Ok in Hr as (p0 & Hp0 & Hr). apply deref_Ok in Hp0.
  destruct (num_descriptors p0 =? 0); [by injection Hr as <-|].
  destruct (search (sets st) (desc_sets p0) (zds_hash z) (zds_key z))
    as [[i ei]|] eqn:Hsi; [|by injection Hr as <-].
  rewrite Hinv in Hr. injection Hr as <-.
  apply search_Some in Hsi as (Hi & Hhi & _).
  set (hash := if negb (num_descriptors p =? 0)
               then descriptor_states ctx is_compute type else 0) in *.
  set (key := populate ctx type is_compute (Key [] [])) in *.
  assert (Hsets : forall s,
            zds_key <$> alter (set_recycled true) zds (sets st) !! s
            = zds_key <$> sets st !! s).
  { intros s. destruct (decide (s = zds)) as [->|Hne].
    - rewrite list_lookup_alter_eq. by destruct (sets st !! zds).
    - by rewrite list_lookup_alter_ne. }
  assert (exists p', pools
            (update_pool (zds_pool z)
               (fun p1 => set_free_desc_sets
                  (_mesa_hash_table_insert_pre_hashed ZINK_SHADER_COUNT
                     (alter (set_recycled true) zds (sets st))
                     (free_desc_sets p1) (zds_hash z) zds) p1)
               (update_set zds (set_recycled true)
                  (update_pool (zds_pool z)
                     (fun p1 => set_desc_sets
                        (_mesa_hash_table_remove (desc_sets p1) i) p1) st)))
            !! pool = Some p'
          /\ num_descriptors p' = num_descriptors p
          /\ (desc_sets p' = desc_sets p
              \/ (p0 = p
                  /\ desc_sets p' = delete i (desc_sets p))))
    as (p' & Hp' & Hnd' & Hdesc).
  { cbn [pools update_pool update_set with_pools with_sets].
    destruct (decide (zds_pool z = pool)) as [Heq|Hne].
    - rewrite Heq, !list_lookup_alter_eq, Hp. eexists. split; [done|].
      split; [done|]. right. split; [congruence|done].
    - rewrite !list_lookup_alter_ne by done. exists p.
      split_and!; auto. }
  exists pool, p', (set_recycled true z).
  cbn [sets update_pool update_set with_pools with_sets].
  rewrite list_lookup_alter_eq, Hz. split_and!; try done.
  cbn zeta. rewrite Hnd'. fold hash key.
  destruct Hcase as [HA|[(Hnd & j & e & Hsearch & He)|HC]];
    [by left| |by right; right].
  destruct (decide (zds_hash z = hash)) as [Hh|Hh].
  { left. split; [done|]. apply search_Some in Hsearch
      as (_ & _ & z' & Hz' & Hk). rewrite He, Hz in Hz'.
    injection Hz' as <-. by apply desc_state_equal_sym. }
  right; left. split; [done|].
  rewrite (search_ext (sets st)) by exact Hsets.
  destruct Hdesc as [->|[-> ->]]; [by exists j, e|].
  assert (Hnm : ~ entry_matches ZINK_SHADER_COUNT (sets st) hash key ei
                   = true).
  { unfold entry_matches. intros [Hm _]%andb_true_iff. lia. }
  pose proof (list_find_delete_other
                (fun he => entry_matches ZINK_SHADER_COUNT (sets st) hash key
                             he = true) (desc_sets p) i ei Hi Hnm) as Hdel.
  unfold _mesa_hash_table_search_pre_hashed in *.
  rewrite Hsearch in Hdel. cbn in Hdel.
  destruct (list_find _ (delete i (desc_sets p))) as [[j' e']|];
    cbn in Hdel; [|done].
  injection Hdel as ->. by exists j', e.
Qed.

(** C8: two lookups in a row with the same context (same fingerprint and
    hash) return the same set, and the second one reports a cache hit. *)
Theorem lookup_twice fuel fuel' st pg ctx type is_compute st1 pg1 zds hit :
  zink_descriptor_set_get ZINK_SHADER_COUNT ZINK_DEFAULT_MAX_DESCS NDEBUG
    vkAllocateDescriptorSets
    fuel st pg ctx type is_compute = Ok (st1, pg1, zds, hit) ->
  exists st2 pg2,
    zink_descriptor_set_get ZINK_SHADER_COUNT ZINK_DEFAULT_MAX_DESCS NDEBUG
      vkAllocateDescriptorSets
      (S fuel') st1 pg1 ctx type is_compute = Ok (st2, pg2, zds, true).
Proof.
  intros H. apply get_of_cached. by eapply get_cached_for.
Qed.

(** C3: a set returned by a lookup, released by the batches down to
    reference count 1 and handed to [zink_descriptor_set_recycle], is what
    the next lookup with the same context returns, as a cache hit. *)
Theorem recycle_then_lookup fuel fuel' st pg ctx type is_compute
    st1 pg1 zds hit st1' z :
  zink_descriptor_set_get ZINK_SHADER_COUNT ZINK_DEFAULT_MAX_DESCS NDEBUG
    vkAllocateDescriptorSets
    fuel st pg ctx type is_compute = Ok (st1, pg1, zds, hit) ->
  pools st1' = pools st1 ->
  Forall2 (fun a b => exists rc, b = set_reference_count rc a)
    (sets st1) (sets st1') ->
  sets st1' !! zds = Some z ->
  reference_count z = 1 ->
  is_Some (pools st1' !! zds_pool z) ->
  exists st2,
    zink_descriptor_set_recycle ZINK_SHADER_COUNT st1' zds = Ok st2
    /\ exists st3 pg3,
         zink_descriptor_set_get ZINK_SHADER_COUNT ZINK_DEFAULT_MAX_DESCS
           NDEBUG vkAllocateDescriptorSets (S fuel') st2 pg1 ctx type is_compute
         = Ok (st3, pg3, zds, true).
Proof.
  intros Hget Hps Hs Hz Hrc [p0 Hp0].
  assert (Hc : cached_for ZINK_SHADER_COUNT st1' pg1 ctx type is_compute
                 zds).
  { eapply cached_for_same_contents; [by eapply get_cached_for|done|].
    eapply Forall2_impl; [exact Hs|]. intros a b [rc ->].
    exists rc, (recycled a). by destruct a. }
  assert (exists st2, zink_descriptor_set_recycle ZINK_SHADER_COUNT st1' zds
                      = Ok st2) as [st2 Hr].
  { unfold zink_descriptor_set_recycle. rewrite Hz.
    cbn [deref mbind result_mbind result_bind]. rewrite Hp0.
    cbn [deref mbind result_mbind result_bind].
    destruct (negb _); [by eexists|].
    destruct (num_descriptors p0 =? 0); [by eexists|].
    destruct (search _ _ _ _) as [[]|]; [|by eexists].
    destruct (invalid z); by eexists. }
  exists st2. split; [done|].
  apply get_of_cached. by eapply recycle_cached_for.
Qed.

End Again.

Lemma lookup_twice_witness :
  exists st1 pg1 zds hit st2 pg2,
    Example.get 1 (Example.one_pool_state 1) Example.one_pool_program
      (Mesa.compute_context 7) ZINK_DESCRIPTOR_TYPE_UBO true
    = Ok (st1, pg1, zds, hit)
    /\ Example.get 1 st1 pg1 (Mesa.compute_context 7)
         ZINK_DESCRIPTOR_TYPE_UBO true
       = Ok (st2, pg2, zds, true).
Proof.
  eexists _, _, _, _.
  assert (H : Example.get 1 (Example.one_pool_state 1)
                Example.one_pool_program (Mesa.compute_context 7)
                ZINK_DESCRIPTOR_TYPE_UBO true = Ok (_, _, _, _))
    by (vm_compute; reflexivity).
  destruct (lookup_twice _ _ _ _ 1 0 _ _ _ _ _ _ _ _ _ H) as (st2 & pg2 & H2).
  exists st2, pg2. split; [exact H | exact H2].
Defined.


Lemma recycle_then_lookup_witness :
  exists st1 pg1 zds hit st2 st3 pg3,
    Example.get 1 (Example.one_pool_state 1) Example.one_pool_program
      (Mesa.compute_context 7) ZINK_DESCRIPTOR_TYPE_UBO true
    = Ok (st1, pg1, zds, hit)
    /\ Example.recycle (update_set zds (set_reference_count 1) st1) zds
       = Ok st2
    /\ Example.get 1 st2 pg1 (Mesa.compute_context 7)
         ZINK_DESCRIPTOR_TYPE_UBO true
       = Ok (st3, pg3, zds, true).
Proof.
  eexists _, _, _, _.
  assert (H : Example.get 1 (Example.one_pool_state 1)
                Example.one_pool_program (Mesa.compute_context 7)
                ZINK_DESCRIPTOR_TYPE_UBO true = Ok (_, _, _, _))
    by (vm_compute; reflexivity).
  match type of H with _ = Ok (?st1, _, ?zds, _) =>
    destruct (recycle_then_lookup _ _ _ _ 1 0 _ _ _ _ _ _ _ _ _
                (update_set zds (set_reference_count 1) st1)
                (set_reference_count 1
                   (default (fresh_desc_set 0 ZINK_DESCRIPTOR_TYPE_UBO 0 0
                               0 0 0) (sets st1 !! zds))) H)
      as (st2 & Hr & st3 & pg3 & H3)
  end.
  - reflexivity.
  - cbn. repeat (constructor; [eexists; reflexivity|]). constructor.
  - reflexivity.
  - reflexivity.
  - eexists. reflexivity.
  - exists st2, st3, pg3. split; [exact H|]. split; [exact Hr | exact H3].
Defined.

(** ** The two maps of a pool *)

(** C2 (the code departs from the claim).  After the calls of
    [Scenario.shell_reuse] set 0 is entered under revision 7 in the active
    map and in the recycle map of the pool at once: the shortcut of lines
    215-225 put a set back into the active map that [recycle] had moved to
    the shell list, the set was then recycled and, still a shell, popped
    and stamped anew while its entry stayed in the recycle map. *)
Theorem maps_not_disjoint_after_shell_reuse :
  exists st pg hit,
    Scenario.shell_reuse = Ok (st, pg, 0%nat, hit)
    /\ pools st !! 0%nat
       = Some (Pool 1 [Entry 7 0] [Entry 7 0]
                 [1; 2; 3; 4; 5; 6; 7; 8; 9]%nat 10)
    /\ ~ maps_disjoint Mesa.ZINK_SHADER_COUNT st 0.
Proof.
  eexists _, _, _. split; [vm_compute; reflexivity|].
  split; [reflexivity|].
  intros Hd.
  apply (Hd _ 7 (Mesa.populate_zds_key (Mesa.compute_context 7)
                   ZINK_DESCRIPTOR_TYPE_UBO true (Key [] [])) eq_refl).
  split; vm_compute; by eexists.
Qed.

(** ** The effect of one lookup *)

Lemma elem_of_pool_members m p :
  m ∈ pool_members p
  <-> m ∈ he_data <$> desc_sets p \/ m ∈ he_data <$> free_desc_sets p
      \/ m ∈ alloc_desc_sets p.
Proof. unfold pool_members. by rewrite !elem_of_app. Qed.

Lemma elem_of_insert_list {A} (l : list A) i x y :
  y ∈ <[i := x]> l -> y ∈ l \/ y = x.
Proof.
  intros H. apply list_elem_of_lookup in H as [j Hj].
  apply list_lookup_insert_Some in Hj as [(-> & -> & _)|[_ Hj]];
    [by right|left]. by eapply list_elem_of_lookup_2.
Qed.

Lemma elem_of_hash_table_insert (ZINK_SHADER_COUNT : nat) zs ht hash zds e :
  e ∈ _mesa_hash_table_insert_pre_hashed ZINK_SHADER_COUNT zs ht hash zds ->
  e ∈ ht \/ e = Entry hash zds.
Proof.
  unfold _mesa_hash_table_insert_pre_hashed.
  destruct (zs !! zds) as [z|].
  - destruct (_mesa_hash_table_search_pre_hashed _ _ _ _ _) as [[i ?]|].
    + apply elem_of_insert_list.
    + rewrite elem_of_app, list_elem_of_singleton. tauto.
  - rewrite elem_of_app, list_elem_of_singleton. tauto.
Qed.

Lemma elem_of_hash_table_remove ht he (e : hash_entry) :
  e ∈ _mesa_hash_table_remove ht he -> e ∈ ht.
Proof. apply list_elem_of_delete_inv. Qed.

(** Whether a type has a pool without descriptors only depends on the
    numbers of descriptors of the pools. *)
Lemma is_null_pool_ext st st' pg pg' t :
  pg_pool pg' = pg_pool pg ->
  (forall q, num_descriptors <$> pools st' !! q
             = num_descriptors <$> pools st !! q) ->
  is_null_pool st' pg' t = is_null_pool st pg t.
Proof.
  intros Hpg Hnd. unfold is_null_pool. rewrite Hpg.
  destruct (pg_pool pg t) as [q|]; [|done]. specialize (Hnd q).
  destruct (pools st' !! q), (pools st !! q); simplify_eq/=; congruence.
Qed.

Lemma alter_insert_lookup {A} (f : A -> A) (l : list A) i x :
  l !! i = Some x -> alter f i l = <[i := f x]> l.
Proof.
  intros Hx. apply list_eq. intros j. destruct (decide (j = i)) as [->|Hne].
  - rewrite list_lookup_alter_eq, Hx, list_lookup_insert_eq; [done|].
    by eapply lookup_lt_Some.
  - by rewrite list_lookup_alter_ne, list_lookup_insert_ne.
Qed.

Lemma pool_members_remove_free p i m :
  m ∈ pool_members
        (set_free_desc_sets (_mesa_hash_table_remove (free_desc_sets p) i) p)
  -> m ∈ pool_members p.
Proof.
  rewrite !elem_of_pool_members. cbn. intros [?|[Hm|?]]; auto.
  right; left. apply list_elem_of_fmap in Hm as (e & -> & He).
  apply list_elem_of_fmap. exists e. split; [done|].
  by eapply elem_of_hash_table_remove.
Qed.

Lemma pool_members_pop p n m :
  m ∈ pool_members (set_alloc_desc_sets (take n (alloc_desc_sets p)) p) ->
  m ∈ pool_members p.
Proof.
  rewrite !elem_of_pool_members. cbn. intros [?|[?|Hm]]; auto.
  right; right. by eapply subseteq_take.
Qed.

Section Effect.

Variable ZINK_SHADER_COUNT : nat.
Variable ZINK_DEFAULT_MAX_DESCS : Z.
Variable NDEBUG : bool.
Variable vkAllocateDescriptorSets : zink_state -> nat -> Z -> bool.

Abbreviation search := (_mesa_hash_table_search_pre_hashed ZINK_SHADER_COUNT).
Abbreviation get' :=
  (zink_descriptor_set_get ZINK_SHADER_COUNT ZINK_DEFAULT_MAX_DESCS NDEBUG
     vkAllocateDescriptorSets).
Abbreviation effect := (get_effect ZINK_DEFAULT_MAX_DESCS).

(** From the state [st_a] the lookup hands to the label [out] to the final
    state. *)
Lemma get_out_effect st st_a pg Q p p_a ctx type is_compute zds hit
    st' pg' zds' hit' fresh z z_a :
  get_out ZINK_SHADER_COUNT st_a pg Q p ctx type is_compute
    (if negb (num_descriptors p =? 0)
     then descriptor_states ctx is_compute type else 0) zds hit
  = Ok (st', pg', zds', hit') ->
  pg_pool pg type = Some Q ->
  pools st !! Q = Some p ->
  pools st_a = <[Q := p_a]> (pools st) ->
  num_descriptors p_a = num_descriptors p ->
  (forall m, m ∈ pool_members p_a ->
     m ∈ pool_members p \/ m = zds
     \/ (length (sets st) <= m < length (sets st) + length fresh)%nat) ->
  (num_descriptors p = 0 ->
   desc_sets p_a = desc_sets p /\ free_desc_sets p_a = free_desc_sets p) ->
  length (sets st_a) = length (sets st ++ fresh) ->
  (forall s, s <> zds -> sets st_a !! s = (sets st ++ fresh) !! s) ->
  (sets st ++ fresh) !! zds = Some z ->
  sets st_a !! zds = Some z_a ->
  zds_pool z_a = zds_pool z ->
  zds_hash z_a = zds_hash z ->
  Forall (fun f => zds_pool f = Q /\ zds_hash f = 0) fresh ->
  (last_set pg type = Some zds
   \/ (num_descriptors p <> 0 /\ zds ∈ pool_members p)
   \/ (zds = length (sets st) /\ fresh <> [])) ->
  ((fresh = [] /\ num_sets_allocated p_a = num_sets_allocated p)
   \/ (num_sets_allocated p_a
       = wrap32 (num_sets_allocated p + Z.of_nat (length fresh))
       /\ length fresh = (if num_descriptors p =? 0 then 1%nat else 10%nat)
       /\ (num_descriptors p <> 0 ->
           wrap32 (num_sets_allocated p + num_descriptors p)
           <= ZINK_DEFAULT_MAX_DESCS)
       /\ (num_descriptors p = 0 ->
           last_set pg type = None
           \/ exists l zl, last_set pg type = Some l
                           /\ sets st !! l = Some zl /\ zds_hash zl <> 0))) ->
  zds' = zds /\ hit' = hit
  /\ exists p' z', effect st pg ctx type is_compute st' pg' zds Q p p' z z'
                     fresh.
Proof.
  intros H Hpool Hp Hpa Hnd Hmem Hnull Hlen Hoth Hz Hza Hzp Hzh Hfresh Hsrc
    Halloc.
  assert (HQ : (Q < length (pools st))%nat) by by eapply lookup_lt_Some.
  apply get_out_inv in H
    as (-> & -> & _ & Hlen' & Hoth' & Hpool' & _ & Hlast & z1 & rc & Hz1
        & Hzds & Hnz & Hzero).
  rewrite Hza in Hz1. injection Hz1 as <-. cbn zeta in *.
  split; [done|]. split; [done|].
  set (hash := if negb (num_descriptors p =? 0)
               then descriptor_states ctx is_compute type else 0) in *.
  set (z' := set_reference_count rc _) in Hzds.
  assert (Hothers : forall s, s <> zds ->
            sets st' !! s = (sets st ++ fresh) !! s).
  { intros s Hs. rewrite Hoth' by done. by apply Hoth. }
  assert (Hhash : zds_hash z' = zds_hash z \/ zds_hash z' = hash)
    by by right.
  assert (Hallocated : forall p',
            num_sets_allocated p' = num_sets_allocated p_a ->
            (fresh = [] /\ num_sets_allocated p' = num_sets_allocated p)
            \/ (num_sets_allocated p'
                = wrap32 (num_sets_allocated p + Z.of_nat (length fresh))
                /\ length fresh
                   = (if num_descriptors p =? 0 then 1%nat else 10%nat)
                /\ (num_descriptors p <> 0 ->
                    wrap32 (num_sets_allocated p + num_descriptors p)
                    <= ZINK_DEFAULT_MAX_DESCS)
                /\ (num_descriptors p = 0 ->
                    last_set pg type = None
                    \/ exists l zl, last_set pg type = Some l
                                    /\ sets st !! l = Some zl
                                    /\ zds_hash zl <> 0))).
  { intros p' ->. exact Halloc. }
  destruct (decide (num_descriptors p = 0)) as [H0|H0].
  - destruct (Hzero H0) as [Hps Hls]. exists p_a, z'.
    assert (Hnullp : forall t, is_null_pool st_a pg t = is_null_pool st pg t).
    { intros t. apply is_null_pool_ext; [done|]. intros q. rewrite Hpa.
      destruct (decide (q = Q)) as [->|Hq].
      - rewrite list_lookup_insert_eq, Hp by done. cbn. by rewrite Hnd.
      - by rewrite list_lookup_insert_ne. }
    split; try assumption.
    + by rewrite Hps, Hpa, list_lookup_insert_eq.
    + congruence.
    + by rewrite Hps, Hpa, length_insert.
    + intros q Hq. by rewrite Hps, Hpa, list_lookup_insert_ne.
    + right. split; [done|]. intros t. by rewrite Hls, Hnullp.
  - destruct (Hnz H0) as [-> Hps].
    eexists (set_desc_sets _ p_a), z'.
    split; try assumption.
    + rewrite Hps, Hpa, list_lookup_alter_eq, list_lookup_insert_eq by done.
      done.
    + congruence.
    + by rewrite Hps, Hpa, length_alter, length_insert.
    + intros q Hq.
      by rewrite Hps, Hpa, list_lookup_alter_ne, list_lookup_insert_ne.
    + intros m Hm. apply elem_of_pool_members in Hm. cbn in Hm.
      destruct Hm as [Hm|Hm].
      * apply list_elem_of_fmap in Hm as (e & -> & He).
        apply elem_of_hash_table_insert in He as [He| ->]; [|by right; left].
        apply Hmem, elem_of_pool_members. left.
        apply list_elem_of_fmap. by exists e.
      * apply Hmem, elem_of_pool_members. by right.
    + intros ?. done.
    + left. split; [|done]. intros t Ht. cbn. by rewrite decide_False.
Qed.

(** The same for the paths that only rewrite a table or the shell list of
    the pool before they reach [out]. *)
Lemma get_out_effect_tables st st_b pg Q p f ctx type is_compute zds hit
    st' pg' zds' hit' z z_a :
  get_out ZINK_SHADER_COUNT (update_pool Q f st_b) pg Q p ctx type is_compute
    (if negb (num_descriptors p =? 0)
     then descriptor_states ctx is_compute type else 0) zds hit
  = Ok (st', pg', zds', hit') ->
  pg_pool pg type = Some Q ->
  pools st !! Q = Some p ->
  pools st_b = pools st ->
  length (sets st_b) = length (sets st) ->
  (forall s, s <> zds -> sets st_b !! s = sets st !! s) ->
  sets st !! zds = Some z ->
  sets st_b !! zds = Some z_a ->
  zds_pool z_a = zds_pool z ->
  zds_hash z_a = zds_hash z ->
  num_descriptors (f p) = num_descriptors p ->
  num_sets_allocated (f p) = num_sets_allocated p ->
  (forall m, m ∈ pool_members (f p) -> m ∈ pool_members p) ->
  (num_descriptors p = 0 ->
   desc_sets (f p) = desc_sets p /\ free_desc_sets (f p) = free_desc_sets p) ->
  (last_set pg type = Some zds
   \/ (num_descriptors p <> 0 /\ zds ∈ pool_members p)) ->
  zds' = zds /\ hit' = hit
  /\ exists p' z', effect st pg ctx type is_compute st' pg' zds Q p p' z z' [].
Proof.
  intros H Hpool Hp Hps Hlen Hoth Hz Hza Hzp Hzh Hnd Hn Hmem Hnull Hsrc.
  eapply (get_out_effect st _ pg Q p (f p) _ _ _ _ _ _ _ _ _ [] z z_a)
    in H; try done; rewrite ?app_nil_r; try done.
  - cbn [pools update_pool with_pools]. rewrite Hps.
    by apply alter_insert_lookup.
  - intros m Hm. left. by apply Hmem.
  - destruct Hsrc as [?|?]; auto.
  - by left.
Qed.

Lemma get_out_set st pg Q p ctx type is_compute hash zds hit r :
  get_out ZINK_SHADER_COUNT st pg Q p ctx type is_compute hash zds hit = Ok r
  -> is_Some (sets st !! zds).
Proof.
  unfold get_out. intros H. apply result_bind_Ok in H as (z & Hz & _).
  apply deref_Ok in Hz. by exists z.
Qed.

(** The path through [allocate_desc_set]. *)
Lemma get_allocate_effect st pg Q p ctx type is_compute st' pg' zds hit :
  (allocate_desc_set vkAllocateDescriptorSets st pg type 1 is_compute
   ≫= fun '(st, alloc) =>
        deref alloc
        ≫= fun zds =>
             get_out ZINK_SHADER_COUNT st pg Q p ctx type is_compute
               (if negb (num_descriptors p =? 0)
                then descriptor_states ctx is_compute type else 0) zds
               false)
  = Ok (st', pg', zds, hit) ->
  pg_pool pg type = Some Q ->
  pools st !! Q = Some p ->
  (num_descriptors p <> 0 ->
   wrap32 (num_sets_allocated p + num_descriptors p)
   <= ZINK_DEFAULT_MAX_DESCS) ->
  (num_descriptors p = 0 ->
   last_set pg type = None
   \/ exists l zl, last_set pg type = Some l
                   /\ sets st !! l = Some zl /\ zds_hash zl <> 0) ->
  exists p' z z' fresh,
    effect st pg ctx type is_compute st' pg' zds Q p p' z z' fresh.
Proof.
  intros H Hpool Hp Hroom Hwhy.
  apply result_bind_Ok in H as ([st1' alloc] & Halloc & H).
  apply result_bind_Ok in H as (zds1 & Hzds1 & H).
  apply deref_Ok in Hzds1 as ->.
  destruct (allocate_desc_set_Some _ _ _ _ _ _ _ _ _ Hpool Hp Halloc)
    as (_ & -> & Hsets & _ & Hps).
  set (b := if num_descriptors p =? 0 then 1 else 10) in *.
  set (fresh := _ <$> seq 0 (Z.to_nat b)) in Hsets.
  assert (Hb : Z.to_nat b
               = if num_descriptors p =? 0 then 1%nat else 10%nat)
    by (subst b; by destruct (num_descriptors p =? 0)).
  assert (Hlen : length fresh = Z.to_nat b)
    by (subst fresh; by rewrite length_fmap, length_seq).
  assert (exists z0, fresh !! 0%nat = Some z0 /\ zds_pool z0 = Q
                     /\ zds_hash z0 = 0) as (z0 & Hz0 & Hz0p & Hz0h).
  { subst fresh. rewrite list_lookup_fmap, lookup_seq_lt by
      (rewrite Hb; destruct (num_descriptors p =? 0); lia).
    eexists. split; [done|]. done. }
  assert (Hzat : (sets st ++ fresh) !! length (sets st) = Some z0).
  { by rewrite lookup_app_r, Nat.sub_diag by lia. }
  eapply (get_out_effect st st1' pg Q p _ _ _ _ _ _ _ _ _ _ fresh z0 z0)
    in H as (-> & _ & p' & z' & H); try done.
  - by exists p', z0, z', fresh.
  - intros m Hm. apply elem_of_pool_members in Hm. cbn in Hm.
    destruct Hm as [Hm|[Hm|Hm]].
    + left. apply elem_of_pool_members. auto.
    + left. apply elem_of_pool_members. auto.
    + apply elem_of_app in Hm as [Hm|Hm].
      * left. apply elem_of_pool_members. auto.
      * right; right. apply elem_of_seq in Hm. lia.
  - by rewrite Hsets.
  - intros s _. by rewrite Hsets.
  - by rewrite Hsets.
  - subst fresh. apply Forall_fmap, Forall_forall. intros i _. done.
  - right; right. split; [done|]. intros Hnil. by rewrite Hnil in Hz0.
  - right. cbn. split_and!; try done.
    + rewrite Hlen, Z2Nat.id; [done|]. subst b.
      by destruct (num_descriptors p =? 0).
    + by rewrite Hlen.
Qed.

(** A lookup either flushes the batch and starts again, or has the effect
    [get_effect] describes. *)
Lemma get_effect_or_flush fuel st pg ctx type is_compute st' pg' zds hit :
  get' (S fuel) st pg ctx type is_compute = Ok (st', pg', zds, hit) ->
  (exists Q p st1,
     pg_pool pg type = Some Q /\ pools st !! Q = Some p
     /\ num_descriptors p <> 0
     /\ zink_flush_batch ZINK_SHADER_COUNT st = Ok st1
     /\ get' fuel st1 pg ctx type is_compute = Ok (st', pg', zds, hit))
  \/ (exists Q p p' z z' fresh,
        effect st pg ctx type is_compute st' pg' zds Q p p' z z' fresh).
Proof.
  intros H.
  apply get_unfold in H as (Q & p & br & Hpool & Hp & Hlook & H).
  cbn zeta in *.
  assert (HQ : (Q < length (pools st))%nat) by by eapply lookup_lt_Some.
  apply get_lookup_inv in Hlook
    as [(l & z & st_a & (Hl & Hz & Hh & Hk) & -> & Hsta)
       |(Hno & [(Hnd & Hlook)|[(Hnd & l & z & Hl & Hz & Hh & ->)
                              |(Hnd & -> & Hwhy)]])].
  - (* the shortcut *)
    right. exists Q, p.
    destruct Hsta as [->|(Hnd & _ & i & e & _ & ->)].
    + eapply (get_out_effect st st pg Q p p _ _ _ _ _ _ _ _ _ [] z z)
        in H as (-> & _ & p' & z' & H); rewrite ?app_nil_r; try done.
      * by eexists _, _, _, _.
      * symmetry. by apply list_insert_id.
      * auto.
      * auto.
      * by left.
    + eapply (get_out_effect_tables st st) in H
        as (-> & _ & p' & z' & H); try done.
      * by eexists _, _, _, _.
      * apply pool_members_remove_free.
      * auto.
  - apply get_lookup_pool_inv in Hlook
      as [(i & e & z & Hs & Hz & Hv & ->)
         |[(_ & i & e & z & Hs & Hz & ->)
          |[(_ & _ & zds' & Hlast & ->)
           |[(_ & _ & _ & he & zds' & Hscan & ->)
            |(_ & _ & _ & _ & [(Hfull & ->)|(Hroom & ->)])]]]].
    + (* a hit in the active map *)
      right. exists Q, p, p, z.
      apply search_Some in Hs as (Hi & _ & _).
      apply get_quick_out_inv in H
        as (-> & -> & -> & Hps & _ & Hlen & Hother & z1 & rc & Hz1 & Hz').
      rewrite Hz in Hz1. injection Hz1 as <-.
      exists (set_reference_count rc (set_invalid false z)), [].
      split; rewrite ?app_nil_r; try done; try congruence.
      * by left.
      * right; left. split; [done|]. apply elem_of_pool_members. left.
        apply list_elem_of_fmap. exists e. split; [done|].
        by eapply list_elem_of_lookup_2.
      * auto.
      * by left.
      * cbn. by rewrite decide_True.
      * left. split; [|done]. intros t Ht. cbn. by rewrite decide_False.
    + (* a hit in the recycle map *)
      right. exists Q, p.
      apply search_Some in Hs as (Hi & _ & _).
      eapply (get_out_effect_tables st st) in H
        as (-> & _ & p' & z' & H); try done.
      * by eexists _, _, _, _.
      * apply pool_members_remove_free.
      * right. split; [done|]. apply elem_of_pool_members. right; left.
        apply list_elem_of_fmap. exists e. split; [done|].
        by eapply list_elem_of_lookup_2.
    + (* a shell *)
      right. exists Q, p.
      destruct (get_out_set _ _ _ _ _ _ _ _ _ _ _ H) as [z Hz].
      cbn [sets update_pool with_pools] in Hz.
      eapply (get_out_effect_tables st st) in H
        as (-> & _ & p' & z' & H); try done.
      * by eexists _, _, _, _.
      * apply pool_members_pop.
      * right. split; [done|]. apply elem_of_pool_members. right; right.
        by apply last_Some_elem_of.
    + (* the scan of the recycle map *)
      right. exists Q, p.
      apply scan_free_desc_sets_selects in Hscan
        as (z & e & Hz & _ & _ & Hhe & <-).
      eapply (get_out_effect_tables st
                (zink_descriptor_set_invalidate (he_data e) st)
                _ _ _ _ _ _ _ _ _ _ _ _ _ z (set_invalid true z)) in H
        as (-> & _ & p' & z' & H); try done.
      * by eexists _, _, _, _.
      * cbn. by rewrite length_alter.
      * intros s Hs. cbn. by rewrite list_lookup_alter_ne.
      * cbn. by rewrite list_lookup_alter_eq, Hz.
      * apply pool_members_remove_free.
      * right. split; [done|]. apply elem_of_pool_members. right; left.
        apply list_elem_of_fmap. exists e. split; [done|].
        by eapply list_elem_of_lookup_2.
    + (* the pool is full *)
      left. apply result_bind_Ok in H as (st1 & Hflush & H).
      by exists Q, p, st1.
    + (* a new bucket *)
      right. exists Q, p.
      by eapply get_allocate_effect.
  - (* the placeholder of a pool without descriptors *)
    right. exists Q, p, p, z.
    apply get_quick_out_inv in H
      as (-> & -> & -> & Hps & _ & Hlen & Hother & z1 & rc & Hz1 & Hz').
    rewrite Hz in Hz1. injection Hz1 as <-.
    exists (set_reference_count rc (set_invalid false z)), [].
    split; rewrite ?app_nil_r; try done; try congruence.
    + by left.
    + by left.
    + auto.
    + by left.
    + cbn. by rewrite decide_True.
    + left. split; [|done]. intros t Ht. cbn. by rewrite decide_False.
  - (* the first set of a pool without descriptors *)
    right. exists Q, p.
    by eapply get_allocate_effect.
Qed.

End Effect.

(** ** The invariant is kept *)

Lemma wrap32_small z : 0 <= z < 2 ^ 32 -> wrap32 z = z.
Proof. apply Z.mod_small. Qed.

(** Whether a set is a placeholder only depends on the numbers of
    descriptors of the pools. *)
Lemma null_set_ext st st' z :
  (forall q, num_descriptors <$> pools st' !! q
             = num_descriptors <$> pools st !! q) ->
  null_set st' z <-> null_set st z.
Proof.
  intros Hnd. unfold null_set. specialize (Hnd (zds_pool z)).
  destruct (pools st' !! zds_pool z) as [p'|],
           (pools st !! zds_pool z) as [p|]; simplify_eq/=.
  - split; intros (? & [= <-] & ?); eexists; split; eauto; congruence.
  - split; intros (? & ? & ?); done.
Qed.

(** The number of sets created for a pool only reads the [pool] fields. *)
Lemma filter_pool_length (l l' : list zink_descriptor_set) q :
  zds_pool <$> l = zds_pool <$> l' ->
  length (filter (fun z => zds_pool z = q) l)
  = length (filter (fun z => zds_pool z = q) l').
Proof.
  revert l'. induction l as [|x l IH]; intros [|y l'] H; try done.
  injection H as Hxy H. rewrite !filter_cons, Hxy.
  case_decide; cbn; by rewrite (IH l').
Qed.

Lemma sets_created_ext st st' q :
  zds_pool <$> sets st' = zds_pool <$> sets st ->
  sets_created st' q = sets_created st q.
Proof. intros H. unfold sets_created. by rewrite (filter_pool_length _ _ _ H). Qed.

Lemma filter_pool_fresh (fresh : list zink_descriptor_set) Q q :
  Forall (fun f => zds_pool f = Q /\ zds_hash f = 0) fresh ->
  length (filter (fun z => zds_pool z = q) fresh)
  = if decide (q = Q) then length fresh else 0%nat.
Proof.
  induction 1 as [|x l [Hx _] _ IH]; [by case_decide|].
  rewrite filter_cons, Hx. repeat case_decide; cbn; try congruence; lia.
Qed.

Section Invariant.

Variable ZINK_DEFAULT_MAX_DESCS : Z.
Hypothesis ceiling_multiple : (10 | ZINK_DEFAULT_MAX_DESCS).
Hypothesis ceiling_positive : 0 < ZINK_DEFAULT_MAX_DESCS.

Abbreviation inv := (cache_inv ZINK_DEFAULT_MAX_DESCS).

(** The counter of the pool a lookup allocates from stays within the
    ceiling. *)
Lemma allocated_within_ceiling nd n n' (len : nat) :
  0 <= nd -> nd + ZINK_DEFAULT_MAX_DESCS < 2 ^ 32 ->
  0 <= n <= ZINK_DEFAULT_MAX_DESCS ->
  (nd <> 0 -> (10 | n)) ->
  n' = wrap32 (n + Z.of_nat len) ->
  len = (if nd =? 0 then 1%nat else 10%nat) ->
  (nd <> 0 -> wrap32 (n + nd) <= ZINK_DEFAULT_MAX_DESCS) ->
  (nd = 0 -> n = 0) ->
  (0 <= n' <= ZINK_DEFAULT_MAX_DESCS
   /\ (nd <> 0 -> (10 | n')) /\ (nd = 0 -> n' <= 1))
  /\ n' = n + Z.of_nat len.
Proof.
  intros Hnd Hbound Hn Hdiv -> -> Hroom Hzero.
  destruct (Z.eqb_spec nd 0) as [H0|H0].
  - rewrite (Hzero H0), wrap32_small by lia. split_and!; try done; lia.
  - specialize (Hdiv H0). specialize (Hroom H0).
    rewrite wrap32_small in Hroom by lia.
    destruct Hdiv as [a ->]. destruct ceiling_multiple as [b Hb].
    rewrite wrap32_small by lia.
    split_and!; try lia.
    intros _. exists (a + 1). lia.
Qed.

(** A lookup that does not flush keeps the invariant. *)
Lemma get_effect_inv st pg ctx type is_compute st' pg' zds Q p p' z z'
    fresh :
  inv st pg ->
  get_effect ZINK_DEFAULT_MAX_DESCS st pg ctx type is_compute st' pg' zds
    Q p p' z z' fresh ->
  inv st' pg'.
Proof.
  intros [Hcnt Hmex Hlex Hmk Hlk Hnh Hna Hsh Hcr] E.
  destruct E as [Epool Ebefore Eafter Elen Eoth Ezb Eza Ezp Ezh Efresh Esrc
                 Eplen Eopools End Emem Enull Ealloc Epg Els Elss].
  set (len := length (sets st)) in *.
  (* the pools keep their numbers of descriptors *)
  assert (Hnd : forall q, num_descriptors <$> pools st' !! q
                          = num_descriptors <$> pools st !! q).
  { intros q. destruct (decide (q = Q)) as [->|Hq].
    - rewrite Eafter, Ebefore. cbn. by rewrite End.
    - by rewrite Eopools. }
  assert (Hns : forall zz, null_set st' zz <-> null_set st zz)
    by (intros zz; by apply null_set_ext).
  assert (Hnp : forall t, is_null_pool st' pg' t = is_null_pool st pg t)
    by (intros t; by apply is_null_pool_ext).
  (* the sets of the new state *)
  assert (Hzlt : (zds < length (sets st ++ fresh))%nat)
    by by eapply lookup_lt_Some.
  assert (Hset : forall m zm, sets st' !! m = Some zm ->
            (m = zds /\ zm = z')
            \/ (m <> zds /\ sets st !! m = Some zm)
            \/ (m <> zds /\ (len <= m)%nat /\ zds_pool zm = Q
                /\ zds_hash zm = 0)).
  { intros m zm Hm. destruct (decide (m = zds)) as [->|Hne].
    - left. split; [done|]. congruence.
    - right. rewrite Eoth in Hm by done.
      apply lookup_app_Some in Hm as [Hm|[Hge Hm]]; [by left|right].
      split; [done|]. split; [done|].
      eapply Forall_lookup_1 in Efresh; [|exact Hm]. done. }
  (* the set returned is of the kind of the pool *)
  assert (Hzk : num_descriptors p = 0 <-> null_set st z).
  { destruct Esrc as [Hl|[[Hnz Hm]|[-> Hf]]].
    - pose proof (Hlex _ _ Hl) as Hlt.
      rewrite lookup_app_l in Ezb by done. by eapply Hlk.
    - pose proof (Hmex _ _ _ Ebefore Hm) as Hlt.
      rewrite lookup_app_l in Ezb by done.
      split; [done|]. intros Hz. by eapply Hmk in Hz.
    - rewrite lookup_app_r, Nat.sub_diag in Ezb by done.
      eapply Forall_lookup_1 in Efresh as [HzQ _]; [|exact Ezb].
      unfold null_set. rewrite HzQ, Ebefore. split.
      + intros ?. by exists p.
      + by intros (? & [= <-] & ?). }
  assert (Hzk' : num_descriptors p = 0 <-> null_set st z').
  { rewrite Hzk. unfold null_set. by rewrite Ezp. }
  (* the counter of a pool without descriptors that allocates was 0 *)
  assert (Hfirst : num_descriptors p = 0 -> fresh <> [] ->
                   num_sets_allocated p = 0).
  { intros H0 Hf.
    destruct Ealloc as [[? _]|(_ & _ & _ & Hwhy)]; [done|].
    destruct (Hcnt _ _ Ebefore) as (_ & _ & Hn & _ & Hone).
    destruct (decide (num_sets_allocated p = 0)) as [|Hn0]; [done|].
    destruct (Hna _ _ _ Epool Ebefore H0 Hn0) as [l Hl].
    destruct (Hwhy H0) as [?|(l' & zl & Hl' & Hzl & Hh)]; [congruence|].
    exfalso. apply Hh. eapply Hnh; [done|]. by eapply Hlk. }
  assert (Hflen : fresh <> [] -> (0 < length fresh)%nat)
    by (destruct fresh; cbn; [done|lia]).
  (* how the shortcuts change *)
  assert (Hlsc : forall t,
            last_set pg' t = last_set pg t
            \/ (last_set pg' t = Some zds
                /\ (t = type \/ (num_descriptors p = 0
                                 /\ is_null_pool st pg t = true)))).
  { intros t. destruct (decide (t = type)) as [->|Ht]; [right; auto|].
    destruct Elss as [[Hsame _]|[H0 Hall]]; [left; auto|].
    rewrite Hall, decide_False by done.
    destruct (is_null_pool st pg t) eqn:Hnt; auto. }
  assert (Hnull_type : forall t q pq,
            pg_pool pg t = Some q -> pools st !! q = Some pq ->
            (is_null_pool st pg t = true <-> num_descriptors pq = 0)).
  { intros t q pq Ht Hq. unfold is_null_pool. rewrite Ht, Hq. lia. }
  assert (Hold : forall q pq', pools st' !! q = Some pq' ->
            exists pq, pools st !! q = Some pq
                       /\ num_descriptors pq' = num_descriptors pq
                       /\ (q <> Q -> pq' = pq)).
  { intros q pq' Hq. destruct (decide (q = Q)) as [->|Hne].
    - exists p. split; [done|]. split; [congruence|done].
    - rewrite Eopools in Hq by done. by exists pq'. }
  split.
  - (* counters *)
    intros q pq' Hq. destruct (decide (q = Q)) as [->|Hne].
    + assert (pq' = p') as -> by congruence.
      destruct (Hcnt _ _ Ebefore) as (Hnd0 & Hbound & Hn & Hdiv & Hone).
      rewrite End. split; [done|]. split; [done|].
      destruct Ealloc as [[_ ->]|(Hn' & Hl & Hroom & _)]; [done|].
      eapply (proj1 (allocated_within_ceiling _ _ _ _ Hnd0 Hbound Hn Hdiv
                       Hn' Hl Hroom _)).
      Unshelve. intros H0. apply Hfirst; [done|]. intros ->.
      rewrite H0 in Hl. done.
    + rewrite Eopools in Hq by done. by eapply Hcnt.
  - (* the members exist *)
    intros q pq' m Hq Hm. rewrite Elen, length_app. fold len.
    destruct (decide (q = Q)) as [->|Hne].
    + assert (pq' = p') as -> by congruence.
      destruct (Emem _ Hm) as [Hm'|[->|?]]; [|by rewrite length_app in Hzlt
                                            |lia].
      pose proof (Hmex _ _ _ Ebefore Hm'). lia.
    + rewrite Eopools in Hq by done. pose proof (Hmex _ _ _ Hq Hm). lia.
  - (* the shortcuts exist *)
    intros t l Hl. rewrite Elen.
    destruct (Hlsc t) as [Hsame|[Hz _]].
    + rewrite Hsame in Hl. pose proof (Hlex _ _ Hl).
      rewrite length_app. lia.
    + congruence.
  - (* the members of pools with descriptors *)
    intros q pq' m zm Hq Hnz Hm Hzm Hnull. apply Hns in Hnull.
    destruct (Hold _ _ Hq) as (pq & Hpq & Hndq & Hsame).
    destruct (Hset _ _ Hzm) as [[-> ->]|[[Hne Hzm']|(Hne & Hge & HzQ & _)]].
    + apply Hzk' in Hnull.
      destruct (decide (q = Q)) as [->|HqQ]; [congruence|].
      rewrite (Hsame HqQ) in Hm.
      pose proof (Hmex _ _ _ Hpq Hm) as Hlt.
      rewrite lookup_app_l in Ezb by done.
      eapply (Hmk q pq zds z); try done; [congruence|].
      by apply Hzk.
    + destruct (decide (q = Q)) as [->|HqQ].
      * assert (pq' = p') as -> by congruence.
        assert (pq = p) as -> by congruence.
        destruct (Emem _ Hm) as [Hm'|[?|?]]; [|done|].
        -- eapply (Hmk Q p m zm); try done. congruence.
        -- apply lookup_lt_Some in Hzm'. fold len in Hzm'. lia.
      * rewrite (Hsame HqQ) in Hm.
        eapply (Hmk q pq m zm); try done. congruence.
    + destruct Hnull as (pn & Hpn & Hn0). rewrite HzQ, Ebefore in Hpn.
      injection Hpn as <-.
      destruct (decide (q = Q)) as [->|HqQ].
      * assert (pq = p) as -> by congruence. congruence.
      * rewrite (Hsame HqQ) in Hm.
        pose proof (Hmex _ _ _ Hpq Hm). fold len in H. lia.
  - (* the kind of the shortcuts *)
    intros t q pq' l zl Ht Hq Hl Hzl. rewrite Epg in Ht. rewrite Hns.
    destruct (Hold _ _ Hq) as (pq & Hpq & Hndq & Hsame). rewrite Hndq.
    destruct (Hlsc t) as [Hs|[Hz [->|[H0 Hnt]]]].
    + rewrite Hs in Hl. pose proof (Hlex _ _ Hl) as Hlt.
      destruct (Hset _ _ Hzl)
        as [[-> ->]|[[Hne Hzl']|(Hne & Hge & _)]].
      * rewrite lookup_app_l in Ezb by done.
        rewrite (Hlk _ _ _ _ _ Ht Hpq Hl Ezb).
        unfold null_set. by rewrite Ezp.
      * by eapply Hlk.
      * fold len in Hlt. lia.
    + assert (l = zds) as -> by congruence.
      assert (zl = z') as -> by congruence.
      assert (q = Q) as -> by congruence.
      assert (pq = p) as -> by congruence. done.
    + assert (l = zds) as -> by congruence.
      assert (zl = z') as -> by congruence.
      apply (Hnull_type _ _ _ Ht Hpq) in Hnt.
      split; [intros _; by apply Hzk'|done].
  - (* the hash of the placeholders *)
    intros m zm Hzm Hnull. apply Hns in Hnull.
    destruct (Hset _ _ Hzm) as [[-> ->]|[[Hne Hzm']|(Hne & Hge & _ & Hh)]].
    + apply Hzk' in Hnull as H0.
      destruct Ezh as [->| ->]; [|by rewrite (proj2 (Z.eqb_eq _ _) H0)].
      apply Hzk in H0.
      apply lookup_app_Some in Ezb as [Hz|[_ Hz]].
      * by eapply Hnh.
      * eapply Forall_lookup_1 in Efresh; [|exact Hz]. by destruct Efresh.
    + by eapply Hnh.
    + done.
  - (* a pool without descriptors that has allocated *)
    intros t q pq' Ht Hq H0 Hn0. rewrite Epg in Ht.
    destruct (Hold _ _ Hq) as (pq & Hpq & Hndq & Hsame).
    destruct (Hlsc t) as [Hs|[-> _]]; [|by eexists]. rewrite Hs.
    destruct (decide (q = Q)) as [->|HqQ].
    + assert (pq' = p') as -> by congruence.
      assert (pq = p) as -> by congruence.
      destruct Ealloc as [[_ Hn]|(_ & Hl & _)].
      * eapply (Hna t Q p); try done; congruence.
      * rewrite Hndq in H0.
        rewrite (proj2 (Z.eqb_eq _ _) H0) in Hl.
        destruct Elss as [[_ Hq0]|[_ Hall]].
        -- destruct (Hq0 H0) as [-> _]. done.
        -- specialize (Hall t). rewrite Hs in Hall.
           assert (Hnt : is_null_pool st pg t = true)
             by by apply (Hnull_type _ _ _ Ht Hpq).
           rewrite Hnt in Hall. rewrite Hall. case_decide; by eexists.
    + rewrite (Hsame HqQ) in *. by eapply (Hna t q pq).
  - (* the shortcuts of the types without descriptors are shared *)
    intros t t' Hnt Hnt'. rewrite Hnp in Hnt, Hnt'.
    destruct Elss as [[Hsame Hq0]|[H0 Hall]].
    + assert (Hkeep : forall u, is_null_pool st pg u = true ->
                last_set pg' u = last_set pg u).
      { intros u Hu. destruct (decide (u = type)) as [->|Hne]; [|auto].
        apply (Hnull_type _ _ _ Epool Ebefore) in Hu.
        destruct (Hq0 Hu) as [_ ->]. done. }
      rewrite !Hkeep by done. by apply Hsh.
    + rewrite !Hall, Hnt, Hnt'. by repeat case_decide.
  - (* the counter is the number of sets created *)
    intros q pq' Hq.
    assert (Hpools : zds_pool <$> sets st' = zds_pool <$> (sets st ++ fresh)).
    { apply list_eq. intros m. rewrite !list_lookup_fmap.
      destruct (decide (m = zds)) as [->|Hne].
      - rewrite Eza, Ezb. cbn. by rewrite Ezp.
      - by rewrite Eoth. }
    unfold sets_created. rewrite (filter_pool_length _ _ _ Hpools).
    rewrite filter_app, length_app, (filter_pool_fresh fresh Q q Efresh).
    destruct (decide (q = Q)) as [->|Hne].
    + assert (pq' = p') as -> by congruence.
      pose proof (Hcr _ _ Ebefore) as Hc. unfold sets_created in Hc.
      destruct (Hcnt _ _ Ebefore) as (Hnd0 & Hbound & Hn & Hdiv & Hone).
      destruct Ealloc as [[-> ->]|(Hn' & Hl & Hroom & _)]; [cbn; lia|].
      rewrite (proj2 (allocated_within_ceiling _ _ _ _ Hnd0 Hbound Hn Hdiv
                        Hn' Hl Hroom
                        ltac:(intros H0; apply Hfirst; [done|]; intros ->;
                              rewrite H0 in Hl; done))).
      lia.
    + rewrite Eopools in Hq by done. rewrite <- (Hcr _ _ Hq).
      unfold sets_created. lia.
Qed.

End Invariant.

(** ** The calls other than a lookup *)

Lemma frame_step_refl st : frame_step st st.
Proof.
  split_and!.
  - apply Forall_Forall2_diag, Forall_forall. done.
  - apply Forall_Forall2_diag, Forall_forall. done.
  - intros q p p' m Hp Hp' Hm. left. congruence.
Qed.

Lemma frame_step_trans st1 st2 st3 :
  frame_step st1 st2 -> frame_step st2 st3 -> frame_step st1 st3.
Proof.
  intros (Hs & Hp & Hm) (Hs' & Hp' & Hm'). split_and!.
  - eapply Forall2_trans; [|exact Hs|exact Hs'].
    intros x y z [? ?] [? ?]. split; congruence.
  - eapply Forall2_trans; [|exact Hp|exact Hp'].
    intros x y z [? ?] [? ?]. split; congruence.
  - intros q p1 p3 m Hp1 Hp3 Hin.
    destruct (Forall2_lookup_l _ _ _ _ _ Hp Hp1) as (p2 & Hp2 & _).
    destruct (Hm' _ _ _ _ Hp2 Hp3 Hin) as [Hin2|(z2 & Hz2 & Hq)].
    + by eapply Hm.
    + right. destruct (Forall2_lookup_r _ _ _ _ _ Hs Hz2)
        as (z1 & Hz1 & Hpool & _).
      exists z1. split; [done|]. congruence.
Qed.

(** A step that leaves the pools alone and the pool and hash of every set
    is a frame step. *)
Lemma frame_step_sets st st' :
  pools st' = pools st ->
  Forall2 (fun z z' => zds_pool z' = zds_pool z /\ zds_hash z' = zds_hash z)
    (sets st) (sets st') ->
  frame_step st st'.
Proof.
  intros Hp Hs. split_and!; [done| |].
  - rewrite Hp. apply Forall_Forall2_diag, Forall_forall. done.
  - intros q p p' m Hq Hq' Hm. left. congruence.
Qed.

Lemma invalidated_frame z z' :
  invalidated z z' -> zds_pool z' = zds_pool z /\ zds_hash z' = zds_hash z.
Proof. by intros [->| ->]. Qed.

Lemma same_contents_frame z z' :
  same_contents z z' -> zds_pool z' = zds_pool z /\ zds_hash z' = zds_hash z.
Proof. by intros (rc & r & ->). Qed.

Lemma zink_descriptor_set_invalidate_frame st zds :
  frame_step st (zink_descriptor_set_invalidate zds st).
Proof.
  apply frame_step_sets; [done|]. cbn.
  eapply Forall2_impl; [apply invalidated_alter|].
  intros; by apply invalidated_frame.
Qed.

Lemma zink_descriptor_set_refs_clear_frame st refs ptr :
  frame_step st (zink_descriptor_set_refs_clear st refs ptr).1.
Proof.
  cbn. destruct (refs_clear_fold_frame ptr refs st) as (Hp & _ & Hs).
  apply frame_step_sets; [done|].
  eapply Forall2_impl; [exact Hs|]. intros; by apply invalidated_frame.
Qed.

Lemma desc_set_ref_add_frame st zds refs ref_ptr ptr :
  frame_step st (desc_set_ref_add st zds refs ref_ptr ptr).1.
Proof.
  apply frame_step_sets; [done|]. cbn.
  apply Forall_Forall2_diag, Forall_forall. done.
Qed.

Section RecycleStep.

Variable ZINK_SHADER_COUNT : nat.

Lemma zink_descriptor_set_recycle_step st zds st' :
  zink_descriptor_set_recycle ZINK_SHADER_COUNT st zds = Ok st' ->
  frame_step st st'.
Proof.
  intros H.
  pose proof (zink_descriptor_set_recycle_frame _ _ _ _ H)
    as (_ & _ & Hs & Hp).
  split_and!.
  - eapply Forall2_impl; [exact Hs|]. intros; by apply same_contents_frame.
  - eapply Forall2_impl; [exact Hp|]. by intros ?? (? & ? & _).
  - unfold zink_descriptor_set_recycle in H.
    apply result_bind_Ok in H as (z & Hz & H). apply deref_Ok in Hz.
    intros q p p' m Hq Hq' Hm.
    destruct (reference_count z =? 1); cbn [negb] in H;
      [|injection H as <-; left; congruence].
    apply result_bind_Ok in H as (p0 & Hp0 & H). apply deref_Ok in Hp0.
    destruct (num_descriptors p0 =? 0);
      [injection H as <-; left; congruence|].
    destruct (_mesa_hash_table_search_pre_hashed _ _ _ _ _) as [[he e]|];
      [|injection H as <-; left; congruence].
    destruct (decide (q = zds_pool z)) as [->|Hne].
    + assert (p = p0) as -> by congruence.
      assert (m ∈ pool_members p0 \/ m = zds) as [?| ->];
        [|by left|right; by exists z].
      destruct (invalid z); injection H as <-;
        cbn [pools update_pool update_set with_pools with_sets
             zink_descriptor_set_invalidate] in Hq';
        rewrite !list_lookup_alter_eq, Hp0 in Hq'; injection Hq' as <-;
        apply elem_of_pool_members in Hm; cbn in Hm;
        rewrite elem_of_pool_members.
      * destruct Hm as [Hm|[Hm|Hm]]; auto.
        -- left. left. apply list_elem_of_fmap in Hm as (e' & -> & He').
           apply list_elem_of_fmap. exists e'. split; [done|].
           by eapply elem_of_hash_table_remove.
        -- apply elem_of_app in Hm as [?|Hm]; auto.
           apply list_elem_of_singleton in Hm. auto.
      * destruct Hm as [Hm|[Hm|Hm]]; auto.
        -- left. left. apply list_elem_of_fmap in Hm as (e' & -> & He').
           apply list_elem_of_fmap. exists e'. split; [done|].
           by eapply elem_of_hash_table_remove.
        -- apply list_elem_of_fmap in Hm as (e' & -> & He').
           apply elem_of_hash_table_insert in He' as [He'| ->];
             [|by right].
           left. right; left. apply list_elem_of_fmap. by exists e'.
    + left. destruct (invalid z); injection H as <-;
        cbn [pools update_pool update_set with_pools with_sets
             zink_descriptor_set_invalidate] in Hq';
        rewrite !list_lookup_alter_ne in Hq' by done; congruence.
Qed.

Lemma zink_batch_release_step zs st st' :
  zink_batch_release ZINK_SHADER_COUNT zs st = Ok st' -> frame_step st st'.
Proof.
  revert st. induction zs as [|zds zs IH]; intros st;
    cbn [zink_batch_release].
  - intros [= <-]. apply frame_step_refl.
  - intros H. apply result_bind_Ok in H as (st1 & H1 & H).
    apply zink_descriptor_set_recycle_step in H1. apply IH in H.
    eapply frame_step_trans; [|exact H].
    eapply frame_step_trans; [|exact H1].
    apply frame_step_sets; [done|]. cbn.
    apply Forall2_alter_r.
    + apply Forall_Forall2_diag, Forall_forall. done.
    + intros x y _ _ [? ?]. by destruct y.
Qed.

Lemma zink_flush_batch_step st st' :
  zink_flush_batch ZINK_SHADER_COUNT st = Ok st' -> frame_step st st'.
Proof.
  unfold zink_flush_batch. intros H.
  apply result_bind_Ok in H as (st1 & H1 & H). injection H as <-.
  apply zink_batch_release_step in H1.
  eapply frame_step_trans; [exact H1|]. by apply frame_step_sets;
    [|apply Forall_Forall2_diag, Forall_forall].
Qed.

End RecycleStep.

(** A frame step keeps the invariant. *)
Lemma cache_inv_frame (ZINK_DEFAULT_MAX_DESCS : Z) st st' pg :
  cache_inv ZINK_DEFAULT_MAX_DESCS st pg ->
  frame_step st st' ->
  cache_inv ZINK_DEFAULT_MAX_DESCS st' pg.
Proof.
  intros [Hcnt Hmex Hlex Hmk Hlk Hnh Hna Hsh Hcr] (Hs & Hp & Hm).
  assert (Hlen : length (sets st') = length (sets st))
    by (symmetry; by eapply Forall2_length).
  assert (Hnd : forall q, num_descriptors <$> pools st' !! q
                          = num_descriptors <$> pools st !! q).
  { intros q. destruct (pools st !! q) as [p|] eqn:Hq.
    - destruct (Forall2_lookup_l _ _ _ _ _ Hp Hq) as (p' & -> & Hd & _).
      cbn. by rewrite Hd.
    - apply lookup_ge_None in Hq. apply Forall2_length in Hp.
      rewrite (proj2 (lookup_ge_None _ _)); [done|lia]. }
  assert (Hns : forall zz, null_set st' zz <-> null_set st zz)
    by (intros zz; by apply null_set_ext).
  assert (Hnp : forall t, is_null_pool st' pg t = is_null_pool st pg t)
    by (intros t; by apply is_null_pool_ext).
  assert (Hold : forall q p', pools st' !! q = Some p' ->
            exists p, pools st !! q = Some p
                      /\ num_descriptors p' = num_descriptors p
                      /\ num_sets_allocated p' = num_sets_allocated p).
  { intros q p' Hq.
    destruct (Forall2_lookup_r _ _ _ _ _ Hp Hq) as (p & ? & ? & ?).
    by exists p. }
  assert (Hsold : forall m z', sets st' !! m = Some z' ->
            exists z, sets st !! m = Some z
                      /\ zds_pool z' = zds_pool z
                      /\ zds_hash z' = zds_hash z).
  { intros m z' Hz'.
    destruct (Forall2_lookup_r _ _ _ _ _ Hs Hz') as (z & ? & ? & ?).
    by exists z. }
  assert (Hnsz : forall z z', zds_pool z' = zds_pool z ->
            (null_set st z' <-> null_set st z)).
  { intros z z' Hpool. unfold null_set. by rewrite Hpool. }
  split.
  - intros q p' Hq. destruct (Hold _ _ Hq) as (p & Hpq & -> & ->).
    by eapply Hcnt.
  - intros q p' m Hq Hin. rewrite Hlen.
    destruct (Hold _ _ Hq) as (p & Hpq & _).
    destruct (Hm _ _ _ _ Hpq Hq Hin) as [Hin'|(z & Hz & _)].
    + by eapply Hmex.
    + by eapply lookup_lt_Some.
  - intros t l Hl. rewrite Hlen. by eapply Hlex.
  - intros q p' m z' Hq Hnz Hin Hz' Hnull. apply Hns in Hnull.
    destruct (Hold _ _ Hq) as (p & Hpq & Hd & _).
    destruct (Hsold _ _ Hz') as (z & Hz & Hzp & _).
    apply (Hnsz _ _ Hzp) in Hnull.
    destruct (Hm _ _ _ _ Hpq Hq Hin) as [Hin'|(z0 & Hz0 & Hzq)].
    + eapply (Hmk q p m z); try done. congruence.
    + assert (z0 = z) as -> by congruence.
      destruct Hnull as (pn & Hpn & Hn0). rewrite Hzq, Hpq in Hpn.
      injection Hpn as <-. congruence.
  - intros t q p' l z' Ht Hq Hl Hz'.
    destruct (Hold _ _ Hq) as (p & Hpq & -> & _).
    destruct (Hsold _ _ Hz') as (z & Hz & Hzp & _).
    rewrite Hns, (Hnsz _ _ Hzp). by eapply Hlk.
  - intros m z' Hz' Hnull. apply Hns in Hnull.
    destruct (Hsold _ _ Hz') as (z & Hz & Hzp & ->).
    apply (Hnsz _ _ Hzp) in Hnull. by eapply Hnh.
  - intros t q p' Ht Hq H0 Hn0.
    destruct (Hold _ _ Hq) as (p & Hpq & Hd & Hn).
    eapply (Hna t q p); try done; congruence.
  - intros t t'. rewrite !Hnp. apply Hsh.
  - intros q p' Hq. destruct (Hold _ _ Hq) as (p & Hpq & _ & ->).
    rewrite <- (Hcr _ _ Hpq). apply sets_created_ext.
    apply list_eq. intros m. rewrite !list_lookup_fmap.
    destruct (sets st' !! m) as [z'|] eqn:Hz'.
    + destruct (Hsold _ _ Hz') as (z & -> & Hzp & _). cbn. by rewrite Hzp.
    + apply lookup_ge_None in Hz'.
      rewrite (proj2 (lookup_ge_None _ _)); [done|lia].
Qed.

Section GetInvariant.

Variable ZINK_SHADER_COUNT : nat.
Variable ZINK_DEFAULT_MAX_DESCS : Z.
Variable NDEBUG : bool.
Variable vkAllocateDescriptorSets : zink_state -> nat -> Z -> bool.
Hypothesis ceiling_multiple : (10 | ZINK_DEFAULT_MAX_DESCS).
Hypothesis ceiling_positive : 0 < ZINK_DEFAULT_MAX_DESCS.

(** [zink_descriptor_set_get] keeps the invariant, flushes included. *)
Lemma zink_descriptor_set_get_inv fuel st pg ctx type is_compute
    st' pg' zds hit :
  cache_inv ZINK_DEFAULT_MAX_DESCS st pg ->
  zink_descriptor_set_get ZINK_SHADER_COUNT ZINK_DEFAULT_MAX_DESCS NDEBUG
    vkAllocateDescriptorSets
    fuel st pg ctx type is_compute = Ok (st', pg', zds, hit) ->
  cache_inv ZINK_DEFAULT_MAX_DESCS st' pg'.
Proof.
  revert st. induction fuel as [|fuel IH]; intros st Hinv H; [done|].
  apply get_effect_or_flush in H
    as [(Q & p & st1 & _ & _ & _ & Hflush & H)
       |(Q & p & p' & z & z' & fresh & E)].
  - apply zink_flush_batch_step in Hflush.
    eapply IH; [|exact H]. by eapply cache_inv_frame.
  - by eapply get_effect_inv.
Qed.

End GetInvariant.

(** ** The ceiling of a pool *)

Section Capacity.

Variable ZINK_SHADER_COUNT : nat.
Variable ZINK_DEFAULT_MAX_DESCS : Z.
Variable NDEBUG : bool.
Variable vkAllocateDescriptorSets : zink_state -> nat -> Z -> bool.
Hypothesis ceiling_multiple : (10 | ZINK_DEFAULT_MAX_DESCS).
Hypothesis ceiling_positive : 0 < ZINK_DEFAULT_MAX_DESCS.

Abbreviation run_call' :=
  (run_call ZINK_SHADER_COUNT ZINK_DEFAULT_MAX_DESCS NDEBUG
     vkAllocateDescriptorSets).
Abbreviation run_calls' :=
  (run_calls ZINK_SHADER_COUNT ZINK_DEFAULT_MAX_DESCS NDEBUG
     vkAllocateDescriptorSets).

Lemma initial_inv st pg :
  initial ZINK_DEFAULT_MAX_DESCS st pg ->
  cache_inv ZINK_DEFAULT_MAX_DESCS st pg.
Proof.
  intros (Hsets & Hpools & Hlast).
  assert (Hp : forall q p, pools st !! q = Some p ->
            pool_created ZINK_DEFAULT_MAX_DESCS p).
  { intros q p Hq. by eapply Forall_lookup_1 in Hpools. }
  assert (Hnone : forall q p m, pools st !! q = Some p ->
            ~ m ∈ pool_members p).
  { intros q p m Hq. destruct (Hp _ _ Hq) as (Hd & Hf & Ha & _).
    unfold pool_members. rewrite Hd, Hf, Ha. cbn. apply not_elem_of_nil. }
  split.
  - intros q p Hq. destruct (Hp _ _ Hq) as (_ & _ & _ & -> & ? & ?).
    split_and!; try done; try lia. intros _. by exists 0.
  - intros q p m Hq Hm. by eapply Hnone in Hm.
  - intros t l. by rewrite Hlast.
  - intros q p m z Hq _ Hm. by eapply Hnone in Hm.
  - intros t q p l z _ _. by rewrite Hlast.
  - intros m z. by rewrite Hsets.
  - intros t q p _ Hq _ Hn. by destruct (Hp _ _ Hq) as (_ & _ & _ & ? & _).
  - intros t t' _ _. by rewrite !Hlast.
  - intros q p Hq. destruct (Hp _ _ Hq) as (_ & _ & _ & -> & _).
    unfold sets_created. by rewrite Hsets.
Qed.

Lemma run_call_inv c st pg st' pg' :
  cache_inv ZINK_DEFAULT_MAX_DESCS st pg ->
  run_call' c (st, pg) = Ok (st', pg') ->
  cache_inv ZINK_DEFAULT_MAX_DESCS st' pg'.
Proof.
  intros Hinv H. destruct c; cbn [run_call fst snd] in H.
  - apply result_bind_Ok in H as ([[[st1 pg1] zds] hit] & Hget & H).
    injection H as <- <-. by eapply zink_descriptor_set_get_inv.
  - apply result_bind_Ok in H as (st1 & Hr & H). injection H as <- <-.
    eapply cache_inv_frame; [done|].
    by eapply zink_descriptor_set_recycle_step.
  - injection H as <- <-. eapply cache_inv_frame; [done|].
    apply zink_descriptor_set_invalidate_frame.
  - apply result_bind_Ok in H as (st1 & Hf & H). injection H as <- <-.
    eapply cache_inv_frame; [done|]. by eapply zink_flush_batch_step.
  - apply result_bind_Ok in H as ([st1 refs1] & Ha & H).
    injection H as <- <-. eapply cache_inv_frame; [done|].
    unfold zink_resource_desc_set_add in Ha.
    apply result_bind_Ok in Ha as (z & _ & Ha).
    match type of Ha with Ok ?x = _ =>
      replace st1 with (x.1) by (by injection Ha as <- _) end.
    apply desc_set_ref_add_frame.
  - injection H as <- <-. eapply cache_inv_frame; [done|].
    apply zink_descriptor_set_refs_clear_frame.
Qed.

Lemma run_calls_inv cs st pg st' pg' :
  cache_inv ZINK_DEFAULT_MAX_DESCS st pg ->
  run_calls' cs (st, pg) = Ok (st', pg') ->
  cache_inv ZINK_DEFAULT_MAX_DESCS st' pg'.
Proof.
  revert st pg. induction cs as [|c cs IH]; intros st pg Hinv H;
    cbn [run_calls] in H.
  - by injection H as <- <-.
  - apply result_bind_Ok in H as ([st1 pg1] & Hc & H).
    eapply IH; [|exact H]. by eapply run_call_inv.
Qed.

(** The counter of every pool counts the sets created for the pool and
    stays within a ceiling that is a positive multiple of the bucket size:
    the counter is then a multiple of ten itself, and a counter that passed
    the test of line 273 leaves room for a bucket of ten. *)
Lemma run_calls_within_ceiling cs st0 pg0 st pg :
  initial ZINK_DEFAULT_MAX_DESCS st0 pg0 ->
  run_calls' cs (st0, pg0) = Ok (st, pg) ->
  forall q p, pools st !! q = Some p ->
    sets_created st q = num_sets_allocated p
    /\ 0 <= num_sets_allocated p <= ZINK_DEFAULT_MAX_DESCS.
Proof.
  intros Hinit Hrun q p Hq.
  assert (Hinv : cache_inv ZINK_DEFAULT_MAX_DESCS st pg).
  { eapply run_calls_inv; [|exact Hrun]. by apply initial_inv. }
  split; [by eapply inv_created|].
  by destruct (inv_counters _ _ _ Hinv _ _ Hq) as (_ & _ & ? & _).
Qed.

End Capacity.

(** C1: with the ceiling of the driver, five thousand sets per pool, after
    any sequence of calls on a program whose pools were just created, on any
    device and in a debug or a release build, the counter of every pool is
    the number of sets ever created for the pool and is at most the ceiling,
    flushes and retries included. *)
Theorem sets_allocated_within_ceiling
    (ZINK_SHADER_COUNT : nat) (NDEBUG : bool)
    (vkAllocateDescriptorSets : zink_state -> nat -> Z -> bool)
    cs st0 pg0 st pg :
  initial Mesa.ZINK_DEFAULT_MAX_DESCS st0 pg0 ->
  run_calls ZINK_SHADER_COUNT Mesa.ZINK_DEFAULT_MAX_DESCS NDEBUG
    vkAllocateDescriptorSets cs (st0, pg0)
  = Ok (st, pg) ->
  forall q p, pools st !! q = Some p ->
    sets_created st q = num_sets_allocated p
    /\ 0 <= num_sets_allocated p <= Mesa.ZINK_DEFAULT_MAX_DESCS.
Proof.
  intros Hinit Hrun.
  eapply run_calls_within_ceiling; [| |exact Hinit|exact Hrun].
  - by exists 500.
  - done.
Qed.

Lemma sets_allocated_within_ceiling_witness :
  exists st pg p,
    run_calls Mesa.ZINK_SHADER_COUNT Mesa.ZINK_DEFAULT_MAX_DESCS false
      Example.granting
      [call_get 1 (Mesa.compute_context 7) ZINK_DESCRIPTOR_TYPE_UBO true;
       call_flush;
       call_get 1 (Mesa.compute_context 8) ZINK_DESCRIPTOR_TYPE_UBO true]
      (Example.one_pool_state 1, Example.one_pool_program)
    = Ok (st, pg)
    /\ pools st !! 0%nat = Some p
    /\ sets_created st 0 = num_sets_allocated p
    /\ 0 <= num_sets_allocated p <= Mesa.ZINK_DEFAULT_MAX_DESCS.
Proof.
  eexists _, _, _.
  assert (H : run_calls Mesa.ZINK_SHADER_COUNT Mesa.ZINK_DEFAULT_MAX_DESCS
                false Example.granting
                [call_get 1 (Mesa.compute_context 7)
                   ZINK_DESCRIPTOR_TYPE_UBO true;
                 call_flush;
                 call_get 1 (Mesa.compute_context 8)
                   ZINK_DESCRIPTOR_TYPE_UBO true]
                (Example.one_pool_state 1, Example.one_pool_program)
              = Ok (_, _))
    by (vm_compute; reflexivity).
  assert (Hinit : initial Mesa.ZINK_DEFAULT_MAX_DESCS
                    (Example.one_pool_state 1) Example.one_pool_program).
  { split; [reflexivity|]. split; [|reflexivity].
    apply Forall_cons. split; [|apply Forall_nil_2].
    unfold pool_created. cbn. unfold Mesa.ZINK_DEFAULT_MAX_DESCS.
    split_and!; try reflexivity; lia. }
  split; [exact H|]. split; [reflexivity|].
  exact (sets_allocated_within_ceiling _ _ _ _ _ _ _ _ Hinit H
           0%nat _ eq_refl).
Defined.

(** ** Pools without descriptors *)

Lemma null_kept_refl p : null_kept p p.
Proof. by split. Qed.

Lemma null_kept_trans p1 p2 p3 :
  null_kept p1 p2 -> null_kept p2 p3 -> null_kept p1 p3.
Proof.
  intros [Hn12 H12] [Hn23 H23]. split; [congruence|]. intros H0.
  destruct H23 as [-> ->]; [congruence|]. by apply H12.
Qed.

Lemma Forall2_null_kept_refl ps : Forall2 null_kept ps ps.
Proof. apply Forall_Forall2_diag, Forall_forall. intros; apply null_kept_refl. Qed.

Lemma Forall2_null_kept_trans ps1 ps2 ps3 :
  Forall2 null_kept ps1 ps2 -> Forall2 null_kept ps2 ps3 ->
  Forall2 null_kept ps1 ps3.
Proof.
  intros H12 H23. eapply Forall2_trans; [| exact H12 | exact H23].
  intros ???; apply null_kept_trans.
Qed.

Lemma same_counters_null_kept ps ps' :
  Forall2 same_counters ps ps' -> Forall2 null_kept ps ps'.
Proof.
  intros H. eapply Forall2_impl; [exact H|].
  intros p p' (Hn & _ & H0). split; [done|]. intros Hz. by rewrite (H0 Hz).
Qed.

Lemma is_null_pool_kept st st' pg pg' t :
  pg_pool pg' = pg_pool pg -> Forall2 null_kept (pools st) (pools st') ->
  is_null_pool st' pg' t = is_null_pool st pg t.
Proof.
  intros Hpg Hk. apply is_null_pool_ext; [done|]. intros q.
  destruct (pools st !! q) as [p|] eqn:Hq.
  - destruct (Forall2_lookup_l _ _ _ _ _ Hk Hq) as (p' & -> & Hn & _).
    cbn. by rewrite Hn.
  - apply lookup_ge_None in Hq. rewrite (Forall2_length _ _ _ Hk) in Hq.
    apply lookup_ge_None in Hq. by rewrite Hq.
Qed.

Section NullPools.

Variable ZINK_SHADER_COUNT : nat.
Variable ZINK_DEFAULT_MAX_DESCS : Z.
Variable NDEBUG : bool.
Variable vkAllocateDescriptorSets : zink_state -> nat -> Z -> bool.

(** A lookup leaves the program its pools and the pools without descriptors
    their two tables, flushes included. *)
Lemma zink_descriptor_set_get_null_kept fuel st pg ctx type is_compute
    st' pg' zds hit :
  zink_descriptor_set_get ZINK_SHADER_COUNT ZINK_DEFAULT_MAX_DESCS NDEBUG
    vkAllocateDescriptorSets
    fuel st pg ctx type is_compute = Ok (st', pg', zds, hit) ->
  pg_pool pg' = pg_pool pg /\ Forall2 null_kept (pools st) (pools st').
Proof.
  revert st. induction fuel as [|fuel IH]; intros st H; [done|].
  apply get_effect_or_flush in H
    as [(Q & p & st1 & _ & _ & _ & Hflush & H)
       |(Q & p & p' & z & z' & fresh & E)].
  - apply zink_flush_batch_frame in Hflush as (_ & _ & Hp).
    destruct (IH _ H) as [Hpg Hk]. split; [done|].
    eapply Forall2_null_kept_trans; [|exact Hk].
    by apply same_counters_null_kept.
  - destruct E as [Epool Ebefore Eafter Elen Eoth Ezb Eza Ezp Ezh Efresh Esrc
                   Epl Eop End Emem Enull Ealloc Epg Els Elss].
    split; [done|]. apply Forall2_same_length_lookup_2; [done|].
    intros q x y Hx Hy. destruct (decide (q = Q)) as [->|Hne].
    + rewrite Ebefore in Hx. rewrite Eafter in Hy. simplify_eq. by split.
    + rewrite (Eop _ Hne), Hx in Hy. simplify_eq. apply null_kept_refl.
Qed.

Lemma run_call_null_kept c st pg st' pg' :
  run_call ZINK_SHADER_COUNT ZINK_DEFAULT_MAX_DESCS NDEBUG
    vkAllocateDescriptorSets c (st, pg)
  = Ok (st', pg') ->
  pg_pool pg' = pg_pool pg /\ Forall2 null_kept (pools st) (pools st').
Proof.
  intros H. destruct c; cbn [run_call fst snd] in H.
  - apply result_bind_Ok in H as ([[[st1 pg1] zds] hit] & Hget & H).
    injection H as <- <-. by eapply zink_descriptor_set_get_null_kept.
  - apply result_bind_Ok in H as (st1 & Hr & H). injection H as <- <-.
    apply zink_descriptor_set_recycle_frame in Hr as (_ & _ & _ & Hp).
    split; [done|]. by apply same_counters_null_kept.
  - injection H as <- <-. split; [done|]. apply Forall2_null_kept_refl.
  - apply result_bind_Ok in H as (st1 & Hf & H). injection H as <- <-.
    apply zink_flush_batch_frame in Hf as (_ & _ & Hp).
    split; [done|]. by apply same_counters_null_kept.
  - apply result_bind_Ok in H as ([st1 refs1] & Ha & H).
    injection H as <- <-. split; [done|].
    unfold zink_resource_desc_set_add in Ha.
    apply result_bind_Ok in Ha as (z & _ & Ha).
    injection Ha as <- _. apply Forall2_null_kept_refl.
  - injection H as <- <-. split; [done|].
    destruct (refs_clear_fold_frame ptr refs st) as (Hp & _).
    cbn. rewrite Hp. apply Forall2_null_kept_refl.
Qed.

Lemma run_calls_null_kept cs st pg st' pg' :
  run_calls ZINK_SHADER_COUNT ZINK_DEFAULT_MAX_DESCS NDEBUG
    vkAllocateDescriptorSets cs (st, pg)
  = Ok (st', pg') ->
  pg_pool pg' = pg_pool pg /\ Forall2 null_kept (pools st) (pools st').
Proof.
  revert st pg. induction cs as [|c cs IH]; intros st pg H;
    cbn [run_calls] in H.
  - injection H as <- <-. split; [done|]. apply Forall2_null_kept_refl.
  - apply result_bind_Ok in H as ([st1 pg1] & Hc & H).
    apply run_call_null_kept in Hc as [Hpg1 Hk1].
    destruct (IH _ _ H) as [Hpg Hk]. split; [congruence|].
    by eapply Forall2_null_kept_trans.
Qed.

End NullPools.

Lemma is_null_pool_true st pg t :
  is_null_pool st pg t = true ->
  exists q p, pg_pool pg t = Some q /\ pools st !! q = Some p
              /\ num_descriptors p = 0.
Proof.
  unfold is_null_pool. intros H.
  destruct (pg_pool pg t) as [q|]; [|done].
  destruct (pools st !! q) as [p|] eqn:Hq; [|done].
  exists q, p. split_and!; [done|done|]. by apply Z.eqb_eq.
Qed.

(** C9, the code does not do what the claim says.  For a type without
    bindings below a type in use, [zink_descriptor_program_init] creates the
    pool from one placeholder binding (line 442, [num_bindings] 1), so the
    pool of the null-binding category has one descriptor and none of the
    tests of [num_descriptors] for zero holds.  With a vertex and a fragment
    shader that bind uniform and storage buffers and no sampler view: the
    pool for sampler views is pool 1 with one descriptor; the first lookup
    creates a bucket of ten sets and enters the set it returns in the active
    table; when the batch retires, the recycle moves the entry to the
    recycle table; and a second program set up from the same shaders has a
    pool of its own, pool 4, and receives another set. *)
Theorem null_binding_pool_is_cached :
  let ctx := Mesa.gfx_context 7 [true; true] [3; 4] in
  exists st1 pgA st2 pgA' st3 st4 pgB st5 pgB',
    program_layout_bindings Mesa.ZINK_SHADER_COUNT Vulkan.stages
      ZINK_DESCRIPTOR_TYPE_SAMPLER_VIEW = []
    /\ Vulkan.zink_descriptor_program_init Vulkan.screen Vulkan.empty_state
         Vulkan.stages Vulkan.new_program
       = Ok (st1, pgA, true)
    /\ pg_pool pgA ZINK_DESCRIPTOR_TYPE_SAMPLER_VIEW = Some 1%nat
    /\ pools st1 !! 1%nat = Some (Pool 1 [] [] [] 0)
    /\ is_null_pool st1 pgA ZINK_DESCRIPTOR_TYPE_SAMPLER_VIEW = false
    /\ Example.get 1 st1 pgA ctx ZINK_DESCRIPTOR_TYPE_SAMPLER_VIEW false
       = Ok (st2, pgA', 0%nat, false)
    /\ length (sets st2) = 10%nat
    /\ pools st2 !! 1%nat
       = Some (Pool 1 [Entry 7 0] [] [1; 2; 3; 4; 5; 6; 7; 8; 9]%nat 10)
    /\ Example.flush st2 = Ok st3
    /\ pools st3 !! 1%nat
       = Some (Pool 1 [] [Entry 7 0] [1; 2; 3; 4; 5; 6; 7; 8; 9]%nat 10)
    /\ Vulkan.zink_descriptor_program_init Vulkan.screen st3 Vulkan.stages
         Vulkan.new_program
       = Ok (st4, pgB, true)
    /\ pg_pool pgB ZINK_DESCRIPTOR_TYPE_SAMPLER_VIEW = Some 4%nat
    /\ Example.get 1 st4 pgB ctx ZINK_DESCRIPTOR_TYPE_SAMPLER_VIEW false
       = Ok (st5, pgB', 10%nat, false).
Proof.
  intros ctx. eexists _, _, _, _, _, _, _, _, _.
  split; [reflexivity|].
  split; [vm_compute; reflexivity|].
  split; [reflexivity|]. split; [reflexivity|]. split; [reflexivity|].
  split; [vm_compute; reflexivity|].
  split; [reflexivity|]. split; [reflexivity|].
  split; [vm_compute; reflexivity|]. split; [reflexivity|].
  split; [vm_compute; reflexivity|]. split; [reflexivity|].
  vm_compute; reflexivity.
Qed.

(** * Further properties of the code *)

(** ** The comparison and the hash of keys *)

(** X1.  [desc_state_equal] is an equivalence on keys: it is reflexive,
    symmetric and transitive, as a hash table needs of its comparison
    function. *)
Theorem desc_state_equal_equivalence (ZINK_SHADER_COUNT : nat) :
  (forall a, desc_state_equal ZINK_SHADER_COUNT a a = true)
  /\ (forall a b, desc_state_equal ZINK_SHADER_COUNT a b = true ->
                  desc_state_equal ZINK_SHADER_COUNT b a = true)
  /\ (forall a b c, desc_state_equal ZINK_SHADER_COUNT a b = true ->
                    desc_state_equal ZINK_SHADER_COUNT b c = true ->
                    desc_state_equal ZINK_SHADER_COUNT a c = true).
Proof.
  split_and!.
  - apply desc_state_equal_refl.
  - apply desc_state_equal_sym.
  - apply desc_state_equal_trans.
Qed.

(** X2.  What [desc_state_equal] compares: two keys are equal exactly when,
    for every stage below [ZINK_SHADER_COUNT], the [exists] flags agree and,
    where the flag is set, the revision numbers agree.  The revision number
    of a stage that is absent is never looked at, and a difference there
    does not make two keys differ. *)
Theorem desc_state_equal_ignores_absent_stages (ZINK_SHADER_COUNT : nat) :
  (forall a b,
     desc_state_equal ZINK_SHADER_COUNT a b = true <->
     forall j, (j < ZINK_SHADER_COUNT)%nat ->
       key_exists a j = key_exists b j
       /\ (key_exists a j = true -> key_state a j = key_state b j))
  /\ forall a j s,
       (j < length (state a))%nat -> key_exists a j = false ->
       desc_state_equal ZINK_SHADER_COUNT a
         (Key (exists_ a) (<[j := s]> (state a))) = true.
Proof.
  split; [apply desc_state_equal_spec|].
  intros a j s Hj Hex. apply desc_state_equal_spec. intros i Hi.
  unfold key_exists, key_state. cbn [exists_ state]. split; [done|].
  intros Hi'. destruct (decide (i = j)) as [->|Hne].
  - unfold key_exists in Hex. congruence.
  - by rewrite list_lookup_insert_ne.
Qed.

(** X3.  Where the hash goes with the comparison: two keys that compare
    equal hash to the same value as soon as the first of them has the
    fragment stage or stage 0 present. *)
Theorem desc_state_hash_respects_equal
    (ZINK_SHADER_COUNT PIPE_SHADER_FRAGMENT : nat) (XXH32 : Z -> Z -> Z)
    a b :
  (PIPE_SHADER_FRAGMENT < ZINK_SHADER_COUNT)%nat ->
  desc_state_equal ZINK_SHADER_COUNT a b = true ->
  key_exists a PIPE_SHADER_FRAGMENT = true \/ key_exists a 0 = true ->
  desc_state_hash ZINK_SHADER_COUNT PIPE_SHADER_FRAGMENT XXH32 a
  = desc_state_hash ZINK_SHADER_COUNT PIPE_SHADER_FRAGMENT XXH32 b.
Proof.
  intros Hf Heq Hp. rewrite desc_state_equal_spec in Heq.
  unfold desc_state_hash.
  destruct (Heq _ Hf) as [<- _].
  destruct (key_exists a PIPE_SHADER_FRAGMENT) eqn:Hfrag; simpl.
  - rewrite !desc_state_hash_loop_fold. f_equal.
    apply present_states_equal. intros j Hj. apply Heq. lia.
  - destruct Hp as [|H0]; [done|].
    apply (Heq 0%nat); [lia|done].
Qed.

Lemma desc_state_hash_respects_equal_witness :
  let a := Key [true; true; false; false; false] [1; 2; 9; 9; 9] in
  let b := Key [true; true; false; false; false] [1; 2; 0; 0; 0] in
  Mesa.desc_state_equal a b = true
  /\ Mesa.desc_state_hash a = Mesa.desc_state_hash b.
Proof.
  split; [reflexivity|].
  apply (desc_state_hash_respects_equal 5 1 XXH32_word).
  - lia.
  - reflexivity.
  - left. reflexivity.
Defined.

(** X4.  [populate_zds_key] may be handed a key that was never initialised
    (the local [key] of [zink_descriptor_set_get], the key of a set fresh
    from [ralloc_array]): whatever the key held before, the keys filled from
    one context compare equal, and the key filled for compute work has
    stage 0 present and no other. *)
Theorem populate_zds_key_overwrites (ZINK_SHADER_COUNT : nat)
    ctx type is_compute k1 k2 :
  desc_state_equal ZINK_SHADER_COUNT
    (populate_zds_key ZINK_SHADER_COUNT ctx type is_compute k1)
    (populate_zds_key ZINK_SHADER_COUNT ctx type is_compute k2) = true
  /\ forall j, (j < ZINK_SHADER_COUNT)%nat ->
       key_exists (populate_zds_key ZINK_SHADER_COUNT ctx type true k1) j
       = bool_decide (j = 0%nat).
Proof.
  split; [apply populate_zds_key_equal|].
  intros j Hj. unfold populate_zds_key, key_exists. cbn [exists_].
  by rewrite list_lookup_fmap, lookup_seq_lt.
Qed.

(** ** The reclamation scan of lines 258-271 *)

Lemma scan_free_desc_sets_test count pos tmp :
  count = Z.of_nat pos ->
  ((100 <=? count) && (reference_count tmp =? 1))
  || get_invalidated_desc_set tmp = true
  <-> stealable pos tmp.
Proof.
  intros ->. unfold stealable, get_invalidated_desc_set.
  rewrite orb_true_iff, andb_true_iff, Z.leb_le, Z.eqb_eq.
  destruct (invalid tmp); cbn; rewrite ?Z.eqb_eq; split.
  - intros [[? ?]|?]; split; auto.
  - intros [? _]. by right.
  - intros [[? ?]|?]; [split; [done|right; lia]|done].
  - intros [? [?|?]]; [done|left; split; [lia|done]].
Qed.

Lemma scan_free_desc_sets_walk zs ht he :
  Z.of_nat he + Z.of_nat (length ht) < 2 ^ 32 ->
  match scan_free_desc_sets zs ht he (Z.of_nat he) with
  | Some (i, zds) =>
      (he <= i)%nat
      /\ exists e tmp,
           ht !! (i - he)%nat = Some e /\ he_data e = zds
           /\ zs !! zds = Some tmp /\ stealable i tmp
           /\ forall j e' t',
                (he <= j < i)%nat -> ht !! (j - he)%nat = Some e' ->
                zs !! he_data e' = Some t' -> ~ stealable j t'
  | None =>
      forall j e' t',
        ht !! j = Some e' -> zs !! he_data e' = Some t' ->
        ~ stealable (he + j) t'
  end.
Proof.
  revert he. induction ht as [|e ht IH]; intros he Hlen; cbn [scan_free_desc_sets].
  - intros j e' t' Hj. by rewrite lookup_nil in Hj.
  - cbn [length] in Hlen.
    assert (Hnext : wrap32 (Z.of_nat he + 1) = Z.of_nat (S he)).
    { unfold wrap32. rewrite Z.mod_small by lia. lia. }
    rewrite Hnext. specialize (IH (S he) ltac:(lia)).
    assert (Hrest :
      (forall t, zs !! he_data e = Some t -> ~ stealable he t) ->
      match scan_free_desc_sets zs ht (S he) (Z.of_nat (S he)) with
      | Some (i, zds) =>
          (he <= i)%nat
          /\ exists e0 tmp,
               (e :: ht) !! (i - he)%nat = Some e0 /\ he_data e0 = zds
               /\ zs !! zds = Some tmp /\ stealable i tmp
               /\ forall j e' t',
                    (he <= j < i)%nat ->
                    (e :: ht) !! (j - he)%nat = Some e' ->
                    zs !! he_data e' = Some t' -> ~ stealable j t'
      | None =>
          forall j e' t',
            (e :: ht) !! j = Some e' -> zs !! he_data e' = Some t' ->
            ~ stealable (he + j) t'
      end).
    { intros Hhead.
      destruct (scan_free_desc_sets zs ht (S he) (Z.of_nat (S he)))
        as [[i zds]|].
      - destruct IH as (Hi & e0 & tmp & He0 & Hd & Hz & Hs & Hbefore).
        split; [lia|]. exists e0, tmp.
        replace (i - he)%nat with (S (i - S he)) by lia.
        split_and!; try done.
        intros j e' t' Hj He' Ht'.
        destruct (decide (j = he)) as [->|Hne].
        + rewrite Nat.sub_diag in He'. injection He' as <-. by apply Hhead.
        + replace (j - he)%nat with (S (j - S he)) in He' by lia.
          eapply Hbefore; [|exact He'|exact Ht']. lia.
      - intros j e' t' He' Ht'. destruct j as [|j].
        + injection He' as <-. rewrite Nat.add_0_r. by apply Hhead.
        + replace (he + S j)%nat with (S he + j)%nat by lia.
          by eapply IH. }
    destruct (zs !! he_data e) as [tmp|] eqn:Htmp.
    + destruct (((100 <=? Z.of_nat he) && (reference_count tmp =? 1))
                || get_invalidated_desc_set tmp) eqn:Hc.
      * apply (scan_free_desc_sets_test _ he) in Hc; [|done].
        split; [done|]. exists e, tmp. rewrite Nat.sub_diag.
        split_and!; try done. intros j e' t' Hj. lia.
      * apply Hrest. intros t [= <-] Hs.
        apply (scan_free_desc_sets_test (Z.of_nat he)) in Hs; [|done].
        congruence.
    + apply Hrest. intros t Ht. done.
Qed.

(** X5.  The eviction policy of the scan: over a recycle table of fewer
    than 2^32 entries, the scan answers the first entry, in table order,
    whose set is held by nobody else (reference count 1) and is either
    invalidated or met after a hundred entries; it answers nothing exactly
    when no entry passes.  So a valid set among the first hundred entries is
    never taken away from the fingerprint it caches. *)
Theorem scan_free_desc_sets_policy zs ht :
  Z.of_nat (length ht) < 2 ^ 32 ->
  match scan_free_desc_sets zs ht 0 0 with
  | Some (i, zds) =>
      exists e tmp,
        ht !! i = Some e /\ he_data e = zds
        /\ zs !! zds = Some tmp /\ stealable i tmp
        /\ forall j e' t',
             (j < i)%nat -> ht !! j = Some e' ->
             zs !! he_data e' = Some t' -> ~ stealable j t'
  | None =>
      forall j e' t',
        ht !! j = Some e' -> zs !! he_data e' = Some t' ->
        ~ stealable j t'
  end.
Proof.
  intros Hlen.
  pose proof (scan_free_desc_sets_walk zs ht 0 ltac:(lia)) as H.
  change (Z.of_nat 0) with 0 in H.
  destruct (scan_free_desc_sets zs ht 0 0) as [[i zds]|].
  - destruct H as (_ & e & tmp & He & Hd & Hz & Hs & Hbefore).
    rewrite Nat.sub_0_r in He. exists e, tmp. split_and!; try done.
    intros j e' t' Hj He' Ht'. eapply (Hbefore j); [lia| |exact Ht'].
    by rewrite Nat.sub_0_r.
  - exact H.
Qed.

Lemma scan_free_desc_sets_policy_witness :
  let valid := Zds 0 ZINK_DESCRIPTOR_TYPE_UBO 1 7 false true (Key [] []) 0 0 0
  in
  let stale := Zds 0 ZINK_DESCRIPTOR_TYPE_UBO 1 8 true true (Key [] []) 0 0 0
  in
  scan_free_desc_sets [valid; stale] [Entry 7 0; Entry 8 1] 0 0
  = Some (1%nat, 1%nat)
  /\ ~ stealable 0 valid.
Proof.
  intros valid stale.
  pose proof (scan_free_desc_sets_policy [valid; stale]
                [Entry 7 0; Entry 8 1] ltac:(reflexivity)) as H.
  split; [reflexivity|].
  cbn in H. destruct H as (e & tmp & _ & _ & _ & _ & Hbefore).
  apply (Hbefore 0%nat (Entry 7 0) valid); [lia|reflexivity|reflexivity].
Defined.

(** ** Lookups *)

Lemma same_contents_key z z' : same_contents z z' -> zds_key z' = zds_key z.
Proof. by intros (rc & r & ->). Qed.

(** X6.  A cache hit is sound.  When a lookup in a pool with descriptors
    reports [cache_hit = true], the set it returns existed before the call,
    its contents were valid, its key compares equal to the key of the
    context the lookup was made for, and the call created no set: a hit
    never hands out a set that was filled for another state, was
    invalidated, or is new. *)
Theorem cache_hit_sound
    (ZINK_SHADER_COUNT : nat) (ZINK_DEFAULT_MAX_DESCS : Z) (NDEBUG : bool)
    (vkAllocateDescriptorSets : zink_state -> nat -> Z -> bool)
    fuel st pg ctx type is_compute st' pg' zds pool p :
  zink_descriptor_set_get ZINK_SHADER_COUNT ZINK_DEFAULT_MAX_DESCS NDEBUG
    vkAllocateDescriptorSets
    fuel st pg ctx type is_compute = Ok (st', pg', zds, true) ->
  pg_pool pg type = Some pool ->
  pools st !! pool = Some p ->
  num_descriptors p <> 0 ->
  length (sets st') = length (sets st)
  /\ exists z, sets st !! zds = Some z /\ invalid z = false
               /\ desc_state_equal ZINK_SHADER_COUNT (zds_key z)
                    (populate_zds_key ZINK_SHADER_COUNT ctx type is_compute
                       (Key [] [])) = true.
Proof.
  revert st p. induction fuel as [|fuel IH]; intros st p H Hpool Hp Hnd;
    [done|].
  apply get_unfold in H as (pool' & p' & br & Hpool' & Hp' & Hlook & H).
  cbn zeta in *.
  rewrite Hpool in Hpool'. injection Hpool' as <-.
  rewrite Hp in Hp'. injection Hp' as <-.
  apply get_lookup_inv in Hlook
    as [(l & z & st_a & (Hl & Hz & Hh & Hk) & -> & Hsta)
       |(Hno & [(_ & Hlook)|[(Hnd' & _)|(Hnd' & _)]])]; try done.
  - apply get_out_inv in H as (-> & Hhit & _ & Hlen & _).
    split.
    { rewrite Hlen. by destruct Hsta as [->|(_ & _ & i & e & _ & ->)]. }
    exists z. split_and!; [done|by destruct (invalid z)|done].
  - apply get_lookup_pool_inv in Hlook
      as [(i & e & z & Hs & Hz & _ & ->)
         |[(_ & i & e & z & Hs & Hz & ->)
          |[(_ & _ & zds' & _ & ->)
           |[(_ & _ & _ & he & zds' & _ & ->)
            |(_ & _ & _ & _ & [(_ & ->)|(_ & ->)])]]]].
    + apply get_quick_out_inv in H as (-> & Hhit & _ & _ & _ & Hlen & _).
      split; [done|].
      apply search_Some in Hs as (_ & _ & z0 & Hz0 & Hk).
      rewrite Hz in Hz0. injection Hz0 as <-.
      exists z. split_and!; [done|by destruct (invalid z)|].
      by apply desc_state_equal_sym.
    + apply get_out_inv in H as (-> & Hhit & _ & Hlen & _).
      split; [done|].
      apply search_Some in Hs as (_ & _ & z0 & Hz0 & Hk).
      rewrite Hz in Hz0. injection Hz0 as <-.
      exists z. split_and!; [done|by destruct (invalid z)|].
      by apply desc_state_equal_sym.
    + by apply get_out_inv in H as (_ & ? & _).
    + by apply get_out_inv in H as (_ & ? & _).
    + apply result_bind_Ok in H as (st1 & Hflush & H).
      apply zink_flush_batch_frame in Hflush as (_ & Hs & Hps).
      destruct (Forall2_lookup_l _ _ _ _ _ Hps Hp)
        as (p1 & Hp1 & Hd & _).
      destruct (IH st1 p1 H Hpool Hp1 ltac:(congruence))
        as (Hlen & z1 & Hz1 & Hv1 & Hk1).
      destruct (Forall2_lookup_r _ _ _ _ _ Hs Hz1) as (z & Hz & Hc).
      split; [by rewrite Hlen, (Forall2_length _ _ _ Hs)|].
      exists z. split_and!; [done| |].
      * by rewrite <- (same_contents_invalid _ _ Hc).
      * by rewrite <- (same_contents_key _ _ Hc).
    + apply result_bind_Ok in H as ([st1 alloc] & _ & H).
      apply result_bind_Ok in H as (zds1 & _ & H).
      by apply get_out_inv in H as (_ & ? & _).
Qed.

Lemma cache_hit_sound_witness :
  exists st1 pg1 zds hit st2 pg2,
    Example.get 1 (Example.one_pool_state 1) Example.one_pool_program
      (Mesa.compute_context 7) ZINK_DESCRIPTOR_TYPE_UBO true
    = Ok (st1, pg1, zds, hit)
    /\ Example.get 1 st1 pg1 (Mesa.compute_context 7)
         ZINK_DESCRIPTOR_TYPE_UBO true
       = Ok (st2, pg2, zds, true)
    /\ length (sets st2) = length (sets st1)
    /\ exists z, sets st1 !! zds = Some z /\ invalid z = false.
Proof.
  eexists _, _, _, _, _, _.
  assert (H1 : Example.get 1 (Example.one_pool_state 1)
                 Example.one_pool_program (Mesa.compute_context 7)
                 ZINK_DESCRIPTOR_TYPE_UBO true = Ok (_, _, _, _))
    by (vm_compute; reflexivity).
  match type of H1 with _ = Ok (?st1, ?pg1, _, _) =>
    assert (H2 : Example.get 1 st1 pg1 (Mesa.compute_context 7)
                   ZINK_DESCRIPTOR_TYPE_UBO true = Ok (_, _, _, true))
      by (vm_compute; reflexivity)
  end.
  split; [exact H1|]. split; [exact H2|].
  destruct (cache_hit_sound _ _ _ _ _ _ _ _ _ _ _ _ _ 0%nat _ H2 eq_refl
              eq_refl ltac:(done)) as (Hlen & z & Hz & Hv & _).
  split; [exact Hlen|]. by exists z.
Defined.

(** X7.  A lookup never frees or moves a set and creates at most one
    bucket: the list of all sets keeps its length, or grows by exactly ten
    sets when the pool of the type has descriptors, or by exactly one set
    when it has none; the set returned is one of the list. *)
Theorem get_creates_at_most_one_bucket
    (ZINK_SHADER_COUNT : nat) (ZINK_DEFAULT_MAX_DESCS : Z) (NDEBUG : bool)
    (vkAllocateDescriptorSets : zink_state -> nat -> Z -> bool)
    fuel st pg ctx type is_compute st' pg' zds hit :
  zink_descriptor_set_get ZINK_SHADER_COUNT ZINK_DEFAULT_MAX_DESCS NDEBUG
    vkAllocateDescriptorSets
    fuel st pg ctx type is_compute = Ok (st', pg', zds, hit) ->
  (zds < length (sets st'))%nat
  /\ exists pool p,
       pg_pool pg type = Some pool /\ pools st !! pool = Some p
       /\ (length (sets st') = length (sets st)
           \/ length (sets st')
              = (length (sets st)
                 + if (num_descriptors p =? 0)%Z then 1 else 10)%nat).
Proof.
  revert st. induction fuel as [|fuel IH]; intros st H; [done|].
  apply get_effect_or_flush in H
    as [(Q & p & st1 & HQ & Hp & _ & Hflush & H)
       |(Q & p & p' & z & z' & fresh & E)].
  - apply zink_flush_batch_frame in Hflush as (_ & Hs & Hps).
    destruct (IH _ H) as (Hzds & Q1 & p1 & HQ1 & Hp1 & Hlen).
    split; [done|]. exists Q, p. split_and!; [done|done|].
    rewrite HQ in HQ1. injection HQ1 as <-.
    destruct (Forall2_lookup_l _ _ _ _ _ Hps Hp) as (p1' & Hp1' & Hd & _).
    rewrite Hp1 in Hp1'. injection Hp1' as <-.
    rewrite <- (Forall2_length _ _ _ Hs) in Hlen. by rewrite <- Hd.
  - destruct E as [Epool Ebefore Eafter Elen Eoth Ezb Eza Ezp Ezh Efresh Esrc
                   Epl Eop End Emem Enull Ealloc Epg Els Elss].
    split; [by eapply lookup_lt_Some|]. exists Q, p.
    split_and!; [done|done|]. rewrite Elen, length_app.
    destruct Ealloc as [[-> _]|(_ & -> & _)]; [left; cbn; lia|by right].
Qed.

(** X8.  The retry of lines 273-277 has no bound of its own.  When the pool
    of the type has descriptors and is at its ceiling, caches no set for the
    context (the last set, if any, is for another state, the active table
    has no entry for it, the recycle table and the shell list are empty) and
    the batch has nothing to release, so that flushing it leaves the state
    as it is, the call flushes and calls itself again in the same state: no
    amount of fuel makes the lookup return. *)
Theorem get_retries_for_ever
    (ZINK_SHADER_COUNT : nat) (ZINK_DEFAULT_MAX_DESCS : Z) (NDEBUG : bool)
    (vkAllocateDescriptorSets : zink_state -> nat -> Z -> bool)
    st pg ctx type is_compute pool p :
  pg_pool pg type = Some pool ->
  pools st !! pool = Some p ->
  num_descriptors p <> 0 ->
  (forall l, last_set pg type = Some l ->
     exists z, sets st !! l = Some z
               /\ (zds_hash z =? descriptor_states ctx is_compute type)
                  && desc_state_equal ZINK_SHADER_COUNT (zds_key z)
                       (populate_zds_key ZINK_SHADER_COUNT ctx type
                          is_compute (Key [] [])) = false) ->
  _mesa_hash_table_search_pre_hashed ZINK_SHADER_COUNT (sets st)
    (desc_sets p) (descriptor_states ctx is_compute type)
    (populate_zds_key ZINK_SHADER_COUNT ctx type is_compute (Key [] []))
  = None ->
  free_desc_sets p = [] ->
  alloc_desc_sets p = [] ->
  ZINK_DEFAULT_MAX_DESCS
  < wrap32 (num_sets_allocated p + num_descriptors p) ->
  zink_flush_batch ZINK_SHADER_COUNT st = Ok st ->
  forall fuel,
    zink_descriptor_set_get ZINK_SHADER_COUNT ZINK_DEFAULT_MAX_DESCS NDEBUG
      vkAllocateDescriptorSets
      fuel st pg ctx type is_compute = OutOfFuel.
Proof.
  intros Hpool Hp Hnd Hlast Hsearch Hfree Halloc Hfull Hflush fuel.
  induction fuel as [|fuel IH]; [done|].
  cbn [zink_descriptor_set_get]. rewrite Hpool.
  cbn [deref mbind result_mbind result_bind]. rewrite Hp.
  cbn [deref mbind result_mbind result_bind].
  apply Z.eqb_neq in Hnd. rewrite Hnd. cbn [negb].
  assert (Hlook : get_lookup ZINK_SHADER_COUNT ZINK_DEFAULT_MAX_DESCS NDEBUG
                    st pg pool p type (descriptor_states ctx is_compute type)
                    (populate_zds_key ZINK_SHADER_COUNT ctx type is_compute
                       (Key [] []))
                  = Ok flush_and_retry).
  { unfold get_lookup.
    assert (Hpoolpath :
      get_lookup_pool ZINK_SHADER_COUNT ZINK_DEFAULT_MAX_DESCS NDEBUG st
        pool p (descriptor_states ctx is_compute type)
        (populate_zds_key ZINK_SHADER_COUNT ctx type is_compute (Key [] []))
      = Ok flush_and_retry).
    { unfold get_lookup_pool. rewrite Hsearch, Hfree, Halloc. cbn.
      apply Z.ltb_lt in Hfull. by rewrite Hfull. }
    destruct (last_set pg type) as [l|] eqn:Hl.
    - destruct (Hlast l eq_refl) as (z & Hz & Hmiss). rewrite Hz.
      cbn [deref mbind result_mbind result_bind]. rewrite Hmiss, Hnd.
      exact Hpoolpath.
    - cbn [deref mbind result_mbind result_bind]. rewrite Hnd.
      exact Hpoolpath. }
  rewrite Hlook. cbn [mbind result_mbind result_bind].
  rewrite Hflush. exact IH.
Qed.

Lemma get_retries_for_ever_witness :
  zink_flush_batch Mesa.ZINK_SHADER_COUNT RetryExample.pinned
  = Ok RetryExample.pinned
  /\ forall fuel,
       zink_descriptor_set_get Mesa.ZINK_SHADER_COUNT 10 false
         Example.granting fuel
         RetryExample.pinned RetryExample.program (Mesa.compute_context 11)
         ZINK_DESCRIPTOR_TYPE_UBO true
       = OutOfFuel.
Proof.
  split; [vm_compute; reflexivity|].
  assert (Hp : exists p, pools RetryExample.pinned !! 0%nat = Some p
                         /\ p = Pool 1 (desc_sets p) [] [] 10).
  { eexists. split; vm_compute; reflexivity. }
  destruct Hp as (p & Hp & Hshape).
  apply (get_retries_for_ever Mesa.ZINK_SHADER_COUNT 10 false
           Example.granting RetryExample.pinned RetryExample.program
           (Mesa.compute_context 11) ZINK_DESCRIPTOR_TYPE_UBO true 0%nat p).
  - reflexivity.
  - exact Hp.
  - rewrite Hshape. done.
  - intros l Hl. vm_compute in Hl. injection Hl as <-.
    eexists. split; vm_compute; reflexivity.
  - vm_compute in Hp. injection Hp as <-. vm_compute. reflexivity.
  - by rewrite Hshape.
  - by rewrite Hshape.
  - rewrite Hshape. vm_compute. reflexivity.
  - vm_compute. reflexivity.
Defined.

Lemma get_creates_at_most_one_bucket_witness :
  exists st' pg' zds hit,
    Example.get 1 (Example.one_pool_state 1) Example.one_pool_program
      (Mesa.compute_context 7) ZINK_DESCRIPTOR_TYPE_UBO true
    = Ok (st', pg', zds, hit)
    /\ (zds < length (sets st'))%nat
    /\ length (sets st') = 10%nat.
Proof.
  eexists _, _, _, _.
  assert (H : Example.get 1 (Example.one_pool_state 1)
                Example.one_pool_program (Mesa.compute_context 7)
                ZINK_DESCRIPTOR_TYPE_UBO true = Ok (_, _, _, _))
    by (vm_compute; reflexivity).
  destruct (get_creates_at_most_one_bucket _ _ _ _ _ _ _ _ _ _ _ _ _ _ H)
    as (Hzds & _).
  split; [exact H|]. split; [exact Hzds|reflexivity].
Defined.

(** ** Back-references *)

(** X9.  Destroying a resource removes every recorded use of it.  After
    [zink_descriptor_set_refs_clear] for a non-null pointer, no slot named
    by the list of references holds the pointer any more and the list is
    empty; the pools and the batch are as before, and every set is as
    before or has only had its [invalid] flag raised: the call never makes
    a set valid. *)
Theorem refs_clear_removes_every_recorded_use st refs ptr :
  ptr <> 0 ->
  (forall r, r ∈ refs ->
     slots (zink_descriptor_set_refs_clear st refs ptr).1 !! ref r
     <> Some ptr)
  /\ (zink_descriptor_set_refs_clear st refs ptr).2 = []
  /\ pools (zink_descriptor_set_refs_clear st refs ptr).1 = pools st
  /\ batch (zink_descriptor_set_refs_clear st refs ptr).1 = batch st
  /\ Forall2 invalidated (sets st)
       (sets (zink_descriptor_set_refs_clear st refs ptr).1).
Proof.
  intros Hptr. cbn [zink_descriptor_set_refs_clear fst snd].
  destruct (refs_clear_fold_frame ptr refs st) as (Hp & Hb & Hs).
  split_and!; [|reflexivity|exact Hp|exact Hb|exact Hs].
  intros r Hr. rewrite refs_clear_fold_slots by done.
  case_bool_decide as Hc.
  - intros [= H0]. by apply Hptr.
  - intros Hslot. apply Hc. split; [|done].
    apply list_elem_of_fmap. by exists r.
Qed.

Lemma refs_clear_removes_every_recorded_use_witness :
  let z := Zds 0 ZINK_DESCRIPTOR_TYPE_UBO 1 0 false false (Key [] []) 2 0 0 in
  let st := State [z] [Pool 1 [] [] [] 10] [5; 5] (Batch [] 0) in
  let refs := [Reference 0 0; Reference 1 0] in
  slots (zink_descriptor_set_refs_clear st refs 5).1 = [0; 0]
  /\ forall r, r ∈ refs ->
       slots (zink_descriptor_set_refs_clear st refs 5).1 !! ref r
       <> Some 5.
Proof.
  intros z st refs. split; [reflexivity|].
  apply (refs_clear_removes_every_recorded_use st refs 5). done.
Defined.

(** X10.  A stale back-reference does no harm.  The list of a resource may
    name slots that were bound to something else since (binding another
    resource into a slot does not remove the reference of the previous
    one); when no slot named by the list holds the pointer, destroying the
    resource leaves the whole state as it is: no slot is cleared and no set
    is invalidated. *)
Theorem refs_clear_skips_rebound_slots st refs ptr :
  (forall r, r ∈ refs -> slots st !! ref r <> Some ptr) ->
  (zink_descriptor_set_refs_clear st refs ptr).1 = st.
Proof.
  cbn [zink_descriptor_set_refs_clear fst].
  revert st. induction refs as [|r refs IH]; intros st H; cbn [foldl];
    [done|].
  assert (Hstep : refs_clear_step ptr st r = st).
  { unfold refs_clear_step. rewrite bool_decide_eq_false_2; [done|].
    apply H. by left. }
  rewrite Hstep. apply IH. intros r' Hr'. apply H. by right.
Qed.

Lemma refs_clear_skips_rebound_slots_witness :
  let z := Zds 0 ZINK_DESCRIPTOR_TYPE_UBO 1 0 false false (Key [] []) 2 0 0 in
  let st := State [z] [Pool 1 [] [] [] 10] [0; 0] (Batch [] 0) in
  exists st1 refs1 st2 refs2,
    zink_resource_desc_set_add st 5 [] 0 0 = Ok (st1, refs1)
    /\ zink_resource_desc_set_add st1 6 [] 0 0 = Ok (st2, refs2)
    /\ slots st2 = [6; 0]
    /\ (zink_descriptor_set_refs_clear st2 refs1 5).1 = st2.
Proof.
  intros z st. eexists _, _, _, _.
  split; [reflexivity|]. split; [reflexivity|]. split; [reflexivity|].
  apply refs_clear_skips_rebound_slots.
  intros r Hr. apply list_elem_of_singleton in Hr as ->. cbn. done.
Defined.

(** ** The slot arrays of a bucket *)

Lemma fresh_desc_set_lookup zs pool type nr nd res smp b i :
  (i < b)%nat ->
  (zs ++ (fresh_desc_set pool type nr nd res smp <$> seq 0 b))
    !! (length zs + i)%nat
  = Some (fresh_desc_set pool type nr nd res smp i).
Proof.
  intros Hi. rewrite lookup_app_r by lia.
  replace (length zs + i - length zs)%nat with i by lia.
  by rewrite list_lookup_fmap, lookup_seq_lt.
Qed.

(** The sets and the slot memory after [allocate_desc_set] for one set in a
    pool with descriptors, when the device grants the ten sets. *)
Lemma allocate_desc_set_one vkAllocateDescriptorSets st pg type is_compute
    pool p :
  pg_pool pg type = Some pool ->
  pools st !! pool = Some p ->
  0 < num_descriptors p ->
  0 <= num_bindings_typed pg type is_compute ->
  num_bindings_typed pg type is_compute * 10 < 2 ^ 32 ->
  vkAllocateDescriptorSets st pool 10 = true ->
  exists st',
    allocate_desc_set vkAllocateDescriptorSets st pg type 1 is_compute
    = Ok (st', Some (length (sets st)))
    /\ sets st'
       = sets st
         ++ (fresh_desc_set pool type
               (num_bindings_typed pg type is_compute) (num_descriptors p)
               (length (slots st))
               (length (slots st)
                + 10 * Z.to_nat (num_bindings_typed pg type is_compute))
             <$> seq 0 10)
    /\ slots st'
       = slots st
         ++ replicate
              (10 * Z.to_nat (num_bindings_typed pg type is_compute)) 0
         ++ (if decide (type = ZINK_DESCRIPTOR_TYPE_SAMPLER_VIEW)
             then replicate
                    (10 * Z.to_nat (num_bindings_typed pg type is_compute))
                    0
             else []).
Proof.
  intros Hpg Hp Hnd Hnr Hsmall Hvk.
  assert (Hb : desc_bucket_size (num_descriptors p) 1 = Some 10).
  { unfold desc_bucket_size.
    destruct (num_descriptors p =? 0) eqn:H0; [apply Z.eqb_eq in H0; lia|].
    reflexivity. }
  unfold allocate_desc_set. rewrite Hpg.
  cbn [deref mbind result_mbind result_bind]. rewrite Hp.
  cbn [deref mbind result_mbind result_bind]. rewrite Hb.
  cbn [mbind result_mbind result_bind]. rewrite Hvk. cbn [negb].
  eexists. split; [reflexivity|].
  cbn [sets slots pools update_pool with_pools with_sets with_slots].
  set (nr := num_bindings_typed pg type is_compute) in *.
  assert (Hlen : Z.to_nat (wrap32 (nr * 10)) = (10 * Z.to_nat nr)%nat).
  { unfold wrap32. rewrite Z.mod_small by lia. lia. }
  rewrite Hlen. change (Z.to_nat 10) with 10%nat. done.
Qed.

(** X11.  What a bucket looks like.  In a pool with descriptors
    [allocate_desc_set] (called for one set, as [zink_descriptor_set_get]
    does) asks the device for ten sets.  When the device refuses them, the
    call returns the null handle and the state is as before.  When the
    device grants them, the call appends ten sets to the list of all sets
    and returns the first of them; each new set belongs to the pool, has
    reference count 1, hash 0, is invalid and not recycled; the slot memory
    in use before the call is not touched, and the block of
    [10 * num_resources] slots added for the bucket is zeroed. *)
Theorem allocate_desc_set_layout vkAllocateDescriptorSets st pg type
    is_compute pool p :
  pg_pool pg type = Some pool ->
  pools st !! pool = Some p ->
  0 < num_descriptors p ->
  0 <= num_bindings_typed pg type is_compute ->
  num_bindings_typed pg type is_compute * 10 < 2 ^ 32 ->
  (vkAllocateDescriptorSets st pool 10 = false ->
   allocate_desc_set vkAllocateDescriptorSets st pg type 1 is_compute
   = Ok (st, None))
  /\ (vkAllocateDescriptorSets st pool 10 = true ->
      exists st',
        allocate_desc_set vkAllocateDescriptorSets st pg type 1 is_compute
        = Ok (st', Some (length (sets st)))
        /\ length (sets st') = (length (sets st) + 10)%nat
        /\ take (length (sets st)) (sets st') = sets st
        /\ take (length (slots st)) (slots st') = slots st
        /\ (forall a,
              (length (slots st) <= a
               < length (slots st)
                 + 10 * Z.to_nat (num_bindings_typed pg type is_compute))%nat
              -> slots st' !! a = Some 0)
        /\ forall i, (i < 10)%nat ->
             exists z,
               sets st' !! (length (sets st) + i)%nat = Some z
               /\ zds_pool z = pool /\ zds_type z = type
               /\ reference_count z = 1 /\ zds_hash z = 0
               /\ invalid z = true /\ recycled z = false).
Proof.
  intros Hpg Hp Hnd Hnr Hsmall. split.
  - intros Hvk.
    apply (allocate_desc_set_refused _ st pg type 1 is_compute pool p 10);
      [done|done| |done].
    rewrite desc_bucket_size_one.
    destruct (Z.eqb_spec (num_descriptors p) 0); [lia|done].
  - intros Hvk.
    destruct (allocate_desc_set_one vkAllocateDescriptorSets st pg type
                is_compute pool p Hpg Hp Hnd Hnr Hsmall Hvk)
      as (st' & Ha & Hsets & Hslots).
    exists st'. rewrite Hsets, Hslots. split_and!.
    + done.
    + by rewrite length_app, length_fmap, length_seq.
    + by rewrite take_app_length.
    + by rewrite take_app_length.
    + intros a Ha'. rewrite lookup_app_r by lia.
      destruct (decide (type = ZINK_DESCRIPTOR_TYPE_SAMPLER_VIEW)).
      * rewrite lookup_app_l by (rewrite length_replicate; lia).
        apply lookup_replicate_2. lia.
      * rewrite app_nil_r. apply lookup_replicate_2. lia.
    + intros i Hi. eexists. split; [by apply fresh_desc_set_lookup|].
      cbn. split_and!; done.
Qed.

Lemma allocate_desc_set_layout_witness :
  allocate_desc_set Example.refusing (Example.one_pool_state 1)
    Example.one_pool_program ZINK_DESCRIPTOR_TYPE_UBO 1 true
  = Ok (Example.one_pool_state 1, None)
  /\ exists st',
       allocate_desc_set Example.granting (Example.one_pool_state 1)
         Example.one_pool_program ZINK_DESCRIPTOR_TYPE_UBO 1 true
       = Ok (st', Some 0%nat)
       /\ length (sets st') = 10%nat
       /\ slots st' = replicate 10 0.
Proof.
  split.
  - apply (allocate_desc_set_layout Example.refusing
             (Example.one_pool_state 1) Example.one_pool_program
             ZINK_DESCRIPTOR_TYPE_UBO true 0%nat (Pool 1 [] [] [] 0) eq_refl
             eq_refl ltac:(done) ltac:(done) ltac:(done)).
    reflexivity.
  - destruct (allocate_desc_set_layout Example.granting
                (Example.one_pool_state 1) Example.one_pool_program
                ZINK_DESCRIPTOR_TYPE_UBO true 0%nat (Pool 1 [] [] [] 0)
                eq_refl eq_refl ltac:(done) ltac:(done) ltac:(done))
      as [_ Hgranted].
    destruct (Hgranted eq_refl) as (st' & Ha & Hlen & _).
    exists st'. split; [exact Ha|]. split; [exact Hlen|].
    vm_compute in Ha. by injection Ha as <-.
Defined.

(** X12.  Where the slot arrays of a bucket lie.  The array of the [i]-th
    set of a bucket starts [i * num_descriptors] slots into the block of
    [10 * num_resources] slots (lines 151 and 170-173), and a set uses
    [num_resources] slots.  When the two numbers are equal the ten arrays
    lie inside the block and no two of them share a slot.  When
    [num_resources] is the larger (some binding is an array), slot
    [num_descriptors] of each set but the last is slot 0 of the next
    set. *)
Theorem bucket_slot_arrays vkAllocateDescriptorSets st pg type is_compute
    pool p st' alloc :
  pg_pool pg type = Some pool ->
  pools st !! pool = Some p ->
  0 < num_descriptors p ->
  0 <= num_bindings_typed pg type is_compute ->
  num_bindings_typed pg type is_compute * 10 < 2 ^ 32 ->
  allocate_desc_set vkAllocateDescriptorSets st pg type 1 is_compute
  = Ok (st', Some alloc) ->
  (forall i z, (i < 10)%nat -> sets st' !! (alloc + i)%nat = Some z ->
     zds_resources z
     = (length (slots st) + i * Z.to_nat (num_descriptors p))%nat)
  /\ (num_bindings_typed pg type is_compute = num_descriptors p ->
      forall i j zi zj a b,
        (i < 10)%nat -> (j < 10)%nat ->
        sets st' !! (alloc + i)%nat = Some zi ->
        sets st' !! (alloc + j)%nat = Some zj ->
        (a < Z.to_nat (num_descriptors p))%nat ->
        (b < Z.to_nat (num_descriptors p))%nat ->
        (length (slots st) <= zds_resources zi + a
         < length (slots st) + 10 * Z.to_nat (num_descriptors p))%nat
        /\ (zds_resources zi + a = zds_resources zj + b ->
            i = j /\ a = b)%nat)
  /\ (num_descriptors p < num_bindings_typed pg type is_compute ->
      forall i zi zj,
        (i < 9)%nat ->
        sets st' !! (alloc + i)%nat = Some zi ->
        sets st' !! (alloc + S i)%nat = Some zj ->
        (zds_resources zi + Z.to_nat (num_descriptors p)
         = zds_resources zj + 0)%nat).
Proof.
  intros Hpg Hp Hnd Hnr Hsmall Halloc.
  assert (Hvk : vkAllocateDescriptorSets st pool 10 = true).
  { destruct (allocate_desc_set_Some _ _ _ _ _ _ _ _ _ Hpg Hp Halloc)
      as (Hvk & _).
    destruct (Z.eqb_spec (num_descriptors p) 0); [lia|done]. }
  destruct (allocate_desc_set_one vkAllocateDescriptorSets st pg type
              is_compute pool p Hpg Hp Hnd Hnr Hsmall Hvk)
    as (st1 & Ha & Hsets & Hslots).
  rewrite Ha in Halloc. injection Halloc as <- <-.
  assert (Hres : forall i z, (i < 10)%nat ->
            sets st1 !! (length (sets st) + i)%nat = Some z ->
            zds_resources z
            = (length (slots st) + i * Z.to_nat (num_descriptors p))%nat).
  { intros i z Hi Hz. rewrite Hsets, fresh_desc_set_lookup in Hz by done.
    by injection Hz as <-. }
  split; [exact Hres|]. split.
  - intros Heq i j zi zj a b Hi Hj Hzi Hzj Hai Hbj.
    rewrite (Hres _ _ Hi Hzi), (Hres _ _ Hj Hzj). split; [nia|].
    intros Hsame.
    assert (i = j) by nia. subst j. split; [done|lia].
  - intros Hlt i zi zj Hi Hzi Hzj.
    rewrite (Hres i _ ltac:(lia) Hzi), (Hres (S i) _ ltac:(lia) Hzj). lia.
Qed.

Lemma bucket_slot_arrays_witness :
  exists st' z3,
    allocate_desc_set Example.granting (Example.one_pool_state 1)
      Example.one_pool_program ZINK_DESCRIPTOR_TYPE_UBO 1 true
    = Ok (st', Some 0%nat)
    /\ sets st' !! 3%nat = Some z3
    /\ zds_resources z3 = 3%nat.
Proof.
  eexists _, _.
  assert (Ha : allocate_desc_set Example.granting
                 (Example.one_pool_state 1) Example.one_pool_program
                 ZINK_DESCRIPTOR_TYPE_UBO 1 true
               = Ok (_, Some 0%nat)) by (vm_compute; reflexivity).
  split; [exact Ha|]. split; [reflexivity|].
  destruct (bucket_slot_arrays Example.granting (Example.one_pool_state 1)
              Example.one_pool_program ZINK_DESCRIPTOR_TYPE_UBO true 0%nat
              (Pool 1 [] [] [] 0) _ 0%nat eq_refl eq_refl ltac:(done)
              ltac:(done) ltac:(done) Ha) as (Hres & _).
  exact (Hres 3%nat _ ltac:(lia) eq_refl).
Defined.

(** ** What every sequence of calls keeps *)

Lemma one_pool_initial :
  initial Mesa.ZINK_DEFAULT_MAX_DESCS (Example.one_pool_state 1)
    Example.one_pool_program.
Proof.
  split; [reflexivity|]. split; [|reflexivity].
  apply Forall_cons. split; [|apply Forall_nil_2].
  unfold pool_created. cbn. unfold Mesa.ZINK_DEFAULT_MAX_DESCS.
  split_and!; try reflexivity; lia.
Qed.

Lemma mesa_ceiling_multiple : (10 | Mesa.ZINK_DEFAULT_MAX_DESCS).
Proof. by exists 500. Qed.

Lemma mesa_ceiling_positive : 0 < Mesa.ZINK_DEFAULT_MAX_DESCS.
Proof. reflexivity. Qed.

(** X13.  No dangling set pointers.  Starting from pools that were just
    created and under a ceiling that is a positive multiple of ten, after
    any sequence of lookups, recycles, invalidations, flushes, bindings and
    resource destructions every entry of an active table, of a recycle table
    and of a shell list, and every last set of the program, points to a set
    that exists. *)
Theorem tables_point_to_sets
    (ZINK_SHADER_COUNT : nat) (ZINK_DEFAULT_MAX_DESCS : Z) (NDEBUG : bool)
    (vkAllocateDescriptorSets : zink_state -> nat -> Z -> bool)
    cs st0 pg0 st pg :
  (10 | ZINK_DEFAULT_MAX_DESCS) ->
  0 < ZINK_DEFAULT_MAX_DESCS ->
  initial ZINK_DEFAULT_MAX_DESCS st0 pg0 ->
  run_calls ZINK_SHADER_COUNT ZINK_DEFAULT_MAX_DESCS NDEBUG
    vkAllocateDescriptorSets cs (st0, pg0)
  = Ok (st, pg) ->
  (forall q p m, pools st !! q = Some p -> m ∈ pool_members p ->
     is_Some (sets st !! m))
  /\ (forall t l, last_set pg t = Some l -> is_Some (sets st !! l)).
Proof.
  intros Hmul Hpos Hinit Hrun.
  assert (Hinv : cache_inv ZINK_DEFAULT_MAX_DESCS st pg).
  { eapply run_calls_inv; [done|done| |exact Hrun]. by apply initial_inv. }
  split.
  - intros q p m Hq Hm. apply lookup_lt_is_Some.
    by eapply inv_members_exist.
  - intros t l Hl. apply lookup_lt_is_Some.
    by eapply inv_last_set_exists.
Qed.

Lemma tables_point_to_sets_witness :
  exists st pg l,
    run_calls Mesa.ZINK_SHADER_COUNT Mesa.ZINK_DEFAULT_MAX_DESCS false
      Example.granting
      [call_get 1 (Mesa.compute_context 7) ZINK_DESCRIPTOR_TYPE_UBO true;
       call_invalidate 0; call_flush;
       call_get 1 (Mesa.compute_context 8) ZINK_DESCRIPTOR_TYPE_UBO true]
      (Example.one_pool_state 1, Example.one_pool_program)
    = Ok (st, pg)
    /\ last_set pg ZINK_DESCRIPTOR_TYPE_UBO = Some l
    /\ is_Some (sets st !! l).
Proof.
  eexists _, _, _.
  assert (H : run_calls Mesa.ZINK_SHADER_COUNT Mesa.ZINK_DEFAULT_MAX_DESCS
                false Example.granting
                [call_get 1 (Mesa.compute_context 7)
                   ZINK_DESCRIPTOR_TYPE_UBO true;
                 call_invalidate 0; call_flush;
                 call_get 1 (Mesa.compute_context 8)
                   ZINK_DESCRIPTOR_TYPE_UBO true]
                (Example.one_pool_state 1, Example.one_pool_program)
              = Ok (_, _))
    by (vm_compute; reflexivity).
  split; [exact H|]. split; [reflexivity|].
  exact (proj2 (tables_point_to_sets _ _ _ _ _ _ _ _ _ mesa_ceiling_multiple
                  mesa_ceiling_positive one_pool_initial H)
           ZINK_DESCRIPTOR_TYPE_UBO _ eq_refl).
Defined.

(** X14.  Sets are created by whole buckets.  Under the same conditions the
    counter of a pool with descriptors is always a multiple of ten, and the
    pools without descriptors of a program have created at most one set
    each. *)
Theorem sets_allocated_by_buckets
    (ZINK_SHADER_COUNT : nat) (ZINK_DEFAULT_MAX_DESCS : Z) (NDEBUG : bool)
    (vkAllocateDescriptorSets : zink_state -> nat -> Z -> bool)
    cs st0 pg0 st pg :
  (10 | ZINK_DEFAULT_MAX_DESCS) ->
  0 < ZINK_DEFAULT_MAX_DESCS ->
  initial ZINK_DEFAULT_MAX_DESCS st0 pg0 ->
  run_calls ZINK_SHADER_COUNT ZINK_DEFAULT_MAX_DESCS NDEBUG
    vkAllocateDescriptorSets cs (st0, pg0)
  = Ok (st, pg) ->
  forall q p, pools st !! q = Some p ->
    (num_descriptors p <> 0 -> (10 | num_sets_allocated p))
    /\ (num_descriptors p = 0 -> 0 <= num_sets_allocated p <= 1).
Proof.
  intros Hmul Hpos Hinit Hrun q p Hq.
  assert (Hinv : cache_inv ZINK_DEFAULT_MAX_DESCS st pg).
  { eapply run_calls_inv; [done|done| |exact Hrun]. by apply initial_inv. }
  destruct (inv_counters _ _ _ Hinv _ _ Hq) as (_ & _ & [? _] & H10 & H1).
  split; [done|]. intros H0. split; [done|by apply H1].
Qed.

Lemma sets_allocated_by_buckets_witness :
  exists st pg p,
    run_calls Mesa.ZINK_SHADER_COUNT Mesa.ZINK_DEFAULT_MAX_DESCS false
      Example.granting
      ((fun s => call_get 1 (Mesa.compute_context s)
                   ZINK_DESCRIPTOR_TYPE_UBO true)
         <$> [1; 2; 3; 4; 5; 6; 7; 8; 9; 10; 11])
      (Example.one_pool_state 1, Example.one_pool_program)
    = Ok (st, pg)
    /\ pools st !! 0%nat = Some p
    /\ num_sets_allocated p = 20
    /\ (10 | num_sets_allocated p).
Proof.
  eexists _, _, _.
  assert (H : run_calls Mesa.ZINK_SHADER_COUNT Mesa.ZINK_DEFAULT_MAX_DESCS
                false Example.granting
                ((fun s => call_get 1 (Mesa.compute_context s)
                             ZINK_DESCRIPTOR_TYPE_UBO true)
                   <$> [1; 2; 3; 4; 5; 6; 7; 8; 9; 10; 11])
                (Example.one_pool_state 1, Example.one_pool_program)
              = Ok (_, _))
    by (vm_compute; reflexivity).
  split; [exact H|]. split; [reflexivity|]. split; [reflexivity|].
  apply (sets_allocated_by_buckets _ _ _ _ _ _ _ _ _ mesa_ceiling_multiple
           mesa_ceiling_positive one_pool_initial H 0%nat _ eq_refl).
  done.
Defined.

(** ** Setting up the pools of a program *)

Lemma for_each_app {A S} (body : S -> A -> result S) s l1 l2 :
  for_each body s (l1 ++ l2)
  = for_each body s l1 ≫= fun s' => for_each body s' l2.
Proof.
  revert s. induction l1 as [|a l1 IH]; intros s; cbn [for_each app].
  - done.
  - destruct (body s a) as [s'| | |]; cbn; [apply IH|done|done|done].
Qed.

Lemma for_each_cons_Ok {A S} (body : S -> A -> result S) s a l s' :
  for_each body s (a :: l) = Ok s' ->
  exists s1, body s a = Ok s1 /\ for_each body s1 l = Ok s'.
Proof. cbn [for_each]. apply result_bind_Ok. Qed.

Lemma plan_index_shift t plan k :
  plan_index t plan k = Nat.add k <$> plan_index t plan 0.
Proof.
  revert k. induction plan as [|[i nd] plan IH]; intros k; [done|].
  cbn [plan_index]. rewrite (IH (S k)), (IH 1%nat).
  destruct (plan_index t plan 0) as [r|]; cbn.
  - f_equal. lia.
  - destruct (decide (i = t)); cbn; [f_equal; lia|done].
Qed.

Lemma pools_plan_ext n n' types found :
  (forall i, n i = n' i) ->
  pools_plan n types found = pools_plan n' types found.
Proof.
  intros Hn. revert found. induction types as [|i types IH]; intros found;
    cbn [pools_plan]; [done|].
  rewrite <- (Hn i), !IH. done.
Qed.

(** The plan for the four types, highest first. *)
Lemma pools_plan_spec (n : zink_descriptor_type -> nat) i :
  let plan := pools_plan n (reverse ZINK_DESCRIPTOR_TYPES) false in
  if existsb (fun j => (type_index i <=? type_index j)%nat
                       && negb (n j =? 0)%nat) ZINK_DESCRIPTOR_TYPES
  then exists r, plan_index i plan 0 = Some r
                 /\ plan !! r
                    = Some (i, if (n i =? 0)%nat then 1%nat else n i)
  else plan_index i plan 0 = None.
Proof.
  destruct i; cbn;
    destruct (n ZINK_DESCRIPTOR_TYPE_UBO =? 0)%nat,
             (n ZINK_DESCRIPTOR_TYPE_SAMPLER_VIEW =? 0)%nat,
             (n ZINK_DESCRIPTOR_TYPE_SSBO =? 0)%nat,
             (n ZINK_DESCRIPTOR_TYPE_IMAGE =? 0)%nat; cbn;
    try done; by eexists.
Qed.

Lemma plan_index_injective (n : zink_descriptor_type -> nat) i j r :
  let plan := pools_plan n (reverse ZINK_DESCRIPTOR_TYPES) false in
  plan_index i plan 0 = Some r -> plan_index j plan 0 = Some r -> i = j.
Proof.
  destruct i, j; cbn;
    destruct (n ZINK_DESCRIPTOR_TYPE_UBO =? 0)%nat,
             (n ZINK_DESCRIPTOR_TYPE_SAMPLER_VIEW =? 0)%nat,
             (n ZINK_DESCRIPTOR_TYPE_SSBO =? 0)%nat,
             (n ZINK_DESCRIPTOR_TYPE_IMAGE =? 0)%nat; vm_compute;
    congruence.
Qed.

Section ProgramInitFacts.

Variable ZINK_SHADER_COUNT : nat.
Variable PIPE_SHADER_TYPES : nat.
Variable ZINK_DEFAULT_MAX_DESCS : Z.
Variable NDEBUG : bool.
Variable vk : vulkan_constants.

Abbreviation init_binding' := (init_binding PIPE_SHADER_TYPES NDEBUG).
Abbreviation init_stage' := (init_stage PIPE_SHADER_TYPES NDEBUG).
Abbreviation layout_of flags b :=
  (LayoutBinding (sb_binding b) (sb_type b) (sb_size b) flags 0).

Lemma init_binding_bindings flags j l b l' :
  init_binding' flags j l b = Ok l' ->
  (length (bindings l j) < PIPE_SHADER_TYPES * 32)%nat
  /\ bindings l' j = bindings l j ++ [layout_of flags b]
  /\ forall t, t <> j -> bindings l' t = bindings l t.
Proof.
  unfold init_binding. intros H.
  destruct (length (bindings l j) <? PIPE_SHADER_TYPES * 32)%nat eqn:Hcap;
    cbn [negb] in H; [|by destruct NDEBUG].
  apply Nat.ltb_lt in Hcap. split; [done|].
  apply result_bind_Ok in H as (m & _ & H).
  apply result_bind_Ok in H as (l1 & Hl1 & H).
  apply result_bind_Ok in H as (m' & _ & H).
  apply result_bind_Ok in H as (s & _ & H). injection H as <-.
  assert (Hb : bindings l1
               = bindings (with_bindings j
                             (bindings l j ++ [layout_of flags b]) l)).
  { destruct (m =? -1).
    - apply result_bind_Ok in Hl1 as (s0 & _ & Hl1). by injection Hl1 as <-.
    - by injection Hl1 as <-. }
  cbn [bindings with_sizes]. rewrite Hb. cbn [bindings with_bindings].
  split; [by rewrite decide_True|].
  intros t Ht. by rewrite decide_False.
Qed.

Lemma init_bindings_loop flags j bs l l' :
  for_each (init_binding' flags j) l bs = Ok l' ->
  bindings l' j = bindings l j ++ ((fun b => layout_of flags b) <$> bs)
  /\ (forall t, t <> j -> bindings l' t = bindings l t)
  /\ (length (bindings l' j) <= PIPE_SHADER_TYPES * 32
      \/ bs = [])%nat.
Proof.
  revert l. induction bs as [|b bs IH]; intros l H.
  - injection H as <-. rewrite app_nil_r. split_and!; [done|done|by right].
  - apply for_each_cons_Ok in H as (l1 & Hb & H).
    apply init_binding_bindings in Hb as (Hcap & Hj & Ho).
    destruct (IH _ H) as (Hj' & Ho' & Hcap').
    split_and!.
    + rewrite Hj', Hj, <- app_assoc. done.
    + intros t Ht. by rewrite Ho', Ho.
    + left. destruct Hcap' as [?| ->]; [done|].
      injection H as <-. rewrite Hj, length_app. cbn. lia.
Qed.

Lemma init_shader_loop (sh : zink_shader) types l l' :
  NoDup types ->
  for_each (fun l j => for_each (init_binding' (sh_stage_flags sh) j) l
                         (sh_bindings sh j)) l types = Ok l' ->
  forall t, bindings l' t
            = bindings l t
              ++ if bool_decide (t ∈ types)
                 then shader_layout_bindings sh t else [].
Proof.
  revert l. induction types as [|j types IH]; intros l Hnd H t.
  - injection H as <-. rewrite bool_decide_eq_false_2, app_nil_r;
      [done|apply not_elem_of_nil].
  - apply NoDup_cons in Hnd as [Hj Hnd].
    apply for_each_cons_Ok in H as (l1 & Hb & H).
    apply init_bindings_loop in Hb as (Hbj & Hbo & _).
    rewrite (IH _ Hnd H t).
    destruct (decide (t = j)) as [->|Hne].
    + rewrite Hbj, (bool_decide_eq_false_2 (j ∈ types)) by done.
      rewrite bool_decide_eq_true_2 by left. by rewrite app_nil_r.
    + rewrite (Hbo _ Hne). f_equal.
      destruct (decide (t ∈ types)) as [Hin|Hnin].
      * rewrite !bool_decide_eq_true_2; [done|by right|done].
      * rewrite !bool_decide_eq_false_2; [done| |done].
        intros Hin. apply elem_of_cons in Hin as [?|?]; done.
Qed.

Lemma NoDup_ZINK_DESCRIPTOR_TYPES : NoDup ZINK_DESCRIPTOR_TYPES.
Proof. by apply (bool_decide_unpack (NoDup ZINK_DESCRIPTOR_TYPES)). Qed.

Lemma init_stage_bindings stages l i l' :
  init_stage' stages l i = Ok l' ->
  exists shader,
    stages !! i = Some shader
    /\ forall t, bindings l' t
                 = bindings l t ++ stage_layout_bindings shader t.
Proof.
  unfold init_stage. intros H.
  apply result_bind_Ok in H as (shader & Hs & H). apply deref_Ok in Hs.
  exists shader. split; [done|]. intros t. destruct shader as [sh|].
  - rewrite (init_shader_loop sh _ _ _ NoDup_ZINK_DESCRIPTOR_TYPES H t).
    rewrite bool_decide_eq_true_2; [done|].
    apply elem_of_ZINK_DESCRIPTOR_TYPES.
  - injection H as <-. cbn. by rewrite app_nil_r.
Qed.

Lemma init_stages_bindings stages n k l l' :
  for_each (init_stage' stages) l (seq k n) = Ok l' ->
  (n = 0 \/ k + n <= length stages)%nat
  /\ forall t, bindings l' t
               = bindings l t
                 ++ concat ((fun shader => stage_layout_bindings shader t)
                              <$> take n (drop k stages)).
Proof.
  revert k l. induction n as [|n IH]; intros k l H.
  - injection H as <-. split; [by left|].
    intros t. by rewrite take_0, app_nil_r.
  - cbn [seq] in H. apply for_each_cons_Ok in H as (l1 & Hs & H).
    apply init_stage_bindings in Hs as (shader & Hk & Hb).
    destruct (IH _ _ H) as (Hlen & Hrest).
    assert (Hlt : (k < length stages)%nat) by by eapply lookup_lt_Some.
    split; [right; lia|]. intros t.
    rewrite (Hrest t), (Hb t), <- app_assoc. f_equal.
    rewrite (drop_S _ _ _ Hk). done.
Qed.

Lemma init_stages_capacity stages n k l l' :
  for_each (init_stage' stages) l (seq k n) = Ok l' ->
  (forall t, length (bindings l t) <= PIPE_SHADER_TYPES * 32)%nat ->
  (forall t, length (bindings l' t) <= PIPE_SHADER_TYPES * 32)%nat.
Proof.
  assert (Hinner : forall flags j bs l l',
    for_each (init_binding' flags j) l bs = Ok l' ->
    (forall t, length (bindings l t) <= PIPE_SHADER_TYPES * 32)%nat ->
    (forall t, length (bindings l' t) <= PIPE_SHADER_TYPES * 32)%nat).
  { intros flags j bs l0 l0' H Hcap t.
    apply init_bindings_loop in H as (Hj & Ho & Hc).
    destruct (decide (t = j)) as [->|Hne]; [|by rewrite Ho].
    destruct Hc as [?| ->]; [done|].
    rewrite Hj. cbn. by rewrite app_nil_r. }
  assert (Htypes : forall (sh : zink_shader) types l l',
    for_each (fun l j => for_each (init_binding' (sh_stage_flags sh) j) l
                           (sh_bindings sh j)) l types = Ok l' ->
    (forall t, length (bindings l t) <= PIPE_SHADER_TYPES * 32)%nat ->
    (forall t, length (bindings l' t) <= PIPE_SHADER_TYPES * 32)%nat).
  { intros sh types. induction types as [|j types IH]; intros l0 l0' H Hcap.
    - by injection H as <-.
    - apply for_each_cons_Ok in H as (l1 & Hb & H).
      eapply IH; [exact H|]. by eapply Hinner. }
  revert k l. induction n as [|n IH]; intros k l H Hcap.
  - by injection H as <-.
  - cbn [seq] in H. apply for_each_cons_Ok in H as (l1 & Hs & H).
    eapply IH; [exact H|].
    unfold init_stage in Hs.
    apply result_bind_Ok in Hs as ([sh|] & _ & Hs).
    + by eapply Htypes.
    + by injection Hs as <-.
Qed.

(** The loop over the types. *)
Lemma descriptor_pool_create_inv screen st bs szs st' q :
  descriptor_pool_create ZINK_DEFAULT_MAX_DESCS screen st bs szs = (st', q) ->
  (q = None /\ st' = st)
  \/ (q = Some (length (pools st))
      /\ st' = with_pools
                 (pools st ++ [Pool (Z.of_nat (length bs)) [] [] [] 0]) st).
Proof.
  unfold descriptor_pool_create. intros H.
  destruct (negb (host_alloc screen)); [left; by injection H as <- <-|].
  destruct (negb (vkCreateDescriptorSetLayout screen bs));
    [left; by injection H as <- <-|].
  destruct (negb (vkCreateDescriptorPool screen szs ZINK_DEFAULT_MAX_DESCS));
    [left; by injection H as <- <-|].
  right. by injection H as <- <-.
Qed.

Abbreviation init_pools' :=
  (init_pools ZINK_DEFAULT_MAX_DESCS vk).

Lemma init_pools_plan screen l types found st pg st' pg' :
  init_pools' screen l types found st pg = Ok (st', pg', true) ->
  let plan := pools_plan (fun i => length (bindings l i)) types found in
  sets st' = sets st /\ slots st' = slots st /\ batch st' = batch st
  /\ last_set pg' = last_set pg
  /\ num_bindings_typed pg' = num_bindings_typed pg
  /\ pools st'
     = pools st ++ ((fun e => Pool (Z.of_nat e.2) [] [] [] 0) <$> plan)
  /\ forall t, pg_pool pg' t
               = match plan_index t plan (length (pools st)) with
                 | Some q => Some q
                 | None => pg_pool pg t
                 end.
Proof.
  revert found st pg. induction types as [|i types IH];
    intros found st pg H; cbn [init_pools pools_plan] in *.
  - injection H as <- <-. cbn. by rewrite app_nil_r.
  - destruct (length (bindings l i) =? 0)%nat eqn:Hn.
    + destruct found; cbn [negb] in H.
      * destruct (descriptor_pool_create ZINK_DEFAULT_MAX_DESCS screen st
                    [null_binding vk] [null_size ZINK_DEFAULT_MAX_DESCS vk])
          as [st1 q] eqn:Hc.
        apply descriptor_pool_create_inv in Hc as [[-> ->]|[-> ->]];
          [done|].
        apply IH in H as (Hs & Hsl & Hb & Hls & Hnb & Hp & Hpg).
        cbn [sets slots batch pools with_pools last_set num_bindings_typed
             set_pg_pool pg_pool] in *.
        split_and!; try done.
        -- rewrite Hp, <- app_assoc. done.
        -- intros t. rewrite Hpg, length_app. cbn [length plan_index].
           rewrite Nat.add_1_r.
           destruct (plan_index t _ _); [done|].
           by destruct (decide (i = t)) as [->|?];
             [rewrite decide_True|rewrite decide_False].
      * by apply IH in H.
    + apply result_bind_Ok in H as (szs & _ & H).
      destruct (descriptor_pool_create ZINK_DEFAULT_MAX_DESCS screen st
                  (bindings l i) szs) as [st1 q] eqn:Hc.
      apply descriptor_pool_create_inv in Hc as [[-> ->]|[-> ->]];
        [done|].
      apply IH in H as (Hs & Hsl & Hb & Hls & Hnb & Hp & Hpg).
      cbn [sets slots batch pools with_pools last_set num_bindings_typed
           set_pg_pool pg_pool] in *.
      split_and!; try done.
      -- rewrite Hp, <- app_assoc. done.
      -- intros t. rewrite Hpg, length_app. cbn [length plan_index].
         rewrite Nat.add_1_r.
         destruct (plan_index t _ _); [done|].
         by destruct (decide (i = t)) as [->|?];
           [rewrite decide_True|rewrite decide_False].
Qed.

Lemma init_pools_frame screen l types found st pg st' pg' ok :
  init_pools' screen l types found st pg = Ok (st', pg', ok) ->
  sets st' = sets st /\ slots st' = slots st /\ batch st' = batch st
  /\ last_set pg' = last_set pg
  /\ (exists new,
        pools st' = pools st ++ new
        /\ Forall (fun p => exists nd,
                     (1 <= nd)%nat
                     /\ (nd = 1%nat \/ exists t, nd = length (bindings l t))
                     /\ p = Pool (Z.of_nat nd) [] [] [] 0) new)
  /\ forall t, pg_pool pg' t = pg_pool pg t \/ pg_pool pg' t = None
               \/ exists q, pg_pool pg' t = Some q
                            /\ (length (pools st) <= q
                                < length (pools st'))%nat.
Proof.
  assert (Hstep : forall i (st st' : zink_state) (pg pg' : zink_program) nd,
    (1 <= nd)%nat ->
    (nd = 1%nat \/ exists t, nd = length (bindings l t)) ->
    (sets st' = sets (with_pools (pools st ++ [Pool (Z.of_nat nd) [] [] [] 0])
                        st)
     /\ slots st' = slots st /\ batch st' = batch st
     /\ last_set pg' = last_set (set_pg_pool i (Some (length (pools st))) pg)
     /\ (exists new,
           pools st' = (pools st ++ [Pool (Z.of_nat nd) [] [] [] 0]) ++ new
           /\ Forall (fun p => exists nd,
                        (1 <= nd)%nat
                        /\ (nd = 1%nat
                            \/ exists t, nd = length (bindings l t))
                        /\ p = Pool (Z.of_nat nd) [] [] [] 0) new)
     /\ forall t,
          pg_pool pg' t
          = pg_pool (set_pg_pool i (Some (length (pools st))) pg) t
          \/ pg_pool pg' t = None
          \/ exists q, pg_pool pg' t = Some q
                       /\ (length (pools st ++ [Pool (Z.of_nat nd) [] [] [] 0])
                           <= q < length (pools st'))%nat) ->
    sets st' = sets st /\ slots st' = slots st /\ batch st' = batch st
    /\ last_set pg' = last_set pg
    /\ (exists new,
          pools st' = pools st ++ new
          /\ Forall (fun p => exists nd,
                       (1 <= nd)%nat
                       /\ (nd = 1%nat
                           \/ exists t, nd = length (bindings l t))
                       /\ p = Pool (Z.of_nat nd) [] [] [] 0) new)
    /\ forall t, pg_pool pg' t = pg_pool pg t \/ pg_pool pg' t = None
                 \/ exists q, pg_pool pg' t = Some q
                              /\ (length (pools st) <= q
                                  < length (pools st'))%nat).
  { intros i st0 st0' pg0 pg0' nd Hnd Hwhy
      (Hs & Hsl & Hb & Hls & (new & Hp & Hnew) & Hpg).
    split_and!; try done.
    - exists (Pool (Z.of_nat nd) [] [] [] 0 :: new).
      split; [by rewrite Hp, <- app_assoc|].
      apply Forall_cons. split; [by exists nd|done].
    - intros t. destruct (Hpg t) as [Ht|[Ht|(q & Ht & Hq)]].
      + cbn [pg_pool set_pg_pool] in Ht.
        destruct (decide (t = i)) as [->|Hne]; [|by left].
        right; right. exists (length (pools st0)). split; [done|].
        rewrite Hp, !length_app. cbn. lia.
      + by right; left.
      + right; right. exists q. split; [done|].
        rewrite length_app in Hq. cbn in Hq. lia. }
  revert found st pg. induction types as [|i types IH];
    intros found st pg H; cbn [init_pools] in *.
  - injection H as <- <- <-. split_and!; try done; [|by left].
    exists []. by rewrite app_nil_r.
  - destruct (length (bindings l i) =? 0)%nat eqn:Hn.
    + destruct found; cbn [negb] in H; [|by apply IH in H].
      destruct (descriptor_pool_create ZINK_DEFAULT_MAX_DESCS screen st
                  [null_binding vk] [null_size ZINK_DEFAULT_MAX_DESCS vk])
        as [st1 q] eqn:Hc.
      apply descriptor_pool_create_inv in Hc as [[-> ->]|[-> ->]].
      * injection H as <- <- <-. split_and!; try done.
        -- exists []. by rewrite app_nil_r.
        -- intros t. cbn [pg_pool set_pg_pool].
           destruct (decide (t = i)); [by right; left|by left].
      * apply IH in H. eapply (Hstep i _ _ _ _ 1%nat); [lia|by left|].
        exact H.
    + apply result_bind_Ok in H as (szs & _ & H).
      destruct (descriptor_pool_create ZINK_DEFAULT_MAX_DESCS screen st
                  (bindings l i) szs) as [st1 q] eqn:Hc.
      apply Nat.eqb_neq in Hn.
      apply descriptor_pool_create_inv in Hc as [[-> ->]|[-> ->]].
      * injection H as <- <- <-. split_and!; try done.
        -- exists []. by rewrite app_nil_r.
        -- intros t. cbn [pg_pool set_pg_pool].
           destruct (decide (t = i)); [by right; left|by left].
      * apply IH in H.
        eapply (Hstep i _ _ _ _ (length (bindings l i)));
          [lia|right; by exists i|]. exact H.
Qed.

End ProgramInitFacts.

(** ** The local arrays of the set-up *)

Lemma first_occurrences_app seen a b :
  first_occurrences seen (a ++ b)
  = first_occurrences (first_occurrences seen a) b.
Proof.
  revert seen. induction a as [|t a IH]; intros seen; cbn; [done|].
  apply IH.
Qed.

Lemma first_occurrences_length seen ts :
  (length seen <= length (first_occurrences seen ts))%nat.
Proof.
  revert seen. induction ts as [|t ts IH]; intros seen; cbn; [done|].
  etrans; [|apply IH]. case_bool_decide; [done|].
  rewrite length_app. cbn. lia.
Qed.

Lemma first_occurrences_elem seen ts t :
  t ∈ first_occurrences seen ts <-> t ∈ seen \/ t ∈ ts.
Proof.
  revert seen. induction ts as [|u ts IH]; intros seen; cbn.
  - split; [by left|]. intros [?|H]; [done|]. by apply elem_of_nil in H.
  - rewrite IH, elem_of_cons. case_bool_decide as Hu.
    + split; [intros [?|?]; auto|]. intros [?|[->|?]]; auto.
    + rewrite elem_of_app, list_elem_of_singleton. tauto.
Qed.

Lemma descriptor_count_snoc c done e t :
  descriptor_count c (done ++ [e]) t
  = if decide (sb_type e.2 = t)
    then wrap32 (descriptor_count c done t + sb_size e.2)
    else descriptor_count c done t.
Proof. unfold descriptor_count. by rewrite foldl_app. Qed.

Lemma bindings_of_type_snoc j done e :
  bindings_of_type j (done ++ [e])
  = bindings_of_type j done ++ if decide (e.1.2 = j) then [e] else [].
Proof.
  unfold bindings_of_type. rewrite filter_app. f_equal.
Qed.

Lemma init_inv_start : init_inv init_locals_start [].
Proof.
  unfold init_inv. cbn [first_occurrences binding_types fmap list_fmap].
  cbn zeta. unfold init_locals_start.
  cbn [type_map sizes num_types bindings length].
  rewrite !length_replicate. split_and!; try done; try lia.
  - intros t Ht _. apply lookup_replicate_2. lia.
  - intros k Hk. apply lookup_replicate_2. lia.
Qed.

Lemma descriptor_count_absent c done t :
  t ∉ binding_types done -> descriptor_count c done t = c.
Proof.
  revert c. induction done as [|e done IH] using rev_ind; intros c Ht;
    [done|].
  rewrite descriptor_count_snoc. unfold binding_types in Ht.
  rewrite fmap_app, not_elem_of_app in Ht. destruct Ht as [Hd He].
  rewrite decide_False; [by apply IH|].
  intros Heq. apply He. cbn. rewrite Heq. by left.
Qed.

Lemma first_occurrences_snoc done e :
  first_occurrences [] (binding_types (done ++ [e]))
  = if bool_decide (sb_type e.2
                    ∈ first_occurrences [] (binding_types done))
    then first_occurrences [] (binding_types done)
    else first_occurrences [] (binding_types done) ++ [sb_type e.2].
Proof.
  unfold binding_types. by rewrite fmap_app, first_occurrences_app.
Qed.

Section InitInvariant.

Variable PIPE_SHADER_TYPES : nat.
Variable NDEBUG : bool.

(** One round of the innermost loop keeps the arrays as described, as long
    as the array cells it writes exist. *)
Lemma init_binding_inv flags j l b done :
  init_inv l done ->
  (sb_type b < 12)%nat ->
  (length (bindings l j) < PIPE_SHADER_TYPES * 32)%nat ->
  (length (first_occurrences [] (binding_types (done ++ [(flags, j, b)])))
   <= 6)%nat ->
  exists l',
    init_binding PIPE_SHADER_TYPES NDEBUG flags j l b = Ok l'
    /\ init_inv l' (done ++ [(flags, j, b)]).
Proof.
  intros (Htm & Hsz & Hnt & Hseen6 & Hb & Hseen & Hunseen & Hfree)
    Ht Hcap H6.
  unfold init_inv. rewrite first_occurrences_snoc in *.
  cbn [snd fst] in *.
  set (t := sb_type b) in *.
  set (seen := first_occurrences [] (binding_types done)) in *.
  assert (Hbind : forall (l' : init_locals),
    bindings l'
    = bindings (with_bindings j
                  (bindings l j
                   ++ [LayoutBinding (sb_binding b) t (sb_size b) flags 0])
                  l) ->
    forall j',
      bindings l' j'
      = (fun e => LayoutBinding (sb_binding e.2) (sb_type e.2) (sb_size e.2)
                    e.1.1 0)
          <$> bindings_of_type j' (done ++ [(flags, j, b)])).
  { intros l' Hl' j'. rewrite Hl', bindings_of_type_snoc, fmap_app.
    cbn [bindings with_bindings fst snd].
    destruct (decide (j' = j)) as [->|Hne].
    - rewrite decide_True by done. by rewrite Hb.
    - rewrite (decide_False (P := j = j')) by done.
      cbn. by rewrite app_nil_r, Hb. }
  unfold init_binding.
  apply Nat.ltb_lt in Hcap. rewrite Hcap. cbn [negb].
  cbn [type_map with_bindings].
  destruct (decide (t ∈ seen)) as [Hin|Hnin].
  - (* the type was met before *)
    rewrite bool_decide_eq_true_2 in * by done.
    apply list_elem_of_lookup_1 in Hin as [k Hk].
    destruct (Hseen _ _ Hk) as (_ & Htk & Hsk).
    fold t. rewrite Htk. cbn [deref mbind result_mbind result_bind].
    assert (Hne : (Z.of_nat k =? -1) = false) by (apply Z.eqb_neq; lia).
    rewrite Hne. cbn [mbind result_mbind result_bind type_map with_bindings].
    rewrite Htk. cbn [deref mbind result_mbind result_bind].
    rewrite Nat2Z.id. cbn [sizes with_bindings]. rewrite Hsk.
    cbn [deref mbind result_mbind result_bind type_ ps_descriptorCount].
    eexists. split; [reflexivity|].
    cbn [type_map sizes num_types with_sizes with_bindings].
    assert (Hklt : (k < 6)%nat).
    { apply lookup_lt_Some in Hk. lia. }
    split_and!; try done.
    + by rewrite length_insert.
    + by apply Hbind.
    + intros k' t' Hk'. destruct (Hseen _ _ Hk') as (Ht' & Htk' & Hsk').
      split_and!; [done|done|].
      rewrite descriptor_count_snoc. cbn [snd]. fold t.
      destruct (decide (k' = k)) as [->|Hkk].
      * rewrite Hk in Hk'. injection Hk' as <-.
        rewrite decide_True by done.
        apply list_lookup_insert_eq. lia.
      * rewrite list_lookup_insert_ne by done.
        rewrite decide_False; [done|]. intros <-.
        rewrite Htk in Htk'. injection Htk' as Heq. lia.
    + intros k' Hk'. rewrite list_lookup_insert_ne; [by apply Hfree|].
      apply lookup_lt_Some in Hk. lia.
  - (* a new type *)
    rewrite bool_decide_eq_false_2 in * by done.
    rewrite length_app in H6. cbn [length] in H6.
    assert (Hidx : (length seen < 6)%nat) by lia.
    fold t. rewrite (Hunseen _ Ht Hnin).
    cbn [deref mbind result_mbind result_bind].
    change (-1 =? -1) with true. cbn match.
    cbn [sizes type_map num_types with_num_types with_type_map
         with_bindings].
    rewrite Hnt, (Hfree (length seen)) by lia.
    cbn [deref mbind result_mbind result_bind ps_descriptorCount
         type_map with_sizes with_num_types with_type_map with_bindings].
    rewrite list_lookup_insert_eq by lia.
    cbn [deref mbind result_mbind result_bind]. rewrite Nat2Z.id.
    cbn [sizes with_sizes]. rewrite list_lookup_insert_eq by lia.
    cbn [deref mbind result_mbind result_bind type_ ps_descriptorCount].
    eexists. split; [reflexivity|].
    cbn [type_map sizes num_types with_sizes with_bindings with_num_types
         with_type_map].
    rewrite list_insert_insert_eq.
    split_and!.
    + by rewrite length_insert.
    + by rewrite length_insert.
    + rewrite length_app. cbn. lia.
    + rewrite length_app. cbn. lia.
    + by apply Hbind.
    + intros k' t' Hk'. rewrite descriptor_count_snoc. cbn [snd]. fold t.
      apply lookup_app_Some in Hk' as [Hk'|[Hge Hk']].
      * destruct (Hseen _ _ Hk') as (Ht' & Htk' & Hsk').
        assert (Hne : t' <> t).
        { intros ->. apply Hnin. by eapply list_elem_of_lookup_2. }
        split_and!; [done| |].
        -- by rewrite list_lookup_insert_ne.
        -- rewrite decide_False by done.
           rewrite list_lookup_insert_ne; [done|].
           apply lookup_lt_Some in Hk'. lia.
      * apply list_lookup_singleton_Some in Hk' as [Hz <-].
        assert (k' = length seen) by lia. subst k'.
        split_and!; [done| |].
        -- apply list_lookup_insert_eq. lia.
        -- rewrite decide_True by done.
           rewrite descriptor_count_absent;
             [apply list_lookup_insert_eq; lia|].
           intros Hd. apply Hnin.
           apply first_occurrences_elem. by right.
    + intros t' Ht' Hn'. rewrite not_elem_of_app in Hn'.
      destruct Hn' as [Hn' Hne]. rewrite list_lookup_insert_ne.
      * by apply Hunseen.
      * intros ->. apply Hne. by left.
    + intros k' Hk'. rewrite length_app in Hk'. cbn in Hk'.
      rewrite list_lookup_insert_ne by lia. apply Hfree. lia.
Qed.

Abbreviation flat_binding := (init_flat_binding PIPE_SHADER_TYPES NDEBUG).

(** The three nested loops are one loop over the flat list. *)
Lemma init_bindings_flat flags j bs l :
  for_each (init_binding PIPE_SHADER_TYPES NDEBUG flags j) l bs
  = for_each flat_binding l ((fun b => (flags, j, b)) <$> bs).
Proof.
  revert l. induction bs as [|b bs IH]; intros l; [done|].
  cbn [for_each fmap list_fmap].
  change (flat_binding l (flags, j, b))
    with (init_binding PIPE_SHADER_TYPES NDEBUG flags j l b).
  destruct (init_binding PIPE_SHADER_TYPES NDEBUG flags j l b); cbn;
    [apply IH|done|done|done].
Qed.

Lemma init_shader_flat (sh : zink_shader) js l :
  for_each (fun l j => for_each (init_binding PIPE_SHADER_TYPES NDEBUG
                                   (sh_stage_flags sh) j) l
                         (sh_bindings sh j)) l js
  = for_each flat_binding l
      (concat ((fun j => (fun b => (sh_stage_flags sh, j, b))
                           <$> sh_bindings sh j) <$> js)).
Proof.
  revert l. induction js as [|j js IH]; intros l; [done|].
  cbn [for_each fmap list_fmap concat].
  rewrite for_each_app, init_bindings_flat.
  destruct (for_each flat_binding l _); cbn; [apply IH|done|done|done].
Qed.

Lemma init_stages_flat stages n k l :
  (k + n <= length stages)%nat ->
  for_each (init_stage PIPE_SHADER_TYPES NDEBUG stages) l (seq k n)
  = for_each flat_binding l
      (concat (stage_bindings_flat <$> take n (drop k stages))).
Proof.
  revert k l. induction n as [|n IH]; intros k l Hk; [done|].
  destruct (lookup_lt_is_Some_2 stages k ltac:(lia)) as [shader Hs].
  assert (Hstage : init_stage PIPE_SHADER_TYPES NDEBUG stages l k
                   = for_each flat_binding l (stage_bindings_flat shader)).
  { unfold init_stage. rewrite Hs.
    cbn [deref mbind result_mbind result_bind].
    destruct shader as [sh|]; [apply init_shader_flat|done]. }
  rewrite (drop_S _ _ _ Hs). cbn [seq for_each take fmap list_fmap concat].
  rewrite for_each_app, Hstage.
  destruct (for_each flat_binding l (stage_bindings_flat shader)); cbn;
    [|done|done|done].
  apply IH. lia.
Qed.

(** A round that returns found its cells. *)
Lemma init_binding_Ok_inv l done e l' :
  init_inv l done ->
  flat_binding l e = Ok l' ->
  init_inv l' (done ++ [e]).
Proof.
  intros Hinv H. destruct e as [[flags j] b].
  unfold init_flat_binding in H. cbn [fst snd] in H.
  pose proof Hinv as (Htm & Hsz & Hnt & Hseen6 & Hb & Hseen & Hunseen
                      & Hfree).
  assert (Hside : (sb_type b < 12)%nat
                  /\ (length (bindings l j) < PIPE_SHADER_TYPES * 32)%nat
                  /\ (length (first_occurrences []
                                (binding_types (done ++ [(flags, j, b)])))
                      <= 6)%nat).
  { pose proof H as H'. unfold init_binding in H'.
    destruct (length (bindings l j) <? PIPE_SHADER_TYPES * 32)%nat eqn:Hcap;
      cbn [negb] in H'; [|by destruct NDEBUG].
    apply Nat.ltb_lt in Hcap.
    apply result_bind_Ok in H' as (m & Hm & H'). apply deref_Ok in Hm.
    cbn [type_map with_bindings] in Hm.
    assert (Ht : (sb_type b < 12)%nat).
    { apply lookup_lt_Some in Hm. lia. }
    split_and!; [done|done|].
    rewrite first_occurrences_snoc. cbn [snd]. case_bool_decide as Hin;
      [done|].
    rewrite (Hunseen _ Ht Hin) in Hm. injection Hm as <-.
    apply result_bind_Ok in H' as (l1 & Hl1 & _).
    change (-1 =? -1) with true in Hl1. cbn match in Hl1.
    apply result_bind_Ok in Hl1 as (s & Hs & _). apply deref_Ok in Hs.
    cbn [sizes with_num_types with_type_map with_bindings num_types] in Hs.
    apply lookup_lt_Some in Hs. rewrite length_app. cbn. lia. }
  destruct Hside as (Ht & Hcap & H6).
  destruct (init_binding_inv flags j l b done Hinv Ht Hcap H6)
    as (l'' & Hok & Hinv').
  rewrite Hok in H. by injection H as <-.
Qed.

Lemma init_flat_Ok_inv l done rest l' :
  init_inv l done ->
  for_each flat_binding l rest = Ok l' ->
  init_inv l' (done ++ rest).
Proof.
  revert l done. induction rest as [|e rest IH]; intros l done Hinv H.
  - injection H as <-. by rewrite app_nil_r.
  - apply for_each_cons_Ok in H as (l1 & He & H).
    rewrite cons_middle, app_assoc. eapply IH; [|exact H].
    by eapply init_binding_Ok_inv.
Qed.

(** The loops return when the arrays are large enough. *)
Lemma init_flat_total l done rest :
  init_inv l done ->
  (forall e, e ∈ rest -> (sb_type e.2 < 12)%nat) ->
  (length (first_occurrences [] (binding_types (done ++ rest))) <= 6)%nat ->
  (forall j, (length (bindings_of_type j (done ++ rest))
              <= PIPE_SHADER_TYPES * 32)%nat) ->
  exists l', for_each flat_binding l rest = Ok l'.
Proof.
  revert l done. induction rest as [|e rest IH];
    intros l done Hinv Hty H6 Hcap; [by eexists|].
  destruct e as [[flags j] b].
  assert (Hassoc : done ++ (flags, j, b) :: rest
                   = (done ++ [(flags, j, b)]) ++ rest)
    by by rewrite <- app_assoc.
  rewrite Hassoc in H6, Hcap.
  destruct (init_binding_inv flags j l b done Hinv) as (l1 & Hok & Hinv1).
  - apply (Hty (flags, j, b)). by left.
  - destruct Hinv as (_ & _ & _ & _ & Hb & _). rewrite Hb, length_fmap.
    specialize (Hcap j). unfold bindings_of_type in *.
    rewrite !filter_app, !length_app in Hcap.
    rewrite filter_cons_True in Hcap by done. cbn [length] in Hcap. lia.
  - unfold binding_types in H6. rewrite fmap_app in H6.
    rewrite first_occurrences_app in H6.
    etrans; [apply first_occurrences_length|exact H6].
  - cbn [for_each].
    change (flat_binding l (flags, j, b))
      with (init_binding PIPE_SHADER_TYPES NDEBUG flags j l b).
    rewrite Hok. cbn [mbind result_mbind result_bind].
    eapply IH; [exact Hinv1| | |].
    + intros e He. apply Hty. by right.
    + exact H6.
    + exact Hcap.
Qed.

(** A seventh Vulkan type is written to [sizes[6]]. *)
Lemma init_binding_overflow flags j l b done :
  init_inv l done ->
  (sb_type b < 12)%nat ->
  (length (bindings l j) < PIPE_SHADER_TYPES * 32)%nat ->
  (6 < length (first_occurrences []
                 (binding_types (done ++ [(flags, j, b)]))))%nat ->
  init_binding PIPE_SHADER_TYPES NDEBUG flags j l b = Crashed.
Proof.
  intros (Htm & Hsz & Hnt & Hseen6 & Hb & Hseen & Hunseen & Hfree)
    Ht Hcap H6.
  rewrite first_occurrences_snoc in H6. cbn [snd] in H6.
  case_bool_decide as Hin; [lia|].
  rewrite length_app in H6. cbn [length] in H6.
  unfold init_binding. apply Nat.ltb_lt in Hcap. rewrite Hcap. cbn [negb].
  cbn [type_map with_bindings]. rewrite (Hunseen _ Ht Hin).
  cbn [deref mbind result_mbind result_bind].
  change (-1 =? -1) with true. cbn match.
  cbn [sizes type_map num_types with_num_types with_type_map with_bindings].
  rewrite (lookup_ge_None_2 (sizes l)) by lia. done.
Qed.

Lemma init_flat_overflow l done rest :
  init_inv l done ->
  (forall e, e ∈ rest -> (sb_type e.2 < 12)%nat) ->
  (forall j, (length (bindings_of_type j (done ++ rest))
              <= PIPE_SHADER_TYPES * 32)%nat) ->
  (6 < length (first_occurrences [] (binding_types (done ++ rest))))%nat ->
  for_each flat_binding l rest = Crashed.
Proof.
  revert l done. induction rest as [|e rest IH];
    intros l done Hinv Hty Hcap H6.
  - rewrite app_nil_r in H6. destruct Hinv as (_ & _ & _ & ? & _). lia.
  - destruct e as [[flags j] b].
    assert (Hassoc : done ++ (flags, j, b) :: rest
                     = (done ++ [(flags, j, b)]) ++ rest)
      by by rewrite <- app_assoc.
    rewrite Hassoc in H6, Hcap.
    assert (Ht : (sb_type b < 12)%nat).
    { apply (Hty (flags, j, b)). by left. }
    assert (Hroom : (length (bindings l j) < PIPE_SHADER_TYPES * 32)%nat).
    { destruct Hinv as (_ & _ & _ & _ & Hb & _). rewrite Hb, length_fmap.
      specialize (Hcap j). unfold bindings_of_type in *.
      rewrite !filter_app, !length_app in Hcap.
      rewrite filter_cons_True in Hcap by done. cbn [length] in Hcap.
      lia. }
    cbn [for_each].
    change (flat_binding l (flags, j, b))
      with (init_binding PIPE_SHADER_TYPES NDEBUG flags j l b).
    destruct (decide (length (first_occurrences []
                                (binding_types (done ++ [(flags, j, b)])))
                      <= 6)%nat) as [Hle|Hgt].
    + destruct (init_binding_inv flags j l b done Hinv Ht Hroom Hle)
        as (l1 & -> & Hinv1).
      cbn [mbind result_mbind result_bind].
      eapply IH; [exact Hinv1| |exact Hcap|exact H6].
      intros e He. apply Hty. by right.
    + rewrite (init_binding_overflow flags j l b done Hinv Ht Hroom)
        by lia.
      done.
Qed.

End InitInvariant.

Section InitSizes.

Variable ZINK_DEFAULT_MAX_DESCS : Z.
Variable vk : vulkan_constants.

Lemma init_pick_size_scaled l flat t :
  init_inv l flat ->
  (t < 12)%nat ->
  init_pick_size (init_scale_sizes ZINK_DEFAULT_MAX_DESCS l) t
  = Ok (expected_pool_size ZINK_DEFAULT_MAX_DESCS flat t).
Proof.
  intros (Htm & Hsz & Hnt & Hseen6 & Hb & Hseen & Hunseen & Hfree) Ht.
  unfold init_pick_size, expected_pool_size.
  cbn [init_scale_sizes type_map sizes with_sizes].
  destruct (decide (t ∈ binding_types flat)) as [Hin|Hnin].
  - rewrite bool_decide_eq_true_2 by done.
    assert (Hin' : t ∈ first_occurrences [] (binding_types flat))
      by (apply first_occurrences_elem; by right).
    apply list_elem_of_lookup_1 in Hin' as [k Hk].
    destruct (Hseen _ _ Hk) as (_ & Htk & Hsk).
    rewrite Htk. cbn [deref mbind result_mbind result_bind].
    assert (Hne : (Z.of_nat k =? -1) = false) by (apply Z.eqb_neq; lia).
    rewrite Hne, Nat2Z.id, list_lookup_imap, Hsk. cbn.
    apply lookup_lt_Some in Hk.
    rewrite bool_decide_eq_true_2 by lia. done.
  - rewrite bool_decide_eq_false_2 by done.
    rewrite Hunseen; [done|done|].
    intros Hin. apply first_occurrences_elem in Hin as [Hin|Hin]; [|done].
    by apply elem_of_nil in Hin.
Qed.

Lemma init_pick_size_range l t x :
  length (type_map l) = 12%nat ->
  init_pick_size l t = Ok x -> (t < 12)%nat.
Proof.
  intros Hlen H. unfold init_pick_size in H.
  apply result_bind_Ok in H as (m & Hm & _). apply deref_Ok in Hm.
  apply lookup_lt_Some in Hm. lia.
Qed.

Lemma init_type_sizes_Ok l flat i szs :
  init_inv l flat ->
  init_type_sizes vk (init_scale_sizes ZINK_DEFAULT_MAX_DESCS l) i = Ok szs ->
  szs = expected_type_sizes vk ZINK_DEFAULT_MAX_DESCS flat i.
Proof.
  intros Hinv H.
  assert (Hlen : length (type_map
                           (init_scale_sizes ZINK_DEFAULT_MAX_DESCS l))
                 = 12%nat) by by destruct Hinv.
  assert (Hpick : forall t x,
    init_pick_size (init_scale_sizes ZINK_DEFAULT_MAX_DESCS l) t = Ok x ->
    x = expected_pool_size ZINK_DEFAULT_MAX_DESCS flat t).
  { intros t x Hx. pose proof (init_pick_size_range _ _ _ Hlen Hx) as Ht.
    rewrite (init_pick_size_scaled l flat t Hinv Ht) in Hx.
    by injection Hx. }
  unfold expected_type_sizes. destruct i; cbn [init_type_sizes] in H.
  - apply result_bind_Ok in H as (a & Ha & H).
    apply result_bind_Ok in H as (b & Hb & H). injection H as <-.
    by rewrite (Hpick _ _ Ha), (Hpick _ _ Hb).
  - apply result_bind_Ok in H as (a & Ha & H).
    apply result_bind_Ok in H as (b & Hb & H). injection H as <-.
    by rewrite (Hpick _ _ Ha), (Hpick _ _ Hb).
  - by apply Hpick.
  - apply result_bind_Ok in H as (a & Ha & H).
    apply result_bind_Ok in H as (b & Hb & H). injection H as <-.
    by rewrite (Hpick _ _ Ha), (Hpick _ _ Hb).
Qed.

Lemma init_type_sizes_total l flat i :
  init_inv l flat ->
  type_map_covers vk ->
  init_type_sizes vk (init_scale_sizes ZINK_DEFAULT_MAX_DESCS l) i
  = Ok (expected_type_sizes vk ZINK_DEFAULT_MAX_DESCS flat i).
Proof.
  intros Hinv (H1 & H2 & H3 & H4 & H5 & H6 & H7).
  unfold expected_type_sizes. destruct i; cbn [init_type_sizes];
    rewrite ?(init_pick_size_scaled l flat _ Hinv) by done; done.
Qed.

Lemma descriptor_pool_create_Some screen st bs szs st' q :
  descriptor_pool_create ZINK_DEFAULT_MAX_DESCS screen st bs szs
  = (st', Some q) ->
  host_alloc screen = true
  /\ vkCreateDescriptorSetLayout screen bs = true
  /\ vkCreateDescriptorPool screen szs ZINK_DEFAULT_MAX_DESCS = true.
Proof.
  unfold descriptor_pool_create. intros H.
  destruct (host_alloc screen); [|done].
  destruct (vkCreateDescriptorSetLayout screen bs); [|done].
  by destruct (vkCreateDescriptorPool screen szs ZINK_DEFAULT_MAX_DESCS).
Qed.

(** What the device agreed to when the loop over the types answers
    [true]. *)
Lemma init_pools_calls screen l types found st pg st' pg' i :
  init_pools ZINK_DEFAULT_MAX_DESCS vk screen l types found st pg
  = Ok (st', pg', true) ->
  i ∈ types -> length (bindings l i) <> 0%nat ->
  exists szs,
    init_type_sizes vk l i = Ok szs
    /\ host_alloc screen = true
    /\ vkCreateDescriptorSetLayout screen (bindings l i) = true
    /\ vkCreateDescriptorPool screen szs ZINK_DEFAULT_MAX_DESCS = true.
Proof.
  revert found st pg. induction types as [|j types IH];
    intros found st pg H Hi Hn; [by apply elem_of_nil in Hi|].
  cbn [init_pools] in H.
  destruct (length (bindings l j) =? 0)%nat eqn:Hj.
  - apply Nat.eqb_eq in Hj.
    assert (Hin : i ∈ types).
    { apply elem_of_cons in Hi as [->|?]; [done|done]. }
    destruct found; cbn [negb] in H; [|by eapply IH].
    destruct (descriptor_pool_create ZINK_DEFAULT_MAX_DESCS screen st
                [null_binding vk] [null_size ZINK_DEFAULT_MAX_DESCS vk])
      as [st1 [q|]]; [by eapply IH|done].
  - apply result_bind_Ok in H as (szs & Hszs & H).
    destruct (descriptor_pool_create ZINK_DEFAULT_MAX_DESCS screen st
                (bindings l j) szs) as [st1 [q|]] eqn:Hc; [|done].
    apply elem_of_cons in Hi as [->|Hin]; [|by eapply IH].
    exists szs. split; [done|]. by eapply descriptor_pool_create_Some.
Qed.

Lemma init_pools_total screen l types found st pg :
  (forall i, exists szs, init_type_sizes vk l i = Ok szs) ->
  exists r,
    init_pools ZINK_DEFAULT_MAX_DESCS vk screen l types found st pg = Ok r.
Proof.
  intros Hszs. revert found st pg. induction types as [|j types IH];
    intros found st pg; cbn [init_pools]; [by eexists|].
  destruct (length (bindings l j) =? 0)%nat.
  - destruct found; cbn [negb]; [|apply IH].
    destruct (descriptor_pool_create ZINK_DEFAULT_MAX_DESCS screen st
                [null_binding vk] [null_size ZINK_DEFAULT_MAX_DESCS vk])
      as [st1 [q|]]; [apply IH|by eexists].
  - destruct (Hszs j) as [szs ->].
    cbn [mbind result_mbind result_bind].
    destruct (descriptor_pool_create ZINK_DEFAULT_MAX_DESCS screen st
                (bindings l j) szs) as [st1 [q|]]; [apply IH|by eexists].
Qed.

End InitSizes.

Lemma lookup_app_plus {A} (l1 l2 : list A) k :
  (l1 ++ l2) !! (length l1 + k)%nat = l2 !! k.
Proof.
  rewrite lookup_app_r by lia. f_equal. lia.
Qed.

(** What the set-up leaves behind when it answers [true], in terms of the
    plan of the pools. *)
Lemma program_init_plan
    (ZINK_SHADER_COUNT PIPE_SHADER_TYPES : nat) (ZINK_DEFAULT_MAX_DESCS : Z)
    (NDEBUG : bool) (vk : vulkan_constants)
    screen st stages pg st' pg' :
  Z.of_nat PIPE_SHADER_TYPES * 128 < 2 ^ 32 ->
  zink_descriptor_program_init ZINK_SHADER_COUNT PIPE_SHADER_TYPES
    ZINK_DEFAULT_MAX_DESCS NDEBUG vk screen st stages pg
  = Ok (st', pg', true) ->
  let plan :=
    pools_plan
      (fun i => length (program_layout_bindings ZINK_SHADER_COUNT stages i))
      (reverse ZINK_DESCRIPTOR_TYPES) false in
  sets st' = sets st /\ slots st' = slots st /\ batch st' = batch st
  /\ last_set pg' = last_set pg
  /\ num_bindings_typed pg' = num_bindings_typed pg
  /\ pools st'
     = pools st ++ ((fun e => Pool (Z.of_nat e.2) [] [] [] 0) <$> plan)
  /\ (forall t, pg_pool pg' t
                = match plan_index t plan 0 with
                  | Some r => Some (length (pools st) + r)%nat
                  | None => pg_pool pg t
                  end)
  /\ forall t, (length (program_layout_bindings ZINK_SHADER_COUNT stages t)
                <= PIPE_SHADER_TYPES * 32)%nat.
Proof.
  intros Hcap H plan. unfold zink_descriptor_program_init in H.
  apply result_bind_Ok in H as (l & Hloop & H).
  destruct (init_stages_bindings _ _ _ _ _ _ _ Hloop) as (_ & Hb).
  assert (Hplb : forall t,
            bindings l t
            = program_layout_bindings ZINK_SHADER_COUNT stages t).
  { intros t. rewrite Hb. cbn. by rewrite drop_0. }
  assert (Hlen : forall t,
            (length (program_layout_bindings ZINK_SHADER_COUNT stages t)
             <= PIPE_SHADER_TYPES * 32)%nat).
  { intros t. rewrite <- Hplb.
    eapply init_stages_capacity; [exact Hloop|]. intros t'. cbn. lia. }
  assert (Hplan : plan
                  = pools_plan
                      (fun i => length (bindings
                                          (init_scale_sizes
                                             ZINK_DEFAULT_MAX_DESCS l) i))
                      (reverse ZINK_DESCRIPTOR_TYPES) false).
  { unfold plan. apply pools_plan_ext. intros i.
    cbn [init_scale_sizes with_sizes bindings]. by rewrite Hplb. }
  cbn [foldl ZINK_DESCRIPTOR_TYPES] in H. rewrite !Hplb in H.
  pose proof (Hlen ZINK_DESCRIPTOR_TYPE_UBO) as H0.
  pose proof (Hlen ZINK_DESCRIPTOR_TYPE_SAMPLER_VIEW) as H1.
  pose proof (Hlen ZINK_DESCRIPTOR_TYPE_SSBO) as H2.
  pose proof (Hlen ZINK_DESCRIPTOR_TYPE_IMAGE) as H3.
  rewrite (wrap32_small (0 + _)) in H by lia.
  rewrite (wrap32_small (0 + _ + _)) in H by lia.
  rewrite (wrap32_small (0 + _ + _ + _)) in H by lia.
  rewrite (wrap32_small (0 + _ + _ + _ + _)) in H by lia.
  match type of H with (if ?c then _ else _) = _ =>
    destruct c eqn:Htotal end.
  - injection H as <- <-. apply Z.eqb_eq in Htotal.
    assert (Hnil : plan = []).
    { unfold plan. cbn [reverse rev_append ZINK_DESCRIPTOR_TYPES pools_plan].
      cbn.
      replace (length (program_layout_bindings ZINK_SHADER_COUNT stages
                         ZINK_DESCRIPTOR_TYPE_IMAGE)) with 0%nat by lia.
      replace (length (program_layout_bindings ZINK_SHADER_COUNT stages
                         ZINK_DESCRIPTOR_TYPE_SSBO)) with 0%nat by lia.
      replace (length (program_layout_bindings ZINK_SHADER_COUNT stages
                         ZINK_DESCRIPTOR_TYPE_SAMPLER_VIEW)) with 0%nat
        by lia.
      replace (length (program_layout_bindings ZINK_SHADER_COUNT stages
                         ZINK_DESCRIPTOR_TYPE_UBO)) with 0%nat by lia.
      done. }
    rewrite Hnil. cbn. rewrite app_nil_r. split_and!; done.
  - apply init_pools_plan in H
      as (Hs & Hsl & Hbt & Hls & Hnb & Hp & Hpg).
    rewrite <- Hplan in Hp, Hpg.
    split_and!; try done.
    intros t. rewrite Hpg, plan_index_shift.
    by destruct (plan_index t plan 0).
Qed.

(** X15.  The pools [zink_descriptor_program_init] creates.  When the
    function answers [true], a type gets a pool exactly when it or a higher
    type has a binding in some stage: a pool with as many descriptors as the
    stages have bindings of the type, or with the one placeholder binding
    when they have none; the types above the highest type in use keep the
    pool pointer they had.  Every such type has a pool of its own, the new
    pools are empty (no entry, no shell, nothing allocated), and pools and
    sets that existed before are not touched. *)
Theorem zink_descriptor_program_init_pools
    (ZINK_SHADER_COUNT PIPE_SHADER_TYPES : nat) (ZINK_DEFAULT_MAX_DESCS : Z)
    (NDEBUG : bool) (vk : vulkan_constants)
    screen st stages pg st' pg' :
  Z.of_nat PIPE_SHADER_TYPES * 128 < 2 ^ 32 ->
  zink_descriptor_program_init ZINK_SHADER_COUNT PIPE_SHADER_TYPES
    ZINK_DEFAULT_MAX_DESCS NDEBUG vk screen st stages pg
  = Ok (st', pg', true) ->
  sets st' = sets st /\ slots st' = slots st /\ batch st' = batch st
  /\ take (length (pools st)) (pools st') = pools st
  /\ last_set pg' = last_set pg
  /\ (forall i,
        if used_from ZINK_SHADER_COUNT stages i
        then exists q,
               pg_pool pg' i = Some q /\ (length (pools st) <= q)%nat
               /\ pools st' !! q
                  = Some (Pool
                            (Z.of_nat
                               (if (length (program_layout_bindings
                                              ZINK_SHADER_COUNT stages i)
                                    =? 0)%nat
                                then 1
                                else length (program_layout_bindings
                                               ZINK_SHADER_COUNT stages i)))
                            [] [] [] 0)
        else pg_pool pg' i = pg_pool pg i)
  /\ forall i j q,
       used_from ZINK_SHADER_COUNT stages i = true ->
       used_from ZINK_SHADER_COUNT stages j = true ->
       pg_pool pg' i = Some q -> pg_pool pg' j = Some q -> i = j.
Proof.
  intros Hcap H.
  destruct (program_init_plan _ _ _ _ _ _ _ _ _ _ _ Hcap H)
    as (Hs & Hsl & Hb & Hls & _ & Hp & Hpg & _).
  set (n := fun i => length (program_layout_bindings ZINK_SHADER_COUNT
                               stages i)) in *.
  set (plan := pools_plan n (reverse ZINK_DESCRIPTOR_TYPES) false) in *.
  split_and!; try done.
  - by rewrite Hp, take_app_length.
  - intros i. pose proof (pools_plan_spec n i) as Hspec. cbn zeta in Hspec.
    fold plan in Hspec.
    change (existsb _ ZINK_DESCRIPTOR_TYPES)
      with (used_from ZINK_SHADER_COUNT stages i) in Hspec.
    destruct (used_from ZINK_SHADER_COUNT stages i).
    + destruct Hspec as (r & Hr & Hplan).
      exists (length (pools st) + r)%nat. rewrite Hpg, Hr.
      split_and!; [done|lia|].
      rewrite Hp, lookup_app_plus, list_lookup_fmap, Hplan. done.
    + by rewrite Hpg, Hspec.
  - intros i j q Hi Hj Hqi Hqj.
    pose proof (pools_plan_spec n i) as Hsi.
    pose proof (pools_plan_spec n j) as Hsj. cbn zeta in Hsi, Hsj.
    fold plan in Hsi, Hsj.
    change (existsb _ ZINK_DESCRIPTOR_TYPES)
      with (used_from ZINK_SHADER_COUNT stages i) in Hsi.
    change (existsb _ ZINK_DESCRIPTOR_TYPES)
      with (used_from ZINK_SHADER_COUNT stages j) in Hsj.
    rewrite Hi in Hsi. rewrite Hj in Hsj.
    destruct Hsi as (ri & Hri & _). destruct Hsj as (rj & Hrj & _).
    rewrite Hpg, Hri in Hqi. rewrite Hpg, Hrj in Hqj.
    apply (plan_index_injective n i j ri); [done|].
    fold plan. rewrite Hrj. f_equal. simplify_eq. lia.
Qed.

Lemma zink_descriptor_program_init_pools_witness :
  exists st' pg' q,
    Vulkan.zink_descriptor_program_init Vulkan.screen Vulkan.empty_state
      Vulkan.stages Vulkan.new_program
    = Ok (st', pg', true)
    /\ pools st' = [Pool 2 [] [] [] 0; Pool 1 [] [] [] 0; Pool 2 [] [] [] 0]
    /\ pg_pool pg' ZINK_DESCRIPTOR_TYPE_IMAGE = None
    /\ pg_pool pg' ZINK_DESCRIPTOR_TYPE_SAMPLER_VIEW = Some q
    /\ pools st' !! q = Some (Pool 1 [] [] [] 0).
Proof.
  eexists _, _, _.
  assert (H : Vulkan.zink_descriptor_program_init Vulkan.screen
                Vulkan.empty_state Vulkan.stages Vulkan.new_program
              = Ok (_, _, true)) by (vm_compute; reflexivity).
  split; [exact H|]. split; [reflexivity|]. split; [reflexivity|].
  assert (Hcap : Z.of_nat Vulkan.PIPE_SHADER_TYPES * 128 < 2 ^ 32) by done.
  destruct (zink_descriptor_program_init_pools _ _ _ _ _ _ _ _ _ _ _
              Hcap H) as (_ & _ & _ & _ & _ & Hpools & _).
  destruct (Hpools ZINK_DESCRIPTOR_TYPE_SAMPLER_VIEW) as (q & Hq & _ & Hp).
  vm_compute in Hq. injection Hq as <-. split; [reflexivity|exact Hp].
Defined.

(** The pools a call adds, whatever it answers. *)
Lemma program_init_new_pools
    (ZINK_SHADER_COUNT PIPE_SHADER_TYPES : nat) (ZINK_DEFAULT_MAX_DESCS : Z)
    (NDEBUG : bool) (vk : vulkan_constants)
    screen st stages pg st' pg' ok :
  (0 < PIPE_SHADER_TYPES)%nat ->
  zink_descriptor_program_init ZINK_SHADER_COUNT PIPE_SHADER_TYPES
    ZINK_DEFAULT_MAX_DESCS NDEBUG vk screen st stages pg
  = Ok (st', pg', ok) ->
  sets st' = sets st /\ slots st' = slots st /\ batch st' = batch st
  /\ last_set pg' = last_set pg
  /\ (exists new,
        pools st' = pools st ++ new
        /\ Forall (fun p => exists nd,
                     (1 <= nd <= PIPE_SHADER_TYPES * 32)%nat
                     /\ p = Pool (Z.of_nat nd) [] [] [] 0) new)
  /\ forall t, pg_pool pg' t = pg_pool pg t \/ pg_pool pg' t = None
               \/ exists q, pg_pool pg' t = Some q
                            /\ (length (pools st) <= q
                                < length (pools st'))%nat.
Proof.
  intros Hpos H. unfold zink_descriptor_program_init in H.
  apply result_bind_Ok in H as (l & Hloop & H).
  assert (Hlen : forall t,
            (length (bindings l t) <= PIPE_SHADER_TYPES * 32)%nat).
  { eapply init_stages_capacity; [exact Hloop|]. intros t'. cbn. lia. }
  match type of H with (if ?c then _ else _) = _ => destruct c end.
  - injection H as <- <- <-. split_and!; try done; [|by left].
    exists []. by rewrite app_nil_r.
  - apply init_pools_frame in H
      as (Hs & Hsl & Hb & Hls & (new & Hp & Hnew) & Hpg).
    split_and!; try done. exists new. split; [done|].
    eapply Forall_impl; [exact Hnew|].
    intros p (nd & Hnd & Hwhy & ->). exists nd. split; [|done].
    destruct Hwhy as [->|(t & ->)]; [lia|].
    cbn [init_scale_sizes with_sizes bindings] in *.
    specialize (Hlen t). lia.
Qed.

(** X16.  A program set up by [zink_descriptor_program_init] meets what the
    cache relies on.  Starting without sets and pools, whatever the function
    answers, the pools it created are empty and have at least one
    descriptor each; and after any sequence of calls on the program no pool
    of the program is a pool without descriptors, so that the placeholder
    branch of [zink_descriptor_set_get] is never taken, every pool keeps at
    least one descriptor and its counter stays within the ceiling (a
    positive multiple of ten). *)
Theorem zink_descriptor_program_init_then_calls
    (ZINK_SHADER_COUNT PIPE_SHADER_TYPES : nat) (ZINK_DEFAULT_MAX_DESCS : Z)
    (NDEBUG : bool) (vk : vulkan_constants)
    (vkAllocateDescriptorSets : zink_state -> nat -> Z -> bool)
    screen st stages pg st1 pg1 ok :
  (0 < PIPE_SHADER_TYPES)%nat ->
  Z.of_nat PIPE_SHADER_TYPES * 32 + ZINK_DEFAULT_MAX_DESCS < 2 ^ 32 ->
  (10 | ZINK_DEFAULT_MAX_DESCS) ->
  0 < ZINK_DEFAULT_MAX_DESCS ->
  sets st = [] -> pools st = [] ->
  (forall t, pg_pool pg t = None) ->
  (forall t, last_set pg t = None) ->
  zink_descriptor_program_init ZINK_SHADER_COUNT PIPE_SHADER_TYPES
    ZINK_DEFAULT_MAX_DESCS NDEBUG vk screen st stages pg
  = Ok (st1, pg1, ok) ->
  initial ZINK_DEFAULT_MAX_DESCS st1 pg1
  /\ forall cs st2 pg2,
       run_calls ZINK_SHADER_COUNT ZINK_DEFAULT_MAX_DESCS NDEBUG
         vkAllocateDescriptorSets cs (st1, pg1) = Ok (st2, pg2) ->
       (forall t, is_null_pool st2 pg2 t = false)
       /\ forall q p, pools st2 !! q = Some p ->
            1 <= num_descriptors p
            /\ 0 <= num_sets_allocated p <= ZINK_DEFAULT_MAX_DESCS.
Proof.
  intros Hpos Hroom Hmul Hmax Hsets Hpools Hnopool Hnolast H.
  destruct (program_init_new_pools _ _ _ _ _ _ _ _ _ _ _ _ Hpos H)
    as (Hs & _ & _ & Hls & (new & Hp & Hnew) & _).
  rewrite Hpools in Hp. cbn in Hp.
  assert (Hinit : initial ZINK_DEFAULT_MAX_DESCS st1 pg1).
  { split_and!.
    - by rewrite Hs.
    - rewrite Hp. eapply Forall_impl; [exact Hnew|].
      intros p (nd & Hnd & ->). unfold pool_created. cbn.
      split_and!; try done; lia.
    - intros t. by rewrite Hls. }
  split; [exact Hinit|]. intros cs st2 pg2 Hrun.
  destruct (run_calls_null_kept _ _ _ _ _ _ _ _ _ Hrun) as [Hpg Hk].
  assert (Hnd : forall q p, pools st2 !! q = Some p ->
                            1 <= num_descriptors p).
  { intros q p Hq.
    destruct (Forall2_lookup_r _ _ _ _ _ Hk Hq) as (p1 & Hq1 & Hn & _).
    rewrite Hp in Hq1. eapply Forall_lookup_1 in Hnew; [|exact Hq1].
    destruct Hnew as (nd & Hnd & ->). rewrite Hn. cbn. lia. }
  split.
  - intros t. unfold is_null_pool.
    destruct (pg_pool pg2 t) as [q|]; [|done].
    destruct (pools st2 !! q) as [p|] eqn:Hq; [|done].
    apply Z.eqb_neq. specialize (Hnd _ _ Hq). lia.
  - intros q p Hq. split; [by eapply Hnd|].
    assert (Hinv : cache_inv ZINK_DEFAULT_MAX_DESCS st2 pg2).
    { eapply run_calls_inv; [done|done| |exact Hrun]. by apply initial_inv. }
    by destruct (inv_counters _ _ _ Hinv _ _ Hq) as (_ & _ & ? & _).
Qed.

Lemma zink_descriptor_program_init_then_calls_witness :
  exists st1 pg1 st2 pg2,
    Vulkan.zink_descriptor_program_init Vulkan.screen Vulkan.empty_state
      Vulkan.stages Vulkan.new_program
    = Ok (st1, pg1, true)
    /\ run_calls Mesa.ZINK_SHADER_COUNT Mesa.ZINK_DEFAULT_MAX_DESCS false
         Example.granting
         [call_get 1 (Mesa.compute_context 7) ZINK_DESCRIPTOR_TYPE_UBO true;
          call_get 1 (Mesa.compute_context 7) ZINK_DESCRIPTOR_TYPE_SSBO true]
         (st1, pg1)
       = Ok (st2, pg2)
    /\ forall t, is_null_pool st2 pg2 t = false.
Proof.
  eexists _, _, _, _.
  assert (H : Vulkan.zink_descriptor_program_init Vulkan.screen
                Vulkan.empty_state Vulkan.stages Vulkan.new_program
              = Ok (_, _, true)) by (vm_compute; reflexivity).
  assert (Hpos : (0 < Vulkan.PIPE_SHADER_TYPES)%nat)
    by (unfold Vulkan.PIPE_SHADER_TYPES; lia).
  assert (Hroom : Z.of_nat Vulkan.PIPE_SHADER_TYPES * 32
                  + Mesa.ZINK_DEFAULT_MAX_DESCS < 2 ^ 32) by done.
  destruct (zink_descriptor_program_init_then_calls
              Mesa.ZINK_SHADER_COUNT Vulkan.PIPE_SHADER_TYPES
              Mesa.ZINK_DEFAULT_MAX_DESCS false Vulkan.constants
              Example.granting Vulkan.screen Vulkan.empty_state
              Vulkan.stages Vulkan.new_program _ _ _
              Hpos Hroom mesa_ceiling_multiple mesa_ceiling_positive
              eq_refl eq_refl (fun _ => eq_refl) (fun _ => eq_refl) H)
    as (_ & Hcalls).
  match type of H with _ = Ok (?st1, ?pg1, _) =>
    assert (Hrun : run_calls Mesa.ZINK_SHADER_COUNT
                     Mesa.ZINK_DEFAULT_MAX_DESCS false Example.granting
                     [call_get 1 (Mesa.compute_context 7)
                        ZINK_DESCRIPTOR_TYPE_UBO true;
                      call_get 1 (Mesa.compute_context 7)
                        ZINK_DESCRIPTOR_TYPE_SSBO true]
                     (st1, pg1) = Ok (_, _))
      by (vm_compute; reflexivity)
  end.
  split; [exact H|]. split; [exact Hrun|].
  exact (proj1 (Hcalls _ _ _ Hrun)).
Defined.

(** X17.  A type above the highest type in use has no pool.  When the
    function answered [true] for a program that had no pool for type [i],
    and neither [i] nor a higher type has a binding, [pg->pool[i]] is still
    null, and [zink_descriptor_set_get] for that type reads
    [pool->num_descriptors] through the null pointer. *)
Theorem lookup_of_unused_type
    (ZINK_SHADER_COUNT PIPE_SHADER_TYPES : nat) (ZINK_DEFAULT_MAX_DESCS : Z)
    (NDEBUG : bool) (vk : vulkan_constants)
    (vkAllocateDescriptorSets : zink_state -> nat -> Z -> bool)
    screen st stages pg st' pg' i :
  Z.of_nat PIPE_SHADER_TYPES * 128 < 2 ^ 32 ->
  zink_descriptor_program_init ZINK_SHADER_COUNT PIPE_SHADER_TYPES
    ZINK_DEFAULT_MAX_DESCS NDEBUG vk screen st stages pg
  = Ok (st', pg', true) ->
  pg_pool pg i = None ->
  used_from ZINK_SHADER_COUNT stages i = false ->
  pg_pool pg' i = None
  /\ forall fuel ctx is_compute,
       zink_descriptor_set_get ZINK_SHADER_COUNT ZINK_DEFAULT_MAX_DESCS
         NDEBUG vkAllocateDescriptorSets (S fuel) st' pg' ctx i is_compute
       = Crashed.
Proof.
  intros Hcap H Hnone Hunused.
  destruct (program_init_plan _ _ _ _ _ _ _ _ _ _ _ Hcap H)
    as (_ & _ & _ & _ & _ & _ & Hpg & _).
  pose proof (pools_plan_spec
                (fun i => length (program_layout_bindings ZINK_SHADER_COUNT
                                    stages i)) i) as Hspec.
  cbn zeta in Hspec.
  change (existsb _ ZINK_DESCRIPTOR_TYPES)
    with (used_from ZINK_SHADER_COUNT stages i) in Hspec.
  rewrite Hunused in Hspec.
  assert (Hpool : pg_pool pg' i = None) by by rewrite Hpg, Hspec.
  split; [done|]. intros fuel ctx is_compute.
  cbn [zink_descriptor_set_get]. by rewrite Hpool.
Qed.

Lemma lookup_of_unused_type_witness :
  exists st' pg',
    Vulkan.zink_descriptor_program_init Vulkan.screen Vulkan.empty_state
      Vulkan.stages Vulkan.new_program
    = Ok (st', pg', true)
    /\ zink_descriptor_set_get Mesa.ZINK_SHADER_COUNT
         Mesa.ZINK_DEFAULT_MAX_DESCS false Example.granting 1 st' pg'
         (Mesa.compute_context 7) ZINK_DESCRIPTOR_TYPE_IMAGE true
       = Crashed.
Proof.
  eexists _, _.
  assert (H : Vulkan.zink_descriptor_program_init Vulkan.screen
                Vulkan.empty_state Vulkan.stages Vulkan.new_program
              = Ok (_, _, true)) by (vm_compute; reflexivity).
  assert (Hcap : Z.of_nat Vulkan.PIPE_SHADER_TYPES * 128 < 2 ^ 32) by done.
  split; [exact H|].
  exact (proj2 (lookup_of_unused_type _ _ _ _ _ _ _ _ _ _ _ _
                  ZINK_DESCRIPTOR_TYPE_IMAGE Hcap H eq_refl eq_refl)
           0%nat (Mesa.compute_context 7) true).
Defined.

(** X18.  Nothing to bind.  When no stage among the first
    [ZINK_SHADER_COUNT] has a binding of any type (all shaders absent, or
    present without descriptors), the function answers [true] without
    creating a pool and without asking the device for anything: the state
    and the program are as before. *)
Theorem zink_descriptor_program_init_without_descriptors
    (ZINK_SHADER_COUNT PIPE_SHADER_TYPES : nat) (ZINK_DEFAULT_MAX_DESCS : Z)
    (NDEBUG : bool) (vk : vulkan_constants)
    screen st stages pg :
  (ZINK_SHADER_COUNT <= length stages)%nat ->
  (forall i sh j, (i < ZINK_SHADER_COUNT)%nat ->
     stages !! i = Some (Some sh) -> sh_bindings sh j = []) ->
  zink_descriptor_program_init ZINK_SHADER_COUNT PIPE_SHADER_TYPES
    ZINK_DEFAULT_MAX_DESCS NDEBUG vk screen st stages pg
  = Ok (st, pg, true).
Proof.
  intros Hlen Hempty.
  assert (Hloop : forall n k l,
    (k + n <= ZINK_SHADER_COUNT)%nat ->
    for_each (init_stage PIPE_SHADER_TYPES NDEBUG stages) l (seq k n)
    = Ok l).
  { induction n as [|n IH]; intros k l Hk; [done|].
    cbn [seq for_each].
    assert (Hstage : init_stage PIPE_SHADER_TYPES NDEBUG stages l k = Ok l).
    { unfold init_stage.
      destruct (lookup_lt_is_Some_2 stages k ltac:(lia)) as [shader Hs].
      rewrite Hs. cbn [deref mbind result_mbind result_bind].
      destruct shader as [sh|]; [|done].
      cbn [for_each ZINK_DESCRIPTOR_TYPES].
      rewrite !(Hempty k sh) by (done || lia). done. }
    rewrite Hstage. cbn [mbind result_mbind result_bind].
    apply IH. lia. }
  unfold zink_descriptor_program_init.
  rewrite (Hloop ZINK_SHADER_COUNT 0%nat) by lia. done.
Qed.

Lemma zink_descriptor_program_init_without_descriptors_witness :
  Vulkan.zink_descriptor_program_init (Screen false (fun _ => false)
                                         (fun _ _ => false))
    Vulkan.empty_state
    [None; Some (Shader 16 (fun _ => [])); None; None; None]
    Vulkan.new_program
  = Ok (Vulkan.empty_state, Vulkan.new_program, true).
Proof.
  unfold Vulkan.zink_descriptor_program_init.
  apply (zink_descriptor_program_init_without_descriptors
           Mesa.ZINK_SHADER_COUNT Vulkan.PIPE_SHADER_TYPES
           Mesa.ZINK_DEFAULT_MAX_DESCS false Vulkan.constants).
  - unfold Mesa.ZINK_SHADER_COUNT. cbn [length]. lia.
  - intros i sh j Hi Hs.
    destruct i as [|[|i]]; [discriminate Hs| |].
    + injection Hs as <-. reflexivity.
    + destruct i as [|[|[|i]]]; discriminate Hs.
Defined.

(** X19.  The local arrays are large enough for at most six Vulkan types.
    When the array of stages has [ZINK_SHADER_COUNT] cells, every binding
    has a Vulkan type below 12 (the cells of [type_map]), the bindings have
    at most six different Vulkan types between them (the cells of [sizes]),
    no descriptor type has more than [PIPE_SHADER_TYPES * 32] bindings (the
    cells of [bindings[j]]) and the seven types the [switch] names are
    below 12, the function returns: it reads and writes no cell outside an
    array and trips no [assert], whatever the device answers. *)
Theorem zink_descriptor_program_init_in_bounds
    (ZINK_SHADER_COUNT PIPE_SHADER_TYPES : nat) (ZINK_DEFAULT_MAX_DESCS : Z)
    (NDEBUG : bool) (vk : vulkan_constants)
    screen st stages pg :
  (ZINK_SHADER_COUNT <= length stages)%nat ->
  type_map_covers vk ->
  (forall e, e ∈ program_bindings_flat ZINK_SHADER_COUNT stages ->
             (sb_type e.2 < 12)%nat) ->
  (length (first_occurrences []
             (binding_types (program_bindings_flat ZINK_SHADER_COUNT
                               stages))) <= 6)%nat ->
  (forall j, (length (bindings_of_type j
                        (program_bindings_flat ZINK_SHADER_COUNT stages))
              <= PIPE_SHADER_TYPES * 32)%nat) ->
  exists st' pg' ok,
    zink_descriptor_program_init ZINK_SHADER_COUNT PIPE_SHADER_TYPES
      ZINK_DEFAULT_MAX_DESCS NDEBUG vk screen st stages pg
    = Ok (st', pg', ok).
Proof.
  intros Hlen Hvk Hty H6 Hcap. unfold zink_descriptor_program_init.
  rewrite init_stages_flat by lia. rewrite drop_0.
  fold (program_bindings_flat ZINK_SHADER_COUNT stages).
  destruct (init_flat_total PIPE_SHADER_TYPES NDEBUG init_locals_start []
              (program_bindings_flat ZINK_SHADER_COUNT stages)
              init_inv_start Hty H6 Hcap) as (l & Hl).
  rewrite Hl. cbn [mbind result_mbind result_bind].
  pose proof (init_flat_Ok_inv _ _ _ _ _ _ init_inv_start Hl) as Hinv.
  cbn [app] in Hinv.
  match goal with |- context [if ?c then _ else _] => destruct c end;
    [by eexists _, _, _|].
  destruct (init_pools_total ZINK_DEFAULT_MAX_DESCS vk screen
              (init_scale_sizes ZINK_DEFAULT_MAX_DESCS l)
              (reverse ZINK_DESCRIPTOR_TYPES) false st pg)
    as ([[st' pg'] ok] & Hr).
  - intros i. eexists. by eapply init_type_sizes_total.
  - by exists st', pg', ok.
Qed.

Lemma zink_descriptor_program_init_in_bounds_witness :
  exists st' pg' ok,
    Vulkan.zink_descriptor_program_init
      (Screen true (fun _ => true) (fun _ _ => false))
      Vulkan.empty_state Vulkan.stages Vulkan.new_program
    = Ok (st', pg', ok).
Proof.
  unfold Vulkan.zink_descriptor_program_init.
  apply (zink_descriptor_program_init_in_bounds Mesa.ZINK_SHADER_COUNT
           Vulkan.PIPE_SHADER_TYPES Mesa.ZINK_DEFAULT_MAX_DESCS false
           Vulkan.constants).
  - unfold Mesa.ZINK_SHADER_COUNT. cbn [length Vulkan.stages]. lia.
  - unfold type_map_covers. cbn. lia.
  - apply Forall_forall. vm_compute.
    repeat (apply Forall_cons; split; [lia|]). apply Forall_nil_2.
  - vm_compute. lia.
  - intros j. destruct j; vm_compute; lia.
Defined.

(** X20.  What the pool of a type is made of.  When the function answers
    [true], the pool of a type with bindings was created from a layout that
    lists exactly the bindings of that type, stage by stage and in the
    order of the shader, each with its binding number, Vulkan type, size,
    the stage flags of its shader and no immutable sampler, and from a
    Vulkan pool of [ZINK_DEFAULT_MAX_DESCS] sets whose sizes are, for each
    Vulkan type the [switch] gives for the type and some binding of the
    program has, the ceiling times the sum of the sizes of all the bindings
    of that Vulkan type in the program. *)
Theorem zink_descriptor_program_init_device_calls
    (ZINK_SHADER_COUNT PIPE_SHADER_TYPES : nat) (ZINK_DEFAULT_MAX_DESCS : Z)
    (NDEBUG : bool) (vk : vulkan_constants)
    screen st stages pg st' pg' i :
  Z.of_nat PIPE_SHADER_TYPES * 128 < 2 ^ 32 ->
  zink_descriptor_program_init ZINK_SHADER_COUNT PIPE_SHADER_TYPES
    ZINK_DEFAULT_MAX_DESCS NDEBUG vk screen st stages pg
  = Ok (st', pg', true) ->
  bindings_of_type i (program_bindings_flat ZINK_SHADER_COUNT stages)
  <> [] ->
  host_alloc screen = true
  /\ vkCreateDescriptorSetLayout screen
       ((fun e => LayoutBinding (sb_binding e.2) (sb_type e.2) (sb_size e.2)
                    e.1.1 0)
          <$> bindings_of_type i
                (program_bindings_flat ZINK_SHADER_COUNT stages))
     = true
  /\ vkCreateDescriptorPool screen
       (expected_type_sizes vk ZINK_DEFAULT_MAX_DESCS
          (program_bindings_flat ZINK_SHADER_COUNT stages) i)
       ZINK_DEFAULT_MAX_DESCS
     = true.
Proof.
  intros Hcap H Hne. unfold zink_descriptor_program_init in H.
  apply result_bind_Ok in H as (l & Hloop & H).
  assert (Hlen : forall t, (length (bindings l t)
                            <= PIPE_SHADER_TYPES * 32)%nat).
  { eapply init_stages_capacity; [exact Hloop|]. intros t'. cbn. lia. }
  assert (Hstages : (ZINK_SHADER_COUNT <= length stages)%nat).
  { destruct (init_stages_bindings _ _ _ _ _ _ _ Hloop) as ([->|?] & _);
      lia. }
  rewrite init_stages_flat, drop_0 in Hloop by lia.
  fold (program_bindings_flat ZINK_SHADER_COUNT stages) in Hloop.
  pose proof (init_flat_Ok_inv _ _ _ _ _ _ init_inv_start Hloop) as Hinv.
  cbn [app] in Hinv.
  set (flat := program_bindings_flat ZINK_SHADER_COUNT stages) in *.
  assert (Hb : forall j,
    bindings l j
    = (fun e => LayoutBinding (sb_binding e.2) (sb_type e.2) (sb_size e.2)
                  e.1.1 0) <$> bindings_of_type j flat)
    by by destruct Hinv as (_ & _ & _ & _ & Hb & _).
  assert (Hni : length (bindings l i) <> 0%nat).
  { rewrite Hb, length_fmap. by destruct (bindings_of_type i flat). }
  cbn [foldl ZINK_DESCRIPTOR_TYPES] in H.
  pose proof (Hlen ZINK_DESCRIPTOR_TYPE_UBO) as H0.
  pose proof (Hlen ZINK_DESCRIPTOR_TYPE_SAMPLER_VIEW) as H1.
  pose proof (Hlen ZINK_DESCRIPTOR_TYPE_SSBO) as H2.
  pose proof (Hlen ZINK_DESCRIPTOR_TYPE_IMAGE) as H3.
  rewrite (wrap32_small (0 + _)) in H by lia.
  rewrite (wrap32_small (0 + _ + _)) in H by lia.
  rewrite (wrap32_small (0 + _ + _ + _)) in H by lia.
  rewrite (wrap32_small (0 + _ + _ + _ + _)) in H by lia.
  match type of H with (if ?c then _ else _) = _ =>
    destruct c eqn:Htotal end.
  - apply Z.eqb_eq in Htotal. destruct i; lia.
  - destruct (init_pools_calls ZINK_DEFAULT_MAX_DESCS vk screen
                (init_scale_sizes ZINK_DEFAULT_MAX_DESCS l)
                (reverse ZINK_DESCRIPTOR_TYPES) false st pg st' pg' i H)
      as (szs & Hszs & Hhost & Hlayout & Hpool).
    + destruct i; vm_compute; set_solver.
    + done.
    + apply (init_type_sizes_Ok _ _ _ _ _ _ Hinv) in Hszs. subst szs.
      cbn [init_scale_sizes bindings with_sizes] in Hlayout.
      rewrite Hb in Hlayout. done.
Qed.

Lemma zink_descriptor_program_init_device_calls_witness :
  exists st' pg',
    Vulkan.zink_descriptor_program_init Vulkan.strict_screen
      Vulkan.empty_state Vulkan.stages Vulkan.new_program
    = Ok (st', pg', true)
    /\ expected_type_sizes Vulkan.constants Mesa.ZINK_DEFAULT_MAX_DESCS
         (program_bindings_flat Mesa.ZINK_SHADER_COUNT Vulkan.stages)
         ZINK_DESCRIPTOR_TYPE_UBO
       = [PoolSize 6 10000]
    /\ vkCreateDescriptorPool Vulkan.strict_screen
         (expected_type_sizes Vulkan.constants Mesa.ZINK_DEFAULT_MAX_DESCS
            (program_bindings_flat Mesa.ZINK_SHADER_COUNT Vulkan.stages)
            ZINK_DESCRIPTOR_TYPE_UBO)
         Mesa.ZINK_DEFAULT_MAX_DESCS
       = true.
Proof.
  eexists _, _.
  assert (H : Vulkan.zink_descriptor_program_init Vulkan.strict_screen
                Vulkan.empty_state Vulkan.stages Vulkan.new_program
              = Ok (_, _, true)) by (vm_compute; reflexivity).
  assert (Hcap : Z.of_nat Vulkan.PIPE_SHADER_TYPES * 128 < 2 ^ 32) by done.
  split; [exact H|]. split; [vm_compute; reflexivity|].
  unfold Vulkan.zink_descriptor_program_init in H.
  refine (proj2 (proj2 (zink_descriptor_program_init_device_calls
                          Mesa.ZINK_SHADER_COUNT Vulkan.PIPE_SHADER_TYPES
                          Mesa.ZINK_DEFAULT_MAX_DESCS false Vulkan.constants
                          Vulkan.strict_screen Vulkan.empty_state
                          Vulkan.stages Vulkan.new_program _ _
                          ZINK_DESCRIPTOR_TYPE_UBO Hcap H _))).
  vm_compute. discriminate.
Defined.

(** X21.  A seventh Vulkan type does not fit.  With the other arrays large
    enough (stages present, Vulkan types below 12, no more than
    [PIPE_SHADER_TYPES * 32] bindings of a descriptor type), bindings of
    more than six different Vulkan types make the function write the type
    it meets seventh into [sizes[6]], past the end of the six-cell array:
    the model stops with a crash, in debug and release builds alike (no
    [assert] guards [num_types]). *)
Theorem zink_descriptor_program_init_seventh_type
    (ZINK_SHADER_COUNT PIPE_SHADER_TYPES : nat) (ZINK_DEFAULT_MAX_DESCS : Z)
    (NDEBUG : bool) (vk : vulkan_constants)
    screen st stages pg :
  (ZINK_SHADER_COUNT <= length stages)%nat ->
  (forall e, e ∈ program_bindings_flat ZINK_SHADER_COUNT stages ->
             (sb_type e.2 < 12)%nat) ->
  (forall j, (length (bindings_of_type j
                        (program_bindings_flat ZINK_SHADER_COUNT stages))
              <= PIPE_SHADER_TYPES * 32)%nat) ->
  (6 < length (first_occurrences []
                 (binding_types (program_bindings_flat ZINK_SHADER_COUNT
                                   stages))))%nat ->
  zink_descriptor_program_init ZINK_SHADER_COUNT PIPE_SHADER_TYPES
    ZINK_DEFAULT_MAX_DESCS NDEBUG vk screen st stages pg
  = Crashed.
Proof.
  intros Hlen Hty Hcap H7. unfold zink_descriptor_program_init.
  rewrite init_stages_flat by lia. rewrite drop_0.
  fold (program_bindings_flat ZINK_SHADER_COUNT stages).
  rewrite (init_flat_overflow PIPE_SHADER_TYPES NDEBUG init_locals_start []
             (program_bindings_flat ZINK_SHADER_COUNT stages)
             init_inv_start Hty Hcap H7).
  done.
Qed.

Lemma zink_descriptor_program_init_seventh_type_witness :
  Vulkan.zink_descriptor_program_init Vulkan.screen Vulkan.empty_state
    [Some Vulkan.seven_types; None; None; None; None] Vulkan.new_program
  = Crashed.
Proof.
  unfold Vulkan.zink_descriptor_program_init.
  apply (zink_descriptor_program_init_seventh_type Mesa.ZINK_SHADER_COUNT
           Vulkan.PIPE_SHADER_TYPES Mesa.ZINK_DEFAULT_MAX_DESCS false
           Vulkan.constants).
  - unfold Mesa.ZINK_SHADER_COUNT. cbn [length]. lia.
  - apply Forall_forall. vm_compute.
    repeat (apply Forall_cons; split; [lia|]). apply Forall_nil_2.
  - intros j. destruct j; vm_compute; lia.
  - vm_compute. lia.
Defined.
